(** * generator-jhipster: template writing, needles and naming helpers

    A shallow embedding of
    - [generators/base/generator-base.mjs]: [getFrontendAppName],
      [upperFirstCamelCase] and [writeFiles] (with its inner
      [resolveCallback] and [renderTemplate]);
    - [generators/angular/needle-api/needle-client-angular.mts]: the text
      transform built by [addIcon];
    - further methods of [generator-base.mjs]: [getMicroserviceAppName],
      [getMainClassName], [composeWithJHipster], the names of tables and
      constraints, [parseCommonRuntimeOptions] and [loadStoredAppOptions].

    Conventions of the embedding.
    - A JavaScript string is a Rocq [string]; one [ascii] stands for one
      UTF-16 code unit, so the model covers the strings whose code units are
      all below 256 (ASCII and Latin-1).
    - Regular expressions of the source are values of [Regex.re], run by a
      backtracking matcher with the ECMAScript priorities (greedy
      quantifiers, ordered alternation, atomic look-ahead).
    - [lodash], [node:path], [node:fs], [ejs], [JSON] and the yeoman
      generator are libraries the repository calls; [lodash]'s [camelCase]
      and [upperFirst] are transcribed from lodash 4.17 (module [Lodash]),
      the others are fields of the record [WriteFiles.Host].
    - Effects of [writeFiles] are a state (the in-memory file system of the
      generator) and a trace of the calls made on the collaborators.  A copy,
      a render and an edit act on the file at [destinationPath(target)], as
      yeoman resolves it. *)

From Stdlib Require Import Ascii String List Bool Arith Lia NArith ZArith DecimalString.
From stdpp Require Import base option list strings gmap.

Open Scope string_scope.

(** ** JavaScript strings *)

Module JsString.

Definition code (c : ascii) : N := N_of_ascii c.

Definition in_range (lo hi : N) (c : ascii) : bool :=
  ((lo <=? code c) && (code c <=? hi))%N.

(** [\d] *)
Definition is_digit (c : ascii) : bool := in_range 48 57 c.
Definition is_upper_az (c : ascii) : bool := in_range 65 90 c.
Definition is_lower_az (c : ascii) : bool := in_range 97 122 c.

(** [\w], which also decides [\b] *)
Definition is_word (c : ascii) : bool :=
  is_digit c || is_upper_az c || is_lower_az c || (code c =? 95)%N.

(** [\s] on code units below 256: TAB, LF, VT, FF, CR, SP, NBSP *)
Definition is_space (c : ascii) : bool :=
  in_range 9 13 c || (code c =? 32)%N || (code c =? 160)%N.

(** [String.prototype.toLowerCase], one code unit *)
Definition toLowerChar (c : ascii) : ascii :=
  if is_upper_az c || in_range 192 214 c || in_range 216 222 c
  then ascii_of_N (code c + 32) else c.

(** [String.prototype.toUpperCase], one code unit.  The three code units
    whose upper case leaves Latin-1 (U+00B5, U+00DF, U+00FF) are left
    unchanged; they never reach this function from [Lodash.camelCase],
    which only changes the case of ASCII letters and digits. *)
Definition toUpperChar (c : ascii) : ascii :=
  if is_lower_az c || in_range 224 246 c || in_range 248 254 c
  then ascii_of_N (code c - 32) else c.

Fixpoint map (f : ascii -> ascii) (s : string) : string :=
  match s with
  | EmptyString => EmptyString
  | String c t => String (f c) (map f t)
  end.

Definition toLowerCase : string -> string := map toLowerChar.

(** [s.startsWith(p)] *)
Fixpoint startsWith (p s : string) : bool :=
  match p, s with
  | EmptyString, _ => true
  | String a p', String b s' => Ascii.eqb a b && startsWith p' s'
  | String _ _, EmptyString => false
  end.

(** [s.slice(n)] for [0 <= n] *)
Fixpoint drop (n : nat) (s : string) : string :=
  match n, s with
  | O, _ => s
  | S n', String _ t => drop n' t
  | S _, EmptyString => EmptyString
  end.

(** [s.slice(0, n)] for [0 <= n] *)
Fixpoint take (n : nat) (s : string) : string :=
  match n, s with
  | S n', String c t => String c (take n' t)
  | _, _ => EmptyString
  end.

(** [s.endsWith(p)] *)
Definition endsWith (p s : string) : bool :=
  (String.length p <=? String.length s)%nat &&
  String.eqb (drop (String.length s - String.length p) s) p.

(** [s.includes(p)] *)
Fixpoint includes (p s : string) : bool :=
  startsWith p s ||
  match s with
  | EmptyString => false
  | String _ t => includes p t
  end.

(** [s.replace(p, r)] with a string pattern: the first occurrence only *)
Fixpoint replaceFirst (p r s : string) : string :=
  if startsWith p s then r ++ drop (String.length p) s
  else match s with
       | EmptyString => EmptyString
       | String c t => String c (replaceFirst p r t)
       end.

(** [' '.repeat(n)] and friends *)
Fixpoint repeat (s : string) (n : nat) : string :=
  match n with
  | O => EmptyString
  | S n' => s ++ repeat s n'
  end.

(** [array.join(sep)], which is also [Array.prototype.toString] for
    [sep = ","] *)
Definition join (sep : string) (l : list string) : string :=
  String.concat sep l.

(** Every code unit of the string is in the class. *)
Fixpoint all (p : ascii -> bool) (s : string) : bool :=
  match s with
  | EmptyString => true
  | String c t => p c && all p t
  end.

(** The string does not start with a code unit of the class. *)
Definition stopsAt (p : ascii -> bool) (s : string) : bool :=
  match s with
  | EmptyString => true
  | String c _ => negb (p c)
  end.

(** The code unit before the position reached after [m], [b] being the one
    before [m]. *)
Fixpoint lastOr (b : option ascii) (m : string) : option ascii :=
  match m with
  | EmptyString => b
  | String c t => lastOr (Some c) t
  end.

(** JavaScript truthiness of a string *)
Definition nonEmpty (s : string) : bool :=
  match s with EmptyString => false | String _ _ => true end.

(** The code units of the class, in order. *)
Fixpoint filter (p : ascii -> bool) (s : string) : string :=
  match s with
  | EmptyString => EmptyString
  | String c t => if p c then String c (filter p t) else filter p t
  end.

(** The number of positions at which [p] occurs in [s]. *)
Fixpoint count (p s : string) : nat :=
  (if startsWith p s then 1 else 0)
  + match s with
    | EmptyString => 0
    | String _ t => count p t
    end.

End JsString.

(** ** Regular expressions with the ECMAScript backtracking order *)

Module Regex.
Import JsString.

Inductive re : Type :=
| Class (p : ascii -> bool)     (* a character class, [.], an escape *)
| Empty
| Seq (a b : re)
| Alt (a b : re)                (* [a|b], [a] first *)
| Star (a : re)                 (* greedy [a*] *)
| Ahead (a : re)                (* [(?=a)] *)
| NotAhead (a : re)             (* [(?!a)] *)
| EndOfInput                    (* [$], no [m] flag *)
| WordBoundary.                 (* [\b] *)

Definition Plus (a : re) : re := Seq a (Star a).
Definition Opt (a : re) : re := Alt a Empty.
Definition Chr (c : ascii) : re := Class (Ascii.eqb c).

Fixpoint Lit (s : string) : re :=
  match s with
  | EmptyString => Empty
  | String c t => Seq (Chr c) (Lit t)
  end.

Fixpoint Alts (l : list re) : re :=
  match l with
  | [] => NotAhead Empty
  | [a] => a
  | a :: l' => Alt a (Alts l')
  end.

Definition neg (p : ascii -> bool) (c : ascii) : bool := negb (p c).
Definition either (p q : ascii -> bool) (c : ascii) : bool := p c || q c.
Definition oneOf (s : string) (c : ascii) : bool := includes (String c "") s.

(** A position in the subject: the code unit before it (for [\b]) and the
    text after it. *)
Record pos : Type := Pos { before : option ascii; after : string }.

Definition word_before (x : pos) : bool :=
  match before x with Some c => is_word c | None => false end.
Definition word_after (x : pos) : bool :=
  match after x with String c _ => is_word c | EmptyString => false end.

(** The iterations of a greedy [a*], [step] being the matcher of [a]: one
    more iteration first, the continuation [k] when that fails.  An
    iteration that consumes nothing is rejected, as in ECMAScript, so the
    fuel (the number of code units left) never runs out before the
    alternatives do. *)
Fixpoint starLoop {A : Type} (step : pos -> (pos -> option A) -> option A)
    (k : pos -> option A) (fuel : nat) (x : pos) {struct fuel} : option A :=
  match fuel with
  | O => k x
  | S fuel' =>
      match step x (fun y =>
               if (String.length (after y) <? String.length (after x))%nat
               then starLoop step k fuel' y else None) with
      | Some v => Some v
      | None => k x
      end
  end.

(** [run r x k]: match [r] at [x] and hand the end position to the
    continuation [k]; a failing continuation makes the matcher backtrack
    into [r]. *)
Fixpoint run {A : Type} (r : re) (x : pos) (k : pos -> option A) {struct r} : option A :=
  match r with
  | Class p =>
      match after x with
      | String c t => if p c then k (Pos (Some c) t) else None
      | EmptyString => None
      end
  | Empty => k x
  | Seq a b => run a x (fun y => run b y k)
  | Alt a b =>
      match run a x k with
      | Some v => Some v
      | None => run b x k
      end
  | Star a => starLoop (run a) k (String.length (after x)) x
  | Ahead a =>
      match run a x Some with
      | Some _ => k x
      | None => None
      end
  | NotAhead a =>
      match run a x Some with
      | Some _ => None
      | None => k x
      end
  | EndOfInput =>
      match after x with
      | EmptyString => k x
      | String _ _ => None
      end
  | WordBoundary =>
      if xorb (word_before x) (word_after x) then k x else None
  end.

(** A regular expression that consumes at least one code unit whenever
    it matches (a sufficient syntactic test). *)
Fixpoint consumes (r : re) : bool :=
  match r with
  | Class _ => true
  | Seq a b => consumes a || consumes b
  | Alt a b => consumes a && consumes b
  | _ => false
  end.

(** The code units that a regular expression may consume. *)
Fixpoint alphabet (r : re) (c : ascii) : bool :=
  match r with
  | Class p => p c
  | Seq a b | Alt a b => alphabet a c || alphabet b c
  | Star a => alphabet a c
  | _ => false
  end.

(** One attempt at a fixed start position: the end position of the match. *)
Definition matchAt (r : re) (x : pos) : option pos := run r x Some.

(** The result of a search: the text skipped before the match, the matched
    text and the position where the match ends. *)
Record found : Type := Found { skipped : string; matched : string; stop : pos }.

(** The leftmost match at or after [x]. *)
Fixpoint search (r : re) (b : option ascii) (s : string) : option found :=
  match matchAt r (Pos b s) with
  | Some y => Some (Found "" (take (String.length s - String.length (after y)) s) y)
  | None =>
      match s with
      | EmptyString => None
      | String c t =>
          match search r (Some c) t with
          | Some f => Some (Found (String c (skipped f)) (matched f) (stop f))
          | None => None
          end
      end
  end.

(** [regex.test(s)] without the [g] flag *)
Definition test (r : re) (s : string) : bool :=
  match search r None s with Some _ => true | None => false end.

(** The successive matches of a [g] regular expression, each with the text
    skipped since the previous one, and the text left after the last: after
    a match the search resumes where it ended, one code unit further when
    the match was empty. *)
Fixpoint scan (fuel : nat) (r : re) (b : option ascii) (s : string)
  : list (string * string) * string :=
  match fuel with
  | O => ([], s)
  | S fuel' =>
      match search r b s with
      | None => ([], s)
      | Some f =>
          match matched f, after (stop f) with
          | EmptyString, EmptyString => ([(skipped f, "")], "")
          | EmptyString, String c t =>
              match scan fuel' r (Some c) t with
              | ([], tl) => ([(skipped f, "")], String c tl)
              | ((sk, m) :: gs, tl) => ((skipped f, "") :: (String c sk, m) :: gs, tl)
              end
          | String _ _, rest =>
              let '(gs, tl) := scan fuel' r (before (stop f)) rest in
              ((skipped f, matched f) :: gs, tl)
          end
      end
  end.

Definition segments (r : re) (s : string) : list (string * string) * string :=
  scan (S (String.length s)) r None s.

(** [s.match(r)] for a [g] regular expression, [null] read as [[]] *)
Definition matchAll (r : re) (s : string) : list string :=
  List.map snd (fst (segments r s)).

(** [s.replace(r, by)] for a [g] regular expression and a replacement text
    [by] without [$], which ECMAScript then copies as it is. *)
Definition replaceAll (r : re) (by_ : string) (s : string) : string :=
  let '(segs, tl) := segments r s in
  fold_right (fun seg acc => fst seg ++ by_ ++ acc) tl segs.

End Regex.

(** ** lodash 4.17: [deburr], [words], [camelCase], [upperFirst] *)

Module Lodash.
Import JsString Regex.

(** [deburredLetters], the Latin-1 Supplement block; [reLatin] matches
    exactly the code units the table is defined on. *)
Definition deburrLetter (c : ascii) : string :=
  let n := code c in
  if in_range 192 197 c then "A" else
  if (n =? 198)%N then "Ae" else
  if (n =? 199)%N then "C" else
  if in_range 200 203 c then "E" else
  if in_range 204 207 c then "I" else
  if (n =? 208)%N then "D" else
  if (n =? 209)%N then "N" else
  if in_range 210 214 c || (n =? 216)%N then "O" else
  if in_range 217 220 c then "U" else
  if (n =? 221)%N then "Y" else
  if (n =? 222)%N then "Th" else
  if (n =? 223)%N then "ss" else
  if in_range 224 229 c then "a" else
  if (n =? 230)%N then "ae" else
  if (n =? 231)%N then "c" else
  if in_range 232 235 c then "e" else
  if in_range 236 239 c then "i" else
  if (n =? 240)%N then "d" else
  if (n =? 241)%N then "n" else
  if in_range 242 246 c || (n =? 248)%N then "o" else
  if in_range 249 252 c then "u" else
  if (n =? 253)%N || (n =? 255)%N then "y" else
  if (n =? 254)%N then "th" else
  String c "".

(** [string.replace(reLatin, deburrLetter).replace(reComboMark, '')];
    combining marks start at U+0300. *)
Fixpoint deburr (s : string) : string :=
  match s with
  | EmptyString => EmptyString
  | String c t => deburrLetter c ++ deburr t
  end.

(** [rsApos = "['\u2019]"] *)
Definition isApos (c : ascii) : bool := (code c =? 39)%N.
Definition reApos : re := Class isApos.

(** Character ranges of the word patterns, below U+0100. *)
Definition lowerRange (c : ascii) : bool :=
  is_lower_az c || in_range 223 246 c || in_range 248 255 c.
Definition upperRange (c : ascii) : bool :=
  is_upper_az c || in_range 192 214 c || in_range 216 222 c.
Definition mathOpRange (c : ascii) : bool :=
  oneOf (String (ascii_of_N 172) (String (ascii_of_N 177)
        (String (ascii_of_N 215) (String (ascii_of_N 247) "")))) c.
Definition nonCharRange (c : ascii) : bool :=
  in_range 0 47 c || in_range 58 64 c || in_range 91 96 c || in_range 123 191 c.
Definition spaceRange (c : ascii) : bool :=
  oneOf (String " " (String (ascii_of_N 9) (String (ascii_of_N 11)
        (String (ascii_of_N 12) (String (ascii_of_N 160)
        (String (ascii_of_N 10) (String (ascii_of_N 13) ""))))))) c.
Definition breakRange (c : ascii) : bool :=
  mathOpRange c || nonCharRange c || spaceRange c.

Definition rsBreak : re := Class breakRange.
Definition rsDigits : re := Plus (Class is_digit).
Definition rsLower : re := Class lowerRange.
Definition rsUpper : re := Class upperRange.
(** [rsMisc]: none of break, [\d], [+], lower, upper (and of the ranges
    above U+00FF). *)
Definition rsMisc : re :=
  Class (fun c => negb (breakRange c || is_digit c || Ascii.eqb "+" c
                        || lowerRange c || upperRange c)).
Definition rsMiscLower : re := Alt rsLower rsMisc.
Definition rsMiscUpper : re := Alt rsUpper rsMisc.
Definition rsOptContrLower : re :=
  Opt (Seq reApos (Alts [Lit "d"; Lit "ll"; Lit "m"; Lit "re"; Lit "s"; Lit "t"; Lit "ve"])).
Definition rsOptContrUpper : re :=
  Opt (Seq reApos (Alts [Lit "D"; Lit "LL"; Lit "M"; Lit "RE"; Lit "S"; Lit "T"; Lit "VE"])).
Definition rsOrdLower : re :=
  Seq (Star (Class is_digit))
    (Seq (Alts [Lit "1st"; Lit "2nd"; Lit "3rd";
                Seq (NotAhead (Class (oneOf "123"))) (Seq (Class is_digit) (Lit "th"))])
         (Ahead (Alt WordBoundary (Class (either is_upper_az (Ascii.eqb "_")))))).
Definition rsOrdUpper : re :=
  Seq (Star (Class is_digit))
    (Seq (Alts [Lit "1ST"; Lit "2ND"; Lit "3RD";
                Seq (NotAhead (Class (oneOf "123"))) (Seq (Class is_digit) (Lit "TH"))])
         (Ahead (Alt WordBoundary (Class (either is_lower_az (Ascii.eqb "_")))))).
(** [rsEmoji] starts with a dingbat or a surrogate, U+2700 and above. *)
Definition rsEmoji : re := Class (fun _ => false).

(** [reAsciiWord = /[^\x00-\x2f\x3a-\x40\x5b-\x60\x7b-\x7f]+/g] *)
Definition reAsciiWord : re :=
  Plus (Class (fun c => negb (in_range 0 47 c || in_range 58 64 c
                              || in_range 91 96 c || in_range 123 127 c))).

(** [reHasUnicodeWord] *)
Definition is_alpha_az (c : ascii) : bool := is_lower_az c || is_upper_az c.
Definition reHasUnicodeWord : re :=
  Alts [Seq (Class is_lower_az) (Class is_upper_az);
        Seq (Class is_upper_az) (Seq (Class is_upper_az) (Class is_lower_az));
        Seq (Class is_digit) (Class is_alpha_az);
        Seq (Class is_alpha_az) (Class is_digit);
        Class (fun c => negb (is_alpha_az c || is_digit c || Ascii.eqb " " c))].

(** [reUnicodeWord] *)
Definition reUnicodeWord : re :=
  Alts [Seq (Opt rsUpper) (Seq (Plus rsLower) (Seq rsOptContrLower
              (Ahead (Alts [rsBreak; rsUpper; EndOfInput]))));
        Seq (Plus rsMiscUpper) (Seq rsOptContrUpper
              (Ahead (Alts [rsBreak; Seq rsUpper rsMiscLower; EndOfInput])));
        Seq (Opt rsUpper) (Seq (Plus rsMiscLower) rsOptContrLower);
        Seq (Plus rsUpper) rsOptContrUpper;
        rsOrdUpper;
        rsOrdLower;
        rsDigits;
        rsEmoji].

Definition hasUnicodeWord (s : string) : bool := test reHasUnicodeWord s.
Definition asciiWords (s : string) : list string := matchAll reAsciiWord s.
Definition unicodeWords (s : string) : list string := matchAll reUnicodeWord s.

(** [words(string)] with no pattern *)
Definition words (s : string) : list string :=
  if hasUnicodeWord s then unicodeWords s else asciiWords s.

(** [createCaseFirst('toUpperCase')]; [hasUnicode] needs a code unit
    above U+00FF. *)
Definition upperFirst (s : string) : string :=
  match s with
  | EmptyString => EmptyString
  | String c t => String (toUpperChar c) t
  end.

Definition capitalize (s : string) : string := upperFirst (toLowerCase s).

(** [arrayReduce(array, iteratee, accumulator)] with the index passed to
    the iteratee *)
Fixpoint arrayReduce {A B : Type} (f : B -> A -> nat -> B) (acc : B) (index : nat)
  (l : list A) : B :=
  match l with
  | [] => acc
  | x :: l' => arrayReduce f (f acc x index) (S index) l'
  end.

(** [createCompounder(callback)] *)
Definition createCompounder (callback : string -> string -> nat -> string)
  (s : string) : string :=
  arrayReduce callback "" 0 (words (replaceAll reApos "" (deburr s))).

Definition camelCase : string -> string :=
  createCompounder (fun result word index =>
    let word := toLowerCase word in
    result ++ (match index with O => word | S _ => capitalize word end)).

(** What the callback of [camelCase] appends for a word after the first. *)
Definition camelWord (word : string) : string := capitalize (toLowerCase word).

End Lodash.

(** ** [generator-base.mjs]: naming helpers *)

Module Naming.
Import JsString Regex.

(** [upperFirstCamelCase(value)] *)
Definition upperFirstCamelCase (value : string) : string :=
  Lodash.upperFirst (Lodash.camelCase value).

(** [getFrontendAppName(baseName)] *)
Definition getFrontendAppName (baseName : string) : string :=
  let name := Lodash.camelCase baseName ++ (if endsWith "App" baseName then "" else "App") in
  match matchAt (Class is_digit) (Pos None name) with
  | Some _ => "App"
  | None => name
  end.

(** *** Capitalised words, on which [upperFirstCamelCase] is studied *)

(** A capitalised word: an upper-case ASCII letter, then one or more
    lower-case ASCII letters. *)
Definition capitalised (w : string) : bool :=
  match w with
  | String c t => is_upper_az c && nonEmpty t && all is_lower_az t
  | EmptyString => false
  end.

(** The words put end to end. *)
Definition flat (l : list string) : string := fold_right String.append "" l.

(** After a capitalised word comes the end of the text or the next
    capitalised word. *)
Definition wordEnd (rest : string) : Prop :=
  rest = "" \/ exists U t, rest = String U t /\ is_upper_az U = true.

End Naming.

(** ** [needle-client-angular.mts]: the rewriting done by [addIcon] *)

Module NeedleClientAngular.
Import JsString Regex.

Definition CR : ascii := ascii_of_N 13.
Definition LF : ascii := ascii_of_N 10.
Definition newline : string := String LF "".

Definition needleComment : string := "// jhipster-needle-add-icon-import".

(** The regular expression of [addIcon], with the [g] flag: a group
    [\r?\n], a group of any number of [\s], then the text
    [// jhipster-needle-add-icon-import].  The replacement refers to
    neither group. *)
Definition reIconNeedle : re :=
  Seq (Seq (Opt (Chr CR)) (Chr LF))
      (Seq (Star (Class is_space)) (Lit needleComment)).

(** [const iconImport = `fa${this.generator.upperFirstCamelCase(iconName)}`] *)
Definition iconImport (iconName : string) : string :=
  "fa" ++ Naming.upperFirstCamelCase iconName.

(** The replacement text
    [`\n${indentPrefix}${iconImport},\n${indentPrefix}// jhipster-needle-add-icon-import`]. *)
Definition replacement (icon indentPrefix : string) : string :=
  newline ++ indentPrefix ++ icon ++ "," ++ newline ++ indentPrefix ++ needleComment.

(** The [contentToAdd] callback that [addIcon] hands to
    [createNeedleCallback]:
    [(content, { indentPrefix }) => content.replace(/.../g, `...`)].
    [createNeedleCallback] belongs to [base/support/needles.mjs]; it
    decides whether the callback runs and supplies [indentPrefix], which
    is therefore an argument here. *)
Definition contentToAdd (iconName : string) (content indentPrefix : string) : string :=
  replaceAll reIconNeedle (replacement (iconImport iconName) indentPrefix) content.

(** *** What the rewriting is compared with *)

(** A needle line starts at the beginning of [s]: a line break, white
    space, then the comment. *)
Definition needleLineAt (s : string) : Prop :=
  exists lineBreak indentation rest,
    s = lineBreak ++ indentation ++ needleComment ++ rest
    /\ (lineBreak = newline \/ lineBreak = String CR newline)
    /\ all is_space indentation = true.

(** [Rewrites by_ content result]: [result] is [content] with every needle
    line, leftmost first, replaced by [by_], and nothing else changed. *)
Inductive Rewrites (by_ : string) : string -> string -> Prop :=
| Rewrites_none content :
    (forall before rest, content = before ++ rest -> ~ needleLineAt rest) ->
    Rewrites by_ content content
| Rewrites_needle before lineBreak indentation rest result :
    (lineBreak = newline \/ lineBreak = String CR newline) ->
    all is_space indentation = true ->
    (forall a b, before = a ++ b -> b <> "" ->
       ~ needleLineAt (b ++ lineBreak ++ indentation ++ needleComment ++ rest)) ->
    Rewrites by_ rest result ->
    Rewrites by_ (before ++ lineBreak ++ indentation ++ needleComment ++ rest)
                 (before ++ by_ ++ result).

(** The code units other than the [/] the needle comment starts with. *)
Definition noSlash : ascii -> bool := neg (Ascii.eqb "/").

(** The lines of a text, split at LF. *)
Fixpoint lines (s : string) : list string :=
  match s with
  | EmptyString => [""%string]
  | String c t =>
      if Ascii.eqb c LF then ""%string :: lines t
      else match lines t with
           | l :: ls => String c l :: ls
           | [] => [String c ""]
           end
  end.

(** The white space a line starts with. *)
Fixpoint indentationOf (line : string) : string :=
  match line with
  | String c t => if is_space c then String c (indentationOf t) else ""%string
  | EmptyString => ""%string
  end.

(** The line holds the needle comment after its indentation. *)
Definition isNeedleLine (line : string) : bool :=
  startsWith needleComment (drop (String.length (indentationOf line)) line).

(** The reading of the specification, to compare [contentToAdd] with:
    before every line that holds the needle, a line with the icon import
    at that line's own indentation. *)
Definition insertBeforeEveryNeedleLine (icon content : string) : string :=
  join newline
    (List.concat (List.map (fun line =>
       if isNeedleLine line
       then [(indentationOf line +:+ icon +:+ ",")%string; line]
       else [line]) (lines content))).

(** Two needle lines with different indentations, and a needle on the
    first line of a text. *)
Definition twoNeedles : string :=
  ("a" +:+ newline +:+ "  " +:+ needleComment +:+ newline
   +:+ "    " +:+ needleComment +:+ newline +:+ "b")%string.

Definition needleOnFirstLine : string :=
  (needleComment +:+ newline +:+ "b")%string.

End NeedleClientAngular.

(** ** [generator-base.mjs]: [writeFiles] *)

Module WriteFiles.
Import JsString.

(** *** Values, errors and the collaborators *)

Inductive Error : Type :=
| AssertionError (message : string)   (* a failed [assert] *)
| JsError (message : string)          (* [throw new Error(message)] *)
| TypeError (message : string).       (* raised by the runtime or a library *)

Inductive Result (A : Type) : Type :=
| Ok (a : A)
| Throw (e : Error).
Arguments Ok {A} a.
Arguments Throw {A} e.

(** The fields of the template context that [writeFiles] reads. *)
Record Context : Type := {
  entityClass : option string;
  baseName : option string;
  fakerSeed : option string
}.

(** The values [resolveCallback] tells apart.  [VOther] stands for a value
    of any other type, with its truthiness and its rendering in a template
    literal. *)
Inductive Val : Type :=
| VUndefined
| VBool (b : bool)
| VString (s : string)
| VFunction (f : Context -> Val)
| VOther (truthy : bool) (shown : string).

Definition truthy (v : Val) : bool :=
  match v with
  | VUndefined => false
  | VBool b => b
  | VString s => nonEmpty s
  | VFunction _ => true
  | VOther t _ => t
  end.

Definition truthyField (o : option string) : bool :=
  match o with Some s => nonEmpty s | None => false end.

(** [a || b] *)
Definition orElse (a b : Val) : Val := if truthy a then a else b.

(** An [editFile] callback: the new content from the old. *)
Definition Transform : Type := string -> string.

(** A [transform] entry of a block or of a file: missing, a boolean, an
    array of callbacks, or something else.  The declared type has the
    first three; [TransformOther] stands for a value outside it that cannot
    be spread either (a number, an object, [null]).  A string or another
    iterable that is no array is not modelled: the code would spread it
    into the chain and fail later, in [editFile]. *)
Inductive TransformSpec : Type :=
| TransformMissing
| TransformBool (b : bool)
| TransformArray (l : list Transform)
| TransformOther (shown : string).

(** An entity of a shared registry, known by its identity: the two
    registries may hold the same object. *)
Definition EntityRef : Type := nat.

(** What the file is read from and written to at lookup time. *)
Inductive Roots : Type :=
| RootsArray (l : list string)
| RootsString (s : string)
| RootsMissing.

Inductive Mode : Type := Sync | Async.

(** The calls [writeFiles] makes on its collaborators, in order. *)
Inductive Event : Type :=
| ExistsSync (path : string)                          (* [fs.existsSync] *)
| FsExists (path : string)                            (* [this.fs.exists] *)
| LoggerWarn (message : string)
| LoggerDebug (message : string)
| ResetFakerSeed (entity : EntityRef) (seed : string) (* [entity.resetFakerSeed] *)
| CopyTemplate (source target : string)               (* [copyTemplateAsync] *)
| RenderTemplate (mode : Mode) (source target : string) (data : Context) (root : Roots)
| EditFile (target : string) (transform : list Transform).

(** The libraries and the environment of the generator: [node:path],
    [node:fs] on the template folders, yeoman's [templatePath] and
    [destinationPath], [ejs], [JSON.stringify] and the clock. *)
Record Host : Type := {
  extname : string -> string;
  basename : string -> string;
  join : string -> string -> string;            (* [path.join(a, b)] *)
  join1 : string -> string;                     (* [path.join(a)] *)
  isAbsolute : string -> bool;
  templatePath : string -> string -> string;    (* [this.templatePath(root, file)] *)
  templatePath1 : string -> string;             (* [this.templatePath(file)] *)
  destinationPath : string -> string -> string; (* [this.destinationPath(to, file)] *)
  destinationPath1 : string -> string;          (* [this.destinationPath(file)] *)
  disk : gmap string string;                    (* the files of the template folders *)
  ejs : string -> Context -> string;            (* [ejs.render(template, data)] *)
  stringify : list string -> string;            (* [JSON.stringify(array, null, 2)] *)
  elapsed : string                              (* [new Date() - startTime] *)
}.

(** The generator object [this]. *)
Record Generator : Type := {
  self : Context;
  jhipsterTemplatesFolders : option (list string);
  configSharedEntities : option (list (string * EntityRef));      (* [this.configOptions?.sharedEntities] *)
  applicationSharedEntities : option (list (string * EntityRef))  (* [this.sharedData.getApplication()?.sharedEntities] *)
}.

(** The mutable world: the in-memory file system [this.fs], the faker seed
    of every entity object, and the calls made so far. *)
Record State : Type := {
  memFs : gmap string string;
  fakerSeeds : gmap EntityRef string;
  trace : list Event
}.

(** *** A state and exception monad *)

Definition M (A : Type) : Type := State -> State * Result A.

Definition ret {A : Type} (a : A) : M A := fun st => (st, Ok a).
Definition throw {A : Type} (e : Error) : M A := fun st => (st, Throw e).
Definition bind {A B : Type} (m : M A) (k : A -> M B) : M B :=
  fun st =>
    match m st with
    | (st', Ok a) => k a st'
    | (st', Throw e) => (st', Throw e)
    end.
Definition lift {A : Type} (r : Result A) : M A := fun st => (st, r).

Notation "x <- m ;; k" := (bind m (fun x => k))
  (at level 100, m at next level, right associativity).
Notation "m ;;; k" := (bind m (fun _ => k))
  (at level 100, right associativity).

Definition emit (e : Event) : M unit :=
  fun st => ({| memFs := memFs st; fakerSeeds := fakerSeeds st; trace := trace st ++ [e] |}, Ok tt).

Definition assert (cond : bool) (message : string) : M unit :=
  if cond then ret tt else throw (AssertionError message).

Fixpoint forEach {A : Type} (f : A -> M unit) (l : list A) : M unit :=
  match l with
  | [] => ret tt
  | x :: l' => f x ;;; forEach f l'
  end.

(** [array.map(f)] with the index, for an [f] that may throw. *)
Fixpoint mapM {A B : Type} (f : A -> nat -> M B) (index : nat) (l : list A) : M (list B) :=
  match l with
  | [] => ret []
  | x :: l' => y <- f x index ;; ys <- mapM f (S index) l' ;; ret (y :: ys)
  end.

Definition showNat (n : nat) : string :=
  DecimalString.NilZero.string_of_uint (Nat.to_uint n).

(** Sequencing of computations that only fail. *)
Definition rbind {A B : Type} (r : Result A) (k : A -> Result B) : Result B :=
  match r with
  | Ok a => k a
  | Throw e => Throw e
  end.

Definition getState : M State := fun st => (st, Ok st).

Definition writeFile (path content : string) : M unit :=
  fun st => ({| memFs := <[path := content]> (memFs st);
                fakerSeeds := fakerSeeds st; trace := trace st |}, Ok tt).

(** *** The tasks handed to [renderTemplate] *)

Inductive Destination : Type :=
| DestString (s : string)
| DestFunction (f : Context -> Val).

(** [{ sourceFile, destinationFile, options, noEjs, transform, binary }];
    [options] is kept as the entries of [options.renderOptions], [noEjs]
    and [binary] by what the code tests: [noEjs === undefined] and the
    truthiness. *)
Record Template : Type := {
  sourceFile : string;
  destinationFile : Destination;
  options : option (list (string * string));
  noEjs : option bool;
  transform : option (list Transform);
  binary : bool
}.

Section Generator.
Variable host : Host.
Variable this : Generator.
(** [context], which defaults to [this] *)
Variable context : Context.
(** [rootTemplatesAbsolutePath] *)
Variable rootTemplatesAbsolutePath : Roots.

(** **** The collaborators, on the state *)

Definition onDisk (path : string) : bool :=
  match disk host !! path with Some _ => true | None => false end.

Definition existsSync (path : string) : M bool :=
  emit (ExistsSync path) ;;; ret (onDisk path).

Definition fsExists (path : string) : M bool :=
  emit (FsExists path) ;;;
  st <- getState ;;
  ret (match memFs st !! path with Some _ => true | None => false end).

(** [this.copyTemplateAsync(from, to)]: the file of the template folder,
    as it is, into the in-memory file system.  yeoman writes to
    [this.destinationPath(to)]: a relative [to] lands under the destination
    root. *)
Definition copyTemplateAsync (from to : string) : M unit :=
  emit (CopyTemplate from to) ;;;
  match disk host !! from with
  | Some content => writeFile (destinationPath1 host to) content
  | None => throw (JsError ("Trying to copy from a source that does not exist: " ++ from))
  end.

(** [this.renderTemplate] and [this.renderTemplateAsync]: the template
    expanded by [ejs] against [data], written to
    [this.destinationPath(to)]. *)
Definition renderTemplateWith (mode : Mode) (from to : string) (data : Context) : M unit :=
  emit (RenderTemplate mode from to data rootTemplatesAbsolutePath) ;;;
  match disk host !! from with
  | Some template => writeFile (destinationPath1 host to) (ejs host template data)
  | None => throw (JsError ("Trying to copy from a source that does not exist: " ++ from))
  end.

(** Modelled from the spec: [editFile] belongs to the generator's base
    classes, outside the two files at hand.  The transform chain of a
    task is applied to the written file, first callback first; the file is
    the one at [this.destinationPath(target)], where the copy or the
    render has put it. *)
Definition editFile (target : string) (callbacks : list Transform) : M unit :=
  emit (EditFile target callbacks) ;;;
  st <- getState ;;
  match memFs st !! destinationPath1 host target with
  | Some content =>
      writeFile (destinationPath1 host target) (fold_left (fun acc f => f acc) callbacks content)
  | None => throw (JsError ("Unable to edit file " ++ target))
  end.

(** Modelled from the spec: [entity.resetFakerSeed(seed)] belongs to the
    entity preparation code, outside the two files at hand.  It reseeds
    the fake-data generator of that entity object. *)
Definition resetFakerSeed (seed : string) (entity : EntityRef) : M unit :=
  emit (ResetFakerSeed entity seed) ;;;
  fun st => ({| memFs := memFs st;
                fakerSeeds := <[entity := seed]> (fakerSeeds st);
                trace := trace st |}, Ok tt).

(** [Object.values(registry ?? {})] *)
Definition objectValues (registry : option (list (string * EntityRef))) : list EntityRef :=
  match registry with
  | Some entries => List.map snd entries
  | None => []
  end.

(** **** [resolveCallback] *)

(** [val.call(this, context) || false] *)
Definition callOrFalse (f : Context -> Val) : Val := orElse (f context) (VBool false).

Definition resolveCallback (val fallback : Val) : Result Val :=
  match val with
  | VUndefined =>
      match fallback with
      | VFunction f => Ok (callOrFalse f)      (* [resolveCallback(fallback)] *)
      | _ => Ok fallback
      end
  | VBool _ | VString _ => Ok val
  | VFunction f => Ok (callOrFalse f)
  | VOther _ shown => Throw (JsError ("Type not supported " ++ shown))
  end.

(** A value used where a library wants a path. *)
Definition asPath (v : Val) : Result string :=
  match v with
  | VString s => Ok s
  | _ => Throw (TypeError "The path argument must be of type string")
  end.

(** **** [renderTemplate] *)

Definition normalizeEjs (file : string) : string := replaceFirst ".ejs" "" file.

Definition binaryExtensions : list string := [".png"; ".jpg"; ".gif"; ".svg"; ".ico"].

Definition extension (t : Template) : string := extname host (sourceFile t).

Definition isBinary (t : Template) : bool :=
  binary t || existsb (String.eqb (extension t)) binaryExtensions.

Definition appendEjs (t : Template) : bool :=
  match noEjs t with
  | None => negb (isBinary t) && negb (String.eqb (extension t) ".ejs")
  | Some b => negb b
  end.

Definition ejsFile (t : Template) : bool :=
  appendEjs t || String.eqb (extension t) ".ejs".

Definition targetFile (t : Template) : Result string :=
  match destinationFile t with
  | DestFunction f =>
      match resolveCallback (VFunction f) VUndefined with
      | Ok v => asPath v
      | Throw e => Throw e
      end
  | DestString d => Ok (if appendEjs t then normalizeEjs d else d)
  end.

(** [array.filter(pred)] for a predicate with effects *)
Fixpoint filterM {A : Type} (pred : A -> M bool) (l : list A) : M (list A) :=
  match l with
  | [] => ret []
  | x :: l' =>
      keep <- pred x ;;
      rest <- filterM pred l' ;;
      ret (if keep then x :: rest else rest)
  end.

(** The file looked for in the template folders: with [.ejs] appended
    when [appendEjs] holds. *)
Definition withEjs (t : Template) (templateFile : string) : string :=
  if appendEjs t then templateFile ++ ".ejs" else templateFile.

Definition existingTemplates (t : Template) (roots : list string) : M (list string) :=
  filterM (fun templateFile => existsSync (withEjs t templateFile))
          (List.map (fun rootPath => templatePath host rootPath (sourceFile t)) roots).

Definition moreThanOneMessage (t : Template) (existing : list string) : string :=
  "Multiples templates were found for file " ++ sourceFile t ++ ", using the first"
  ++ String (ascii_of_N 10) "" ++ "templates: " ++ stringify host existing.

(** [sourceFileFrom], before [.ejs] is appended *)
Definition lookupTemplate (t : Template) : M string :=
  match rootTemplatesAbsolutePath with
  | RootsArray roots =>
      existing <- existingTemplates t roots ;;
      (if (1 <? List.length existing)%nat
       then if (2 <? List.length existing)%nat
            then emit (LoggerWarn ("Possible blueprint conflict detected: "
                                   ++ moreThanOneMessage t existing))
            else emit (LoggerDebug (moreThanOneMessage t existing))
       else ret tt) ;;;
      match existing with
      | first :: _ => ret first
      | [] => throw (JsError ("Template file " ++ sourceFile t ++ " was not found at "
                              ++ JsString.join "," roots))
      end
  | RootsString root => ret (templatePath host root (sourceFile t))
  | RootsMissing => ret (templatePath1 host (sourceFile t))
  end.

Definition fakerSeedFor (entity sourceFileFrom : string) : string :=
  entity ++ "-" ++ basename host sourceFileFrom
  ++ match fakerSeed context with Some s => s | None => "" end.

(** The branch taken for a template expanded by [ejs]. *)
Definition renderEjs (sourceFileFrom target : string) : M unit :=
  useAsync <-
    (if truthyField (entityClass context)
     then
       (if truthyField (baseName context) then ret tt
        else throw (JsError "baseName is require at templates context")) ;;;
       let seed := fakerSeedFor (default "" (entityClass context)) sourceFileFrom in
       forEach (resetFakerSeed seed) (objectValues (configSharedEntities this)) ;;;
       forEach (resetFakerSeed seed) (objectValues (applicationSharedEntities this)) ;;;
       ret false
     else ret true) ;;
  if useAsync : bool
  then renderTemplateWith Async sourceFileFrom target context
  else renderTemplateWith Sync sourceFileFrom target context.

(** The copy, or the expansion by [ejs]. *)
Definition produce (t : Template) (target sourceFileFrom : string) : M unit :=
  if ejsFile t
  then renderEjs sourceFileFrom target
  else copyTemplateAsync sourceFileFrom target.

(** [if (!isBinary && transform && transform.length) this.editFile(targetFile, ...transform)] *)
Definition applyTransforms (t : Template) (target : string) : M unit :=
  if negb (isBinary t)
  then match transform t with
       | Some (f :: fs) => editFile target (f :: fs)
       | _ => ret tt
       end
  else ret tt.

(** [renderTemplate] once [targetFile] and [sourceFileFrom] are known. *)
Definition renderFound (t : Template) (target sourceFileFrom : string) : M string :=
  produce t target sourceFileFrom ;;;
  applyTransforms t target ;;;
  ret target.

Definition renderTemplate (t : Template) : M string :=
  target <- lift (targetFile t) ;;
  found <- lookupTemplate t ;;
  renderFound t target (withEjs t found).

(** **** The planner: from blocks to tasks *)

(** A file of a block given as an object.  [sourceFile], [file],
    [destinationFile], [renameTo] and [override] go through
    [resolveCallback]. *)
Record FileObject : Type := {
  file_sourceFile : Val;
  file_file : Val;
  file_destinationFile : Val;
  file_renameTo : Val;
  file_override : Val;
  file_noEjs : option bool;
  file_transform : TransformSpec;
  file_binary : bool;
  file_method : option string;
  file_options : option (list (string * string))
}.

Inductive FileSpec : Type :=
| FileName (name : string)
| FileObj (o : FileObject).

Record Block : Type := {
  block_blockSpecPath : option string;
  block_path : Val;
  block_from : Val;
  block_to : Val;
  block_condition : Val;
  block_transform : TransformSpec;
  block_renameTo : option (Context -> string -> string);
  block_templates : option (list FileSpec)     (* [None]: not an array *)
}.

(** [methodTransform] and [sectionTransform] *)
Variable methodTransform : list Transform.
Variable sectionTransform : list Transform.

(** [let { noEjs } = fileSpec] *)
Definition noEjsOf (fileSpec : FileSpec) : option bool :=
  match fileSpec with
  | FileName _ => None
  | FileObj o => file_noEjs o
  end.

(** The [noEjs] and [derivedTransform] a file starts with, from the
    [transform] of its block. *)
Definition blockDerived (blockTransform : TransformSpec) (fileSpec : FileSpec)
  : Result (option bool * list Transform) :=
  match blockTransform with
  | TransformBool b => Ok (Some (negb b), (methodTransform ++ sectionTransform)%list)
  | TransformMissing => Ok (noEjsOf fileSpec, (methodTransform ++ sectionTransform ++ [])%list)
  | TransformArray l => Ok (noEjsOf fileSpec, (methodTransform ++ sectionTransform ++ l)%list)
  | TransformOther _ => Throw (TypeError "blockTransform is not iterable")
  end.

(** The same pair after the [transform] of the file itself. *)
Definition fileDerived (fileTransform : TransformSpec) (start : option bool * list Transform)
  : Result (option bool * list Transform) :=
  match fileTransform with
  | TransformBool b => Ok (Some (negb b), snd start)
  | TransformMissing => Ok (fst start, (snd start ++ [])%list)
  | TransformArray l => Ok (fst start, (snd start ++ l)%list)
  | TransformOther shown => Throw (JsError ("Transform " ++ shown ++ " value is not supported"))
  end.

(** The source and the destination of a file given as an object. *)
Definition filePaths (blockPath blockTo : Val) (o : FileObject) : Result (string * string) :=
  rbind (resolveCallback (orElse (file_sourceFile o) (file_file o)) VUndefined) (fun normalizedFile =>
  rbind (asPath blockPath) (fun from =>
  rbind (asPath normalizedFile) (fun normalized =>
  rbind (rbind (resolveCallback (orElse (file_destinationFile o) (file_renameTo o))
                                normalizedFile) asPath) (fun renamed =>
  rbind (asPath blockTo) (fun to =>
  Ok (join host from normalized, destinationPath host to (join1 host renamed))))))).

(** [noEjs] after the [method === 'copy'] fallback *)
Definition noEjsWithMethod (noEjs : option bool) (method : option string) : option bool :=
  match noEjs, method with
  | None, Some "copy" => Some true
  | n, _ => n
  end.

(** One entry of [block.templates], for a block whose [blockPath],
    [blockTo], [transform] and [renameTo] are known: the task, or nothing
    when the file is skipped. *)
Definition parseFile (blockPath blockTo : Val) (blockTransform : TransformSpec)
    (blockRenameTo : option (Context -> string -> string)) (fileSpec : FileSpec)
  : M (option Template) :=
  derived <- lift (blockDerived blockTransform fileSpec) ;;
  match fileSpec with
  | FileName name =>
      from <- lift (asPath blockPath) ;;
      destination <-
        match blockRenameTo with
        | Some rename => ret (destinationPath1 host (rename context name))
        | None => to <- lift (asPath blockTo) ;; ret (destinationPath host to name)
        end ;;
      ret (Some {| sourceFile := join host from name;
                   destinationFile := DestString destination;
                   options := None;
                   noEjs := fst derived;
                   transform := Some (snd derived);
                   binary := false |})
  | FileObj o =>
      derived <- lift (fileDerived (file_transform o) derived) ;;
      paths <- lift (filePaths blockPath blockTo o) ;;
      override <- lift (resolveCallback (file_override o) VUndefined) ;;
      skip <-
        match override with
        | VUndefined => ret false
        | _ => if truthy override then ret false else fsExists (snd paths)
        end ;;
      if skip : bool
      then emit (LoggerDebug ("skipping file " ++ snd paths)) ;;; ret None
      else
        ret (Some {| sourceFile := fst paths;
                     destinationFile := DestString (snd paths);
                     options := file_options o;
                     noEjs := noEjsWithMethod (fst derived) (file_method o);
                     transform := Some (snd derived);
                     binary := file_binary o |})
  end.

(** One block: nothing when its condition fails, else the entries of its
    files. *)
Definition parseBlock (block : Block) (blockIdx : nat) : M (option (list (option Template))) :=
  let blockSpecPath := default (showNat blockIdx) (block_blockSpecPath block) in
  let blockPathValue := match block_path block with VUndefined => VString "./" | v => v end in
  templates <-
    match block_templates block with
    | Some l => ret l
    | None => throw (AssertionError ("Block templates must be an array for " ++ blockSpecPath))
    end ;;
  condition <- lift (resolveCallback (block_condition block) VUndefined) ;;
  if match condition with VUndefined => false | _ => negb (truthy condition) end
  then ret None
  else
    match blockPathValue with
    | VFunction _ => throw (JsError ("Block path should be static for " ++ blockSpecPath))
    | _ => ret tt
    end ;;;
    blockPath <- lift (resolveCallback (block_from block) blockPathValue) ;;
    blockTo <- lift (resolveCallback (block_to block) blockPath) ;;
    let blockTo := orElse blockTo blockPath in
    files <- mapM (fun fileSpec _ =>
                     parseFile blockPath blockTo (block_transform block)
                               (block_renameTo block) fileSpec)
                  0 templates ;;
    ret (Some files).

(** [.flat().filter(template => template)] *)
Definition flatFilter (l : list (option (list (option Template)))) : list Template :=
  List.concat (List.map (fun entry =>
    match entry with
    | Some files => omap id files
    | None => []
    end) l).

Definition parseBlocks (parsedBlocks : list Block) : M (list Template) :=
  entries <- mapM parseBlock 0 parsedBlocks ;;
  ret (flatFilter entries).

End Generator.

(** *** [writeFiles(options)] *)

(** The value of a section: an array of blocks, or the settings object
    that the section [_] holds. *)
Inductive SectionValue : Type :=
| SectionBlocks (sectionBlocks : list Block)
| SectionSettings (transform : option (list Transform)).

Inductive TemplateSpec : Type :=
| TemplateName (name : string)
| TemplateObj (t : Template).

Inductive RootTemplatesPath : Type :=
| RootTemplatesPathMissing
| RootTemplatesPathString (s : string)
| RootTemplatesPathArray (l : list string).

(** A key of [options]: absent, or present with a value that may be
    [undefined]. *)
Definition Key (A : Type) : Type := option (option A).

Definition keyPresent {A : Type} (k : Key A) : bool :=
  match k with Some _ => true | None => false end.

Definition keyValue {A : Type} (k : Key A) : option A :=
  match k with Some v => v | None => None end.

Record Options : Type := {
  sections : Key (list (string * SectionValue));
  blocks : Key (list Block);
  templates : Key (list TemplateSpec);
  rootTemplatesPath : RootTemplatesPath;
  optionsContext : option Context;              (* [context = this] *)
  optionsTransform : option (list Transform)    (* [transform: methodTransform = []] *)
}.

(** [Object.keys(options).filter(key => ['sections', 'blocks', 'templates'].includes(key)).length] *)
Definition paramCount (o : Options) : nat :=
  List.length (List.filter (fun present : bool => present)
    [keyPresent (sections o); keyPresent (blocks o); keyPresent (templates o)]).

(** [const { _: commonSpec = {} } = sections || {}] and
    [const { transform: sectionTransform = [] } = commonSpec] *)
Definition sectionTransformOf (o : Options) : list Transform :=
  match keyValue (sections o) with
  | Some entries =>
      match List.find (fun entry => String.eqb (fst entry) "_") entries with
      | Some (_, SectionSettings (Some l)) => l
      | _ => []
      end
  | None => []
  end.

(** The lookup order of the templates. *)
Definition rootTemplatesAbsolutePathOf (host : Host) (this : Generator) (o : Options)
  : Result Roots :=
  let folders := match jhipsterTemplatesFolders this with
                 | Some l => RootsArray l
                 | None => RootsMissing
                 end in
  let relative (l : list string) :=
    match jhipsterTemplatesFolders this with
    | Some folders =>
        Ok (RootsArray (List.concat (List.map (fun templateFolder =>
              List.map (fun relativePath => join host templateFolder relativePath) l) folders)))
    | None => Throw (TypeError "Cannot read properties of undefined (reading 'map')")
    end in
  match rootTemplatesPath o with
  | RootTemplatesPathMissing => Ok folders
  | RootTemplatesPathString s =>
      if negb (nonEmpty s) then Ok folders
      else if isAbsolute host s then Ok (RootsString s)
      else relative [s]
  | RootTemplatesPathArray l => relative l
  end.

(** The blocks of the sections whose name does not start with [_], each
    with its [blockSpecPath]. *)
Definition parseSection (entry : string * SectionValue) : Result (list Block) :=
  let '(sectionName, value) := entry in
  if startsWith "_" sectionName then Ok []
  else
    match value with
    | SectionBlocks sectionBlocks =>
        Ok (imap (fun blockIdx block =>
              {| block_blockSpecPath :=
                   Some (default (sectionName ++ "[" ++ showNat blockIdx ++ "]")
                                 (block_blockSpecPath block));
                 block_path := block_path block;
                 block_from := block_from block;
                 block_to := block_to block;
                 block_condition := block_condition block;
                 block_transform := block_transform block;
                 block_renameTo := block_renameTo block;
                 block_templates := block_templates block |}) sectionBlocks)
    | SectionSettings _ =>
        Throw (AssertionError ("Section must be an array for " ++ sectionName))
    end.

Fixpoint parseSections (entries : list (string * SectionValue)) : Result (list Block) :=
  match entries with
  | [] => Ok []
  | entry :: rest =>
      rbind (parseSection entry) (fun first =>
      rbind (parseSections rest) (fun others => Ok (first ++ others)%list))
  end.

(** [parsedTemplates] of the [templates] form *)
Definition parseTemplate (template : TemplateSpec) : Template :=
  match template with
  | TemplateName name =>
      {| sourceFile := name; destinationFile := DestString name; options := None;
         noEjs := None; transform := None; binary := false |}
  | TemplateObj t => t
  end.

(** [parsedTemplates.map(template => renderTemplate(template))]: every task
    is started, whatever became of the ones before it.  The tasks are run
    one after the other, in the order of the list.  This is one schedule of
    the code, which starts every task and lets the asynchronous copies and
    renders interleave: whether a run returns, what it returns and which
    files it has then written are the same under every schedule, but with
    several failing tasks the error that comes out, and with several tasks
    for one target the content that stays, may be those of another
    schedule. *)
Fixpoint startAll {A B : Type} (f : A -> M B) (l : list A) (st : State)
  : State * list (Result B) :=
  match l with
  | [] => (st, [])
  | x :: l' =>
      let '(st1, r) := f x st in
      let '(st2, rs) := startAll f l' st1 in
      (st2, r :: rs)
  end.

(** [Promise.all]: the values, or the first rejection, in the order of
    the schedule above. *)
Fixpoint settle {B : Type} (rs : list (Result B)) : Result (list B) :=
  match rs with
  | [] => Ok []
  | Ok b :: rs' => rbind (settle rs') (fun bs => Ok (b :: bs))
  | Throw e :: _ => Throw e
  end.

Definition promiseAll {A B : Type} (f : A -> M B) (l : list A) : M (list B) :=
  fun st => let '(st', rs) := startAll f l st in (st', settle rs).

(** [parsedTemplates]: the tasks of the request, from its sections, its
    blocks or its templates. *)
Definition parsedTemplatesOf (host : Host) (context : Context)
    (methodTransform sectionTransform : list Transform) (o : Options) : M (list Template) :=
  parsedBlocks <-
    match keyValue (sections o) with
    | Some entries => parsed <- lift (parseSections entries) ;; ret (Some parsed)
    | None => ret (keyValue (blocks o))
    end ;;
  match parsedBlocks with
  | Some l => parseBlocks host context methodTransform sectionTransform l
  | None =>
      match keyValue (templates o) with
      | Some l => ret (List.map parseTemplate l)
      | None => throw (TypeError "Cannot read properties of undefined (reading 'map')")
      end
  end.

Definition writeFiles (host : Host) (this : Generator) (o : Options) : M (list string) :=
  assert (0 <? paramCount o)%nat "One of sections, blocks or templates is required" ;;;
  assert (paramCount o =? 1)%nat "Only one of sections, blocks or templates must be provided" ;;;
  let context := default (self this) (optionsContext o) in
  let methodTransform := default [] (optionsTransform o) in
  let sectionTransform := sectionTransformOf o in
  rootTemplatesAbsolutePath <- lift (rootTemplatesAbsolutePathOf host this o) ;;
  parsedTemplates <- parsedTemplatesOf host context methodTransform sectionTransform o ;;
  files <- promiseAll (renderTemplate host this context rootTemplatesAbsolutePath) parsedTemplates ;;
  emit (LoggerDebug ("Time taken to write files: " ++ elapsed host ++ "ms")) ;;;
  ret (List.filter nonEmpty files).

(** *** Observations on a run *)

(** The state after some more calls on the collaborators. *)
Definition addTrace (st : State) (events : list Event) : State :=
  {| memFs := memFs st; fakerSeeds := fakerSeeds st; trace := trace st ++ events |}.

(** The template files that a sequence of calls copies or expands. *)
Definition sourcesOf (events : list Event) : list string :=
  omap (fun e => match e with
                 | CopyTemplate source _ => Some source
                 | RenderTemplate _ source _ _ _ => Some source
                 | _ => None
                 end) events.

(** The file that the lookup tests for a root. *)
Definition lookedFor (host : Host) (t : Template) (rootPath : string) : string :=
  withEjs host t (templatePath host rootPath (sourceFile t)).

(** The roots in which the file of a task exists. *)
Definition foundIn (host : Host) (t : Template) (rootPath : string) : bool :=
  onDisk host (lookedFor host t rootPath).

(** What the lookup logs when it finds these templates. *)
Definition diagnostics (host : Host) (t : Template) (existing : list string) : list Event :=
  if (1 <? List.length existing)%nat
  then if (2 <? List.length existing)%nat
       then [LoggerWarn ("Possible blueprint conflict detected: "
                         ++ moreThanOneMessage host t existing)]
       else [LoggerDebug (moreThanOneMessage host t existing)]
  else [].

(** The state after [resetFakerSeed(seed)] on each of these entities. *)
Definition reseed (seed : string) (entities : list EntityRef) (st : State) : State :=
  {| memFs := memFs st;
     fakerSeeds := fold_left (fun seeds entity => <[entity := seed]> seeds) entities (fakerSeeds st);
     trace := trace st ++ List.map (fun entity => ResetFakerSeed entity seed) entities |}.

(** The state after a file has been written. *)
Definition written (path content : string) (st : State) : State :=
  {| memFs := <[path := content]> (memFs st); fakerSeeds := fakerSeeds st; trace := trace st |}.

(** The entities of the two shared registries, in the order they are
    reseeded. *)
Definition sharedEntities (this : Generator) : list EntityRef :=
  objectValues (configSharedEntities this) ++ objectValues (applicationSharedEntities this).


Definition isEditFile (e : Event) : bool :=
  match e with EditFile _ _ => true | _ => false end.

Definition isWarning (e : Event) : bool :=
  match e with LoggerWarn _ => true | _ => false end.

(** An error that is neither of the two raised by the validation of the
    request: their texts start with [O]. *)
Definition otherError (e : Error) : Prop :=
  match e with
  | AssertionError message => startsWith "O" message = false
  | _ => True
  end.

(** A computation that raises none of the two errors of the validation. *)
Definition raisesOther {A : Type} (m : M A) : Prop :=
  forall st st' e, m st = (st', Throw e) -> otherError e.

(** The callbacks that a [transform] entry contributes to the chain. *)
Definition tier (spec : TransformSpec) : list Transform :=
  match spec with
  | TransformArray l => l
  | _ => []
  end.

Definition fileTier (fileSpec : FileSpec) : list Transform :=
  match fileSpec with
  | FileObj o => tier (file_transform o)
  | FileName _ => []
  end.



(** The [condition] of a block is there and fails: [false], the empty
    string, or a function whose result is falsy. *)
Definition conditionFails (context : Context) (block : Block) : bool :=
  match block_condition block with
  | VBool b => negb b
  | VString s => negb (nonEmpty s)
  | VFunction f => negb (truthy (f context))
  | VUndefined | VOther _ _ => false
  end.




(** A computation that leaves the in-memory file system as it is, and one
    that writes to [target] at most. *)
Definition keepsFs {A : Type} (m : M A) : Prop :=
  forall st st' r, m st = (st', r) -> memFs st' = memFs st.

Definition writesOnly {A : Type} (target : string) (m : M A) : Prop :=
  forall st st' r p, m st = (st', r) -> p <> target -> memFs st' !! p = memFs st !! p.

Definition isRender (e : Event) : bool :=
  match e with RenderTemplate _ _ _ _ _ => true | _ => false end.

End WriteFiles.

(** ** A host to run the model on: [node:path] for POSIX, yeoman's paths *)

Module Node.
Import JsString WriteFiles.

Definition slash : ascii := "/".
Definition dot : ascii := ".".

(** The code units of a string with their index, last first: the order in
    which the loops of [extname] and [basename] visit them. *)
Fixpoint indexed (i : nat) (s : string) (acc : list (nat * ascii)) : list (nat * ascii) :=
  match s with
  | EmptyString => acc
  | String c t => indexed (S i) t ((i, c) :: acc)
  end.

Definition slice (from to : nat) (s : string) : string := take (to - from) (drop from s).

(** [path.posix.extname] *)
Record ExtnameState : Type := {
  startDot : option nat;
  startPart : nat;
  endPart : option nat;
  matchedSlash : bool;
  preDotState : Z;
  broke : bool
}.

Definition extnameStep (st : ExtnameState) (ic : nat * ascii) : ExtnameState :=
  let '(i, c) := ic in
  if broke st then st
  else if Ascii.eqb c slash then
    if negb (matchedSlash st)
    then {| startDot := startDot st; startPart := S i; endPart := endPart st;
            matchedSlash := matchedSlash st; preDotState := preDotState st; broke := true |}
    else st
  else
    let '(ms, en) := match endPart st with
                     | None => (false, Some (S i))
                     | Some e => (matchedSlash st, Some e)
                     end in
    if Ascii.eqb c dot then
      match startDot st with
      | None => {| startDot := Some i; startPart := startPart st; endPart := en;
                   matchedSlash := ms; preDotState := preDotState st; broke := false |}
      | Some _ => {| startDot := startDot st; startPart := startPart st; endPart := en;
                     matchedSlash := ms; preDotState := 1; broke := false |}
      end
    else
      match startDot st with
      | Some _ => {| startDot := startDot st; startPart := startPart st; endPart := en;
                     matchedSlash := ms; preDotState := (-1); broke := false |}
      | None => {| startDot := None; startPart := startPart st; endPart := en;
                   matchedSlash := ms; preDotState := preDotState st; broke := false |}
      end.

Definition extname (path : string) : string :=
  let st := fold_left extnameStep (indexed 0 path [])
              {| startDot := None; startPart := 0; endPart := None;
                 matchedSlash := true; preDotState := 0; broke := false |} in
  match startDot st, endPart st with
  | Some sd, Some en =>
      if (preDotState st =? 0)%Z
         || ((preDotState st =? 1)%Z && (sd =? en - 1)%nat && (sd =? startPart st + 1)%nat)
      then ""
      else slice sd en path
  | _, _ => ""
  end.

(** [path.posix.basename(path)] *)
Definition basenameStep (st : nat * option nat * bool * bool) (ic : nat * ascii)
  : nat * option nat * bool * bool :=
  let '(start, en, matched, stop) := st in
  let '(i, c) := ic in
  if stop : bool then st
  else if Ascii.eqb c slash then
    if negb matched then (S i, en, matched, true) else st
  else
    match en with
    | None => (start, Some (S i), false, false)
    | Some _ => st
    end.

Definition basename (path : string) : string :=
  let '(start, en, _, _) := fold_left basenameStep (indexed 0 path []) (0, None, true, false) in
  match en with
  | Some e => slice start e path
  | None => ""
  end.

(** [path.posix.normalize]: the segments between slashes, without the empty
    ones and [.], with [..] resolved where it can be. *)
Fixpoint splitSlash (s : string) (current : string) : list string :=
  match s with
  | EmptyString => [current]
  | String c t =>
      if Ascii.eqb c slash then current :: splitSlash t ""
      else splitSlash t (current ++ String c "")
  end.

Definition normalizeStep (allowAboveRoot : bool) (kept : list string) (segment : string)
  : list string :=
  if String.eqb segment "" || String.eqb segment "." then kept
  else if String.eqb segment ".." then
    match kept with
    | last :: before =>
        if String.eqb last ".." then segment :: kept else before
    | [] => if allowAboveRoot then [segment] else []
    end
  else segment :: kept.

Definition isAbsolute (path : string) : bool := startsWith "/" path.

Definition normalize (path : string) : string :=
  match path with
  | EmptyString => "."
  | _ =>
      let absolute := isAbsolute path in
      let trailing := endsWith "/" path in
      let body := JsString.join "/" (rev (fold_left (normalizeStep (negb absolute))
                                                    (splitSlash path "") [])) in
      match body with
      | EmptyString => if absolute then "/" else if trailing then "./" else "."
      | _ => (if absolute then "/" else "") ++ body ++ (if trailing then "/" else "")
      end
  end.

(** [path.posix.join] *)
Definition joinAll (parts : list string) : string :=
  match List.filter nonEmpty parts with
  | [] => "."
  | kept => normalize (JsString.join "/" kept)
  end.

(** yeoman's [templatePath] and [destinationPath]: the joined path, under
    the root when it is relative. *)
Definition under (root : string) (parts : list string) : string :=
  let filepath := joinAll parts in
  if isAbsolute filepath then filepath else joinAll [root; filepath].

(** [JSON.stringify(array, null, 2)] for an array of strings *)
Definition quote : string := String (ascii_of_N 34) "".
Definition backslash : string := String (ascii_of_N 92) "".
Definition lineFeed : string := String (ascii_of_N 10) "".

Definition hexDigit (n : N) : ascii :=
  ascii_of_N (if (n <? 10)%N then 48 + n else 87 + n).

Definition jsonChar (c : ascii) : string :=
  let n := code c in
  if (n =? 34)%N then backslash ++ quote
  else if (n =? 92)%N then backslash ++ backslash
  else if (n =? 8)%N then backslash ++ "b"
  else if (n =? 12)%N then backslash ++ "f"
  else if (n =? 10)%N then backslash ++ "n"
  else if (n =? 13)%N then backslash ++ "r"
  else if (n =? 9)%N then backslash ++ "t"
  else if (n <? 32)%N
       then backslash ++ "u00" ++ String (hexDigit (n / 16)) (String (hexDigit (n mod 16)) "")
  else String c "".

Fixpoint jsonString (s : string) : string :=
  match s with
  | EmptyString => EmptyString
  | String c t => jsonChar c ++ jsonString t
  end.

Definition stringify (l : list string) : string :=
  match l with
  | [] => "[]"
  | _ => "[" ++ lineFeed
         ++ JsString.join ("," ++ lineFeed)
              (List.map (fun s => "  " ++ quote ++ jsonString s ++ quote) l)
         ++ lineFeed ++ "]"
  end.

(** A generator whose templates lie under [sourceRoot] and whose project is
    written under [destinationRoot], with the given template files; [ejs] is
    given by its effect on the templates. *)
Definition host (sourceRoot destinationRoot : string) (files : list (string * string))
    (ejs : string -> Context -> string) : Host :=
  {| WriteFiles.extname := extname;
     WriteFiles.basename := basename;
     join := fun a b => joinAll [a; b];
     join1 := fun a => joinAll [a];
     WriteFiles.isAbsolute := isAbsolute;
     templatePath := fun root file => under sourceRoot [root; file];
     templatePath1 := fun file => under sourceRoot [file];
     destinationPath := fun to file => under destinationRoot [to; file];
     destinationPath1 := fun file => under destinationRoot [file];
     disk := list_to_map files;
     WriteFiles.ejs := ejs;
     WriteFiles.stringify := stringify;
     elapsed := "0" |}.

End Node.

(** ** Fixtures: a small generator with three template folders *)

Module Fixtures.
Import JsString WriteFiles.

Definition blueprintFolder : string := "/blueprint/templates".
Definition jhipsterFolder : string := "/jhipster/templates".
Definition extraFolder : string := "/extra/templates".

(** The template files on disk. *)
Definition files : list (string * string) :=
  [("/blueprint/templates/src/a.txt.ejs", "Hello from the blueprint");
   ("/jhipster/templates/src/a.txt.ejs", "Hello");
   ("/jhipster/templates/src/b.txt.ejs", "Bye");
   ("/blueprint/templates/src/c.txt.ejs", "c1");
   ("/jhipster/templates/src/c.txt.ejs", "c2");
   ("/extra/templates/src/c.txt.ejs", "c3");
   ("/jhipster/templates/src/logo.svg.ejs", "<svg/>");
   ("/jhipster/templates/src/logo.png", "PNG");
   ("/jhipster/templates/src/notes.txt", "plain")].

(** Templates here carry no tag, so [ejs] returns them as they are. *)
Definition host : Host :=
  Node.host "/generators/app/templates" "/project" files (fun template _ => template).

Definition plainContext : Context :=
  {| entityClass := None; baseName := Some "demo"; fakerSeed := None |}.


(** Entity 1 is in both registries, entities 0 and 2 in one each. *)
Definition generator : Generator :=
  {| self := plainContext;
     jhipsterTemplatesFolders := Some [blueprintFolder; jhipsterFolder; extraFolder];
     configSharedEntities := Some [("Customer", 0); ("Order", 1)];
     applicationSharedEntities := Some [("Order", 1); ("Invoice", 2)] |}.

Definition roots : list string := [blueprintFolder; jhipsterFolder; extraFolder].

Definition initial : State := {| memFs := ∅; fakerSeeds := ∅; trace := [] |}.

Definition task (source destination : string) : Template :=
  {| sourceFile := source; destinationFile := DestString destination; options := None;
     noEjs := None; transform := None; binary := false |}.

(** [{ file }] and the variations used below. *)
Definition fileObject (file : string) (override : Val) (noEjs : option bool)
    (fileTransform : TransformSpec) : FileObject :=
  {| file_sourceFile := VUndefined; file_file := VString file;
     file_destinationFile := VUndefined; file_renameTo := VUndefined;
     file_override := override; file_noEjs := noEjs; file_transform := fileTransform;
     file_binary := false; file_method := None; file_options := None |}.

(** [{ path, transform, templates }] *)
Definition blockAt (path : string) (blockTransform : TransformSpec) (files : list FileSpec)
  : Block :=
  {| block_blockSpecPath := None; block_path := VString path; block_from := VUndefined;
     block_to := VUndefined; block_condition := VUndefined;
     block_transform := blockTransform; block_renameTo := None;
     block_templates := Some files |}.

(** [{ blocks, transform }] *)
Definition request (methodTransform : list Transform) (bs : list Block) : Options :=
  {| sections := None; blocks := Some (Some bs); templates := None;
     rootTemplatesPath := RootTemplatesPathMissing; optionsContext := None;
     optionsTransform := Some methodTransform |}.

(** [{ sections: {}, templates: [] }] and [{}] *)
Definition twoKeys : Options :=
  {| sections := Some (Some []); blocks := None; templates := Some (Some []);
     rootTemplatesPath := RootTemplatesPathMissing; optionsContext := None;
     optionsTransform := None |}.

Definition noKey : Options :=
  {| sections := None; blocks := None; templates := None;
     rootTemplatesPath := RootTemplatesPathMissing; optionsContext := None;
     optionsTransform := None |}.

(** Three [editFile] callbacks that leave their mark. *)
Definition exclaim : Transform := fun content => content ++ "!".
Definition question : Transform := fun content => content ++ "?".
Definition semicolon : Transform := fun content => content ++ ";".

(** An SVG picture kept as a template and expanded on request
    ([noEjs: false]), under a method-level transform. *)
Definition svgRequest : Options :=
  request [exclaim] [blockAt "src" TransformMissing
                       [FileObj (fileObject "logo.svg" VUndefined (Some false) TransformMissing)]].

(** A text file under the four tiers of transforms. *)
Definition tiersRequest : Options :=
  {| sections := Some (Some [("_", SectionSettings (Some [question]));
                             ("files", SectionBlocks
                                [blockAt "src" (TransformArray [semicolon])
                                   [FileObj (fileObject "b.txt" VUndefined None
                                               (TransformArray [exclaim; question]))]])]);
     blocks := None; templates := None;
     rootTemplatesPath := RootTemplatesPathMissing; optionsContext := None;
     optionsTransform := Some [exclaim] |}.

(** The file of [tiersRequest] and the task planned for it. *)
Definition tiersFile : FileObject :=
  fileObject "b.txt" VUndefined None (TransformArray [exclaim; question]).

Definition tiersTask : Template :=
  {| sourceFile := "src/b.txt"; destinationFile := DestString "/project/src/b.txt";
     options := None; noEjs := None;
     transform := Some [exclaim; question; semicolon; exclaim; question];
     binary := false |}.

(** The state once [b.txt] has been expanded from the generator's template. *)
Definition tiersRendered : State :=
  written "/project/src/b.txt" "Bye"
    (addTrace initial [RenderTemplate Async "/jhipster/templates/src/b.txt.ejs"
                         "/project/src/b.txt" plainContext (RootsArray roots)]).

(** A project in which [src/b.txt] has already been generated. *)
Definition generated : State :=
  {| memFs := {[ "/project/src/b.txt" := "kept as it was" ]}; fakerSeeds := ∅; trace := [] |}.








End Fixtures.

(** ** [generator-base.mjs]: the names of the application *)

Module AppNames.
Import JsString Regex Lodash.

(** [getMicroserviceAppName(microserviceName)] *)
Definition getMicroserviceAppName (microserviceName : string) : string :=
  camelCase microserviceName ++ (if endsWith "App" microserviceName then "" else "App").

(** [new RegExp('^[A-Z][a-zA-Z0-9_]*$')]: the pattern starts with [^], so
    it is tried at the start of the text only. *)
Definition acceptableForJava : re :=
  Seq (Class is_upper_az) (Seq (Star (Class is_word)) EndOfInput).

(** [getMainClassName(baseName)] *)
Definition getMainClassName (baseName : string) : string :=
  let main := upperFirst (getMicroserviceAppName baseName) in
  match matchAt acceptableForJava (Pos None main) with
  | Some _ => main
  | None => "Application"
  end.

(** ASCII letters and digits. *)
Definition is_alnum (c : ascii) : bool := is_digit c || is_upper_az c || is_lower_az c.

(** The code units left by [deburr] and the removal of apostrophes: no
    apostrophe and no letter of the Latin-1 Supplement. *)
Definition notLatinLetter (c : ascii) : bool :=
  negb (in_range 192 214 c || in_range 216 246 c || in_range 248 255 c).
Definition plain (c : ascii) : bool := negb (isApos c) && notLatinLetter c.

Definition alnumOrSpace (c : ascii) : bool := is_alnum c || Ascii.eqb " " c.

End AppNames.

(** ** [writeFiles]: conditions, the [templates] form and what a run keeps *)

Module WriteFilesMore.
Import JsString WriteFiles.

(** A block with one file, under a condition. *)
Definition conditional (condition : Val) (file : string) : Block :=
  {| block_blockSpecPath := None; block_path := VString "src"; block_from := VUndefined;
     block_to := VUndefined; block_condition := condition;
     block_transform := TransformMissing; block_renameTo := None;
     block_templates := Some [FileName file] |}.

(** The request with another method-level [transform]. *)
Definition withTransform (o : Options) (methodTransform : option (list Transform)) : Options :=
  {| sections := sections o; blocks := blocks o; templates := templates o;
     rootTemplatesPath := rootTemplatesPath o; optionsContext := optionsContext o;
     optionsTransform := methodTransform |}.

(** [{ templates, rootTemplatesPath }] *)
Definition templatesRequest (rootTemplatesPath : RootTemplatesPath) (names : list string)
    (methodTransform : option (list Transform)) : Options :=
  {| sections := None; blocks := None;
     templates := Some (Some (List.map TemplateName names));
     rootTemplatesPath := rootTemplatesPath; optionsContext := None;
     optionsTransform := methodTransform |}.

End WriteFilesMore.

(** ** [generator-base.mjs]: [composeWithJHipster] *)

Module Compose.
Import JsString WriteFiles.

Section Compose.
(** The values held by the options; the code hands them over as they
    are. *)
Variable Value : Type.

(** An object is the map of its own enumerable properties. *)

(** The second argument of [composeWithJHipster]: an array of arguments,
    or, in its place, the options (an object, or nothing). *)
Inductive Args : Type :=
| ArgsArray (l : list Value)
| ArgsOptions (o : gmap string Value)
| ArgsMissing.

(** What the method reads of the generator and of its environment:
    [this.options], [this._destinationRoot], [this.configOptions],
    [this.env.get] by its truthiness, [existsSync], [__dirname] and
    [path.join] on two parts. *)
Record Env : Type := {
  thisOptions : gmap string Value;
  destinationRoot : Value;
  configOptions : Value;
  registered : string -> bool;
  fileExists : string -> bool;
  dirname : string;
  pathJoin : string -> string -> string
}.

(** The call made on [this.env.composeWith]. *)
Record ComposeWith : Type := {
  composedGenerator : string;
  composedArgs : list Value;
  composedOptions : gmap string Value;
  schedule : bool
}.

Definition indexFiles : list string :=
  ["/index.js"; "/index.cjs"; "/index.mjs"; "/index.ts"; "/index.cts"; "/index.mts"].

(** [{ ...this.options, destinationRoot, configOptions, ...options }]: a
    later property replaces an earlier one of the same name. *)
Definition composeOptions (env : Env) (options : option (gmap string Value)) : gmap string Value :=
  default ∅ options
  ∪ <["configOptions" := configOptions env]>
      (<["destinationRoot" := destinationRoot env]> (thisOptions env)).

(** [`../${generator}${extension}`] joined to [__dirname] *)
Definition pathToLook (env : Env) (generator extension : string) : string :=
  pathJoin env (dirname env) ("../" ++ generator ++ extension).

(** The callback of [find]: [existsSync(pathToLook) ? pathToLook : undefined],
    by its truthiness. *)
Definition indexFileFound (env : Env) (generator extension : string) : bool :=
  if fileExists env (pathToLook env generator extension)
  then nonEmpty (pathToLook env generator extension) else false.

(** [generator.includes(':') ? generator : `jhipster:${generator}`] *)
Definition namespaceOf (generator : string) : string :=
  if includes ":" generator then generator else "jhipster:" ++ generator.

(** [composeWithJHipster(generator, args, options, { immediately })]:
    [generator] is [None] when it is not a string; the result is the call
    made on the environment, whose own result the method returns. *)
Definition composeWithJHipster (env : Env) (generator : option string) (args : Args)
    (options : option (gmap string Value)) (immediately : bool) : Result ComposeWith :=
  match generator with
  | None => Throw (AssertionError "generator should to be a string")
  | Some generator =>
      let namespace := namespaceOf generator in
      let '(args, options) :=
        match args with
        | ArgsArray l => (l, options)
        | ArgsOptions o => ([], Some o)
        | ArgsMissing => ([], None)
        end in
      rbind
        (if registered env namespace then Ok namespace
         else
           match List.find (indexFileFound env generator) indexFiles with
           | None => Throw (JsError ("Generator " ++ generator ++ " was not found"))
           | Some found => Ok (pathToLook env generator found)
           end)
        (fun generator =>
           Ok {| composedGenerator := generator;
                 composedArgs := args;
                 composedOptions := composeOptions env options;
                 schedule := negb immediately |})
  end.

(** [dependsOnJHipster(generator, args, options)] *)
Definition dependsOnJHipster (env : Env) (generator : option string) (args : Args)
    (options : option (gmap string Value)) : Result ComposeWith :=
  composeWithJHipster env generator args options true.

(** The options that count: the second argument when it is not an array,
    else the third. *)
Definition givenOptions (args : Args) (options : option (gmap string Value)) : gmap string Value :=
  match args with
  | ArgsArray _ => default ∅ options
  | ArgsOptions o => o
  | ArgsMissing => ∅
  end.

End Compose.

Arguments ArgsArray {Value} l.
Arguments ArgsOptions {Value} o.
Arguments ArgsMissing {Value}.
Arguments thisOptions {Value} e.
Arguments destinationRoot {Value} e.
Arguments configOptions {Value} e.
Arguments registered {Value} e.
Arguments fileExists {Value} e.
Arguments dirname {Value} e.
Arguments pathJoin {Value} e.
Arguments composedGenerator {Value} c.
Arguments composedArgs {Value} c.
Arguments composedOptions {Value} c.
Arguments schedule {Value} c.
Arguments composeOptions {Value} env options.
Arguments pathToLook {Value} env generator extension.
Arguments indexFileFound {Value} env generator extension.
Arguments composeWithJHipster {Value} env generator args options immediately.
Arguments dependsOnJHipster {Value} env generator args options.
Arguments givenOptions {Value} args options.

(** An environment in which [jhipster:app] is registered and the generator
    [server] has an [index.mjs] and an [index.ts]. *)
Definition sampleEnv : Env string :=
  {| thisOptions := {[ "destinationRoot" := "/elsewhere"; "skipInstall" := "true" ]};
     destinationRoot := "/project";
     configOptions := "shared";
     registered := String.eqb "jhipster:app";
     fileExists := fun p => String.eqb p "/generators/server/index.mjs"
                            || String.eqb p "/generators/server/index.ts";
     dirname := "/generators/base";
     pathJoin := fun a b => Node.joinAll [a; b] |}.

End Compose.

(** ** [generator-base.mjs]: the names of tables and constraints *)

Module DbNames.
Import JsString WriteFiles.

(** An entry of [databaseData]: the fields that the naming methods read. *)
Record DatabaseData : Type := {
  dbName : option string;
  tableNameMaxLength : option nat;
  constraintNameMaxLength : option nat
}.

(** The options handed to [calculateDbNameWithLimit]. *)
Record LimitOptions : Type := {
  limitPrefix : string;
  limitSeparator : string;
  limitNoSnakeCase : option bool
}.

(** A value in a template literal. *)
Definition shownString (o : option string) : string := default "undefined" o.

Definition quote : string := String (ascii_of_N 34) "".

Section DbNames.
(** [hibernateSnakeCase], [databaseData] and [calculateDbNameWithLimit]
    belong to the [server] and [sql] support modules. *)
Variable hibernateSnakeCase : string -> string.
Variable databaseData : string -> option DatabaseData.
Variable calculateDbNameWithLimit : string -> string -> Z -> LimitOptions -> string.
(** [this.skipCheckLengthOfIdentifier], by its truthiness *)
Variable skipCheckLengthOfIdentifier : bool.

(** [getTableName(value)] and [getColumnName(value)] *)
Definition getTableName (value : string) : string := hibernateSnakeCase value.
Definition getColumnName (value : string) : string := hibernateSnakeCase value.

(** [const { name, tableNameMaxLength } = databaseData[prodDatabaseType] || {}] *)
Definition dataOf (prodDatabaseType : string) : DatabaseData :=
  default {| dbName := None; tableNameMaxLength := None; constraintNameMaxLength := None |}
          (databaseData prodDatabaseType).

(** [limit && name.length > limit && !this.skipCheckLengthOfIdentifier]:
    the limit that the name exceeds, if any. *)
Definition exceeded (limit : option nat) (name : string) : option nat :=
  match limit with
  | Some max =>
      if negb (max =? 0)%nat && (max <? String.length name)%nat
         && negb skipCheckLengthOfIdentifier
      then Some max else None
  | None => None
  end.

(** [getJoinTableName(entityName, relationshipName, prodDatabaseType)]:
    the warnings logged and the name. *)
Definition getJoinTableName (entityName relationshipName prodDatabaseType : string)
  : list string * string :=
  let separator := "__" in
  let prefix := "rel_" in
  let joinTableName :=
    prefix ++ getTableName entityName ++ separator ++ getTableName relationshipName in
  let data := dataOf prodDatabaseType in
  match exceeded (tableNameMaxLength data) joinTableName with
  | Some max =>
      (["The generated join table " ++ quote ++ joinTableName ++ quote ++ " is too long for "
        ++ shownString (dbName data) ++ " (which has a " ++ showNat max
        ++ " character limit). It will be truncated!"],
       calculateDbNameWithLimit entityName relationshipName (Z.of_nat max)
         {| limitPrefix := prefix; limitSeparator := separator; limitNoSnakeCase := None |})
  | None => ([], joinTableName)
  end.

(** [getConstraintName(entityName, columnOrRelationName, prodDatabaseType,
    noSnakeCase, prefix = '', suffix = '')]; [noSnakeCase] is a boolean
    or [undefined]. *)
Definition getConstraintName (entityName columnOrRelationName prodDatabaseType : string)
    (noSnakeCase : option bool) (prefix suffix : string) : list string * string :=
  let separator := "__" in
  let constraintName :=
    if default false noSnakeCase
    then prefix ++ entityName ++ separator ++ columnOrRelationName ++ suffix
    else prefix ++ getTableName entityName ++ separator
         ++ getTableName columnOrRelationName ++ suffix in
  let data := dataOf prodDatabaseType in
  match exceeded (constraintNameMaxLength data) constraintName with
  | Some max =>
      (["The generated constraint name " ++ quote ++ constraintName ++ quote
        ++ " is too long for " ++ shownString (dbName data) ++ " (which has a "
        ++ showNat max ++ " character limit). It will be truncated!"],
       calculateDbNameWithLimit entityName columnOrRelationName
         (Z.of_nat max - Z.of_nat (String.length suffix))
         {| limitPrefix := prefix; limitSeparator := separator;
            limitNoSnakeCase := noSnakeCase |}
       ++ suffix)
  | None => ([], constraintName)
  end.

(** [getFKConstraintName] and [getUXConstraintName] *)
Definition getFKConstraintName (entityName relationshipName prodDatabaseType : string)
    (noSnakeCase : option bool) : list string * string :=
  getConstraintName entityName relationshipName prodDatabaseType noSnakeCase "fk_" "_id".

Definition getUXConstraintName (entityName columnName prodDatabaseType : string)
    (noSnakeCase : option bool) : list string * string :=
  getConstraintName entityName columnName prodDatabaseType noSnakeCase "ux_" "".

(** The constraint name before any truncation. *)
Definition fullConstraintName (entityName columnOrRelationName : string)
    (noSnakeCase : option bool) (prefix suffix : string) : string :=
  if default false noSnakeCase
  then prefix ++ entityName ++ "__" ++ columnOrRelationName ++ suffix
  else prefix ++ getTableName entityName ++ "__" ++ getTableName columnOrRelationName ++ suffix.

End DbNames.

(** A database with short names, and naming functions to go with it:
    upper case for [hibernateSnakeCase], the first letters for
    [calculateDbNameWithLimit]. *)
Definition tinyDatabase (prodDatabaseType : string) : option DatabaseData :=
  if String.eqb prodDatabaseType "tiny"
  then Some {| dbName := Some "Tiny"; tableNameMaxLength := Some 12;
               constraintNameMaxLength := Some 12 |}
  else None.

Definition shorten (entityName relationshipName : string) (limit : Z) (o : LimitOptions)
  : string :=
  limitPrefix o ++ take 2 entityName ++ limitSeparator o ++ take 2 relationshipName.

End DbNames.

(** ** [generator-base.mjs]: options as JavaScript values, [parseCommonRuntimeOptions] *)

Module Js.
Import JsString.

(** The values of the options and of the configuration: primitives and
    arrays.  A number is an integer here. *)
#[warnings="-register-all"] Inductive Value : Type :=
| Undefined
| Null
| Bool (b : bool)
| Number (n : Z)
| Str (s : string)
| Array (l : list Value).

Definition truthy (v : Value) : bool :=
  match v with
  | Undefined | Null => false
  | Bool b => b
  | Number n => negb (n =? 0)%Z
  | Str s => nonEmpty s
  | Array _ => true
  end.

(** [v !== undefined] *)
Definition defined (v : Value) : bool :=
  match v with Undefined => false | _ => true end.

(** [a || b] *)
Definition orElse (a b : Value) : Value := if truthy a then a else b.

(** [`${v}`] *)
Fixpoint show (v : Value) : string :=
  match v with
  | Undefined => "undefined"
  | Null => "null"
  | Bool true => "true"
  | Bool false => "false"
  | Number n => NilZero.string_of_int (Z.to_int n)
  | Str s => s
  | Array l =>
      join "," (List.map (fun x => match x with
                                   | Undefined | Null => ""
                                   | _ => show x
                                   end) l)
  end.

(** An object, by its properties; a property that is not there reads as
    [undefined]. *)
Definition Obj : Type := gmap string Value.

Definition get (o : gmap string Value) (key : string) : Value := default Undefined (o !! key).

End Js.

Module RuntimeOptions.
Import JsString Js.
Import WriteFiles (Result, Ok, Throw, Error, JsError).

(** [if (options[from] !== undefined) dest[to] = options[from]] *)
Definition copyDefined (options : gmap string Value) (from to : string)
    (dest : gmap string Value) : gmap string Value :=
  if defined (get options from) then <[to := get options from]> dest else dest.

(** [parseCommonRuntimeOptions(options, dest)]: the warnings logged and
    [dest] afterwards, then how the call ends.  [parseCreationTimestamp]
    belongs to the support module; it returns the time stamp, or
    [undefined] for a text that is no date, and throws on a time stamp in
    the future: what was copied before stays in [dest]. *)
Definition parseCommonRuntimeOptions (parseCreationTimestamp : Value -> Result Value)
    (options dest : gmap string Value) : (list string * gmap string Value) * Result unit :=
  let dest := copyDefined options "withEntities" "withEntities" dest in
  let dest := copyDefined options "skipChecks" "skipChecks" dest in
  let dest := copyDefined options "debug" "isDebugEnabled" dest in
  let dest := copyDefined options "experimental" "experimental" dest in
  let dest := copyDefined options "skipPrompts" "skipPrompts" dest in
  let dest := copyDefined options "skipClient" "skipClient" dest in
  let ending (warnings : list string) (dest : gmap string Value) :=
    ((warnings, copyDefined options "reproducible" "reproducible" dest), Ok tt) in
  if negb (defined (get dest "creationTimestamp")) && truthy (get options "creationTimestamp")
  then
    match parseCreationTimestamp (get options "creationTimestamp") with
    | Throw e => (([], dest), Throw e)
    | Ok creationTimestamp =>
        if truthy creationTimestamp
        then ending [] (<["creationTimestamp" := creationTimestamp]> dest)
        else ending ["Error parsing creationTimestamp "
                     ++ show (get options "creationTimestamp") ++ "."] dest
    end
  else ending [] dest.

(** The time stamp is asked for, and [parseCreationTimestamp] throws on
    it. *)
Definition timestampAsked (options dest : gmap string Value) : bool :=
  negb (defined (get dest "creationTimestamp")) && truthy (get options "creationTimestamp").

Definition timestampThrown (parseCreationTimestamp : Value -> Result Value)
    (options dest : gmap string Value) : bool :=
  timestampAsked options dest
  && match parseCreationTimestamp (get options "creationTimestamp") with
     | Throw _ => true
     | Ok _ => false
     end.

(** [dest] after the call, whether it returned or threw. *)
Definition destAfter {A : Type} (outcome : (list string * gmap string Value) * A)
  : gmap string Value := snd (fst outcome).

(** The option that a key of [dest] is copied from. *)
Definition copiedFrom (key : string) : option string :=
  if String.eqb key "isDebugEnabled" then Some "debug"
  else if existsb (String.eqb key)
            ["withEntities"; "skipChecks"; "experimental"; "skipPrompts"; "skipClient";
             "reproducible"]
       then Some key
       else None.

(** A parser for the examples: digits only, and no year after 2999. *)
Definition digitsOnly (v : Value) : Result Value :=
  match v with
  | Str s =>
      if nonEmpty s && all is_digit s
      then if startsWith "2" s then Ok (Number 1)
           else Throw (JsError ("Creation timestamp should not be in the future: " ++ s ++ "."))
      else Ok Undefined
  | _ => Ok Undefined
  end.

End RuntimeOptions.

(** ** [generator-base.mjs]: [loadStoredAppOptions] *)

Module StoredOptions.
Import JsString Js.
Import WriteFiles (Result, Ok, Throw, Error, JsError, TypeError, AssertionError).

(** What [loadStoredAppOptions] reads and writes: [this.jhipsterConfig],
    [this.configOptions], [this.options], the fields of [this], the
    object given as [options] when that is not [this.options], and the
    warnings logged. *)
Record State : Type := {
  jhipsterConfig : gmap string Value;
  configOptions : gmap string Value;
  thisOptions : gmap string Value;
  thisFields : gmap string Value;
  given : option (gmap string Value);
  warnings : list string
}.

(** [getDBTypeFromDBValue], [detectLanguage] and [parseCreationTimestamp]
    belong to the support modules.  [parseCreationTimestamp] returns the
    time stamp, or [undefined] for a text that is no date, and throws on a
    time stamp in the future. *)
Record Support : Type := {
  getDBTypeFromDBValue : Value -> Value;
  detectLanguage : Value;
  parseCreationTimestamp : Value -> Result Value
}.

Definition Step : Type := State -> State * Result unit.

Definition skip : Step := fun st => (st, Ok tt).
Definition throw (e : Error) : Step := fun st => (st, Throw e).
Definition andThen (a b : Step) : Step :=
  fun st =>
    match a st with
    | (st', Ok _) => b st'
    | (st', Throw e) => (st', Throw e)
    end.
Infix ">>" := andThen (at level 61, left associativity).

(** [options.key] and [this.options.key] *)
Definition optionsOf (st : State) : gmap string Value := default (thisOptions st) (given st).
Definition option_ (st : State) (key : string) : Value := get (optionsOf st) key.
Definition thisOption (st : State) (key : string) : Value := get (thisOptions st) key.

(** [this.jhipsterConfig.key = v] *)
Definition setConfig (key : string) (v : Value) : Step :=
  fun st => ({| jhipsterConfig := <[key := v]> (jhipsterConfig st);
                configOptions := configOptions st; thisOptions := thisOptions st;
                thisFields := thisFields st; given := given st; warnings := warnings st |},
             Ok tt).

(** [this.configOptions.key = v] *)
Definition setConfigOption (key : string) (v : Value) : Step :=
  fun st => ({| jhipsterConfig := jhipsterConfig st;
                configOptions := <[key := v]> (configOptions st);
                thisOptions := thisOptions st;
                thisFields := thisFields st; given := given st; warnings := warnings st |},
             Ok tt).

(** [this.key = v] *)
Definition setThis (key : string) (v : Value) : Step :=
  fun st => ({| jhipsterConfig := jhipsterConfig st; configOptions := configOptions st;
                thisOptions := thisOptions st;
                thisFields := <[key := v]> (thisFields st);
                given := given st; warnings := warnings st |},
             Ok tt).

(** [options.key = v], on [this.options] when that is the object given *)
Definition setOption (key : string) (v : Value) : Step :=
  fun st =>
    (match given st with
     | Some o =>
         {| jhipsterConfig := jhipsterConfig st; configOptions := configOptions st;
            thisOptions := thisOptions st; thisFields := thisFields st;
            given := Some (<[key := v]> o); warnings := warnings st |}
     | None =>
         {| jhipsterConfig := jhipsterConfig st; configOptions := configOptions st;
            thisOptions := <[key := v]> (thisOptions st); thisFields := thisFields st;
            given := None; warnings := warnings st |}
     end, Ok tt).

(** [this.logger.warn(message)] *)
Definition warn (message : string) : Step :=
  fun st => ({| jhipsterConfig := jhipsterConfig st; configOptions := configOptions st;
                thisOptions := thisOptions st; thisFields := thisFields st;
                given := given st; warnings := (warnings st ++ [message])%list |},
             Ok tt).

(** A step that depends on the state it starts in. *)
Definition reading (body : State -> Step) : Step := fun st => body st st.

(** [if (options.key !== undefined) ...] and [if (options.key) ...] *)
Definition whenDefined (key : string) (body : Value -> Step) : Step :=
  reading (fun st => if defined (option_ st key) then body (option_ st key) else skip).
Definition whenTruthy (key : string) (body : Value -> Step) : Step :=
  reading (fun st => if truthy (option_ st key) then body (option_ st key) else skip).

(** The three shapes that most of the statements have. *)
Definition copyDefined (key : string) : Step := whenDefined key (setConfig key).
Definition copyTruthy (key to : string) : Step := whenTruthy key (setConfig to).
Definition flagTruthy (key : string) : Step := whenTruthy key (fun _ => setConfig key (Bool true)).

(** [...v] in an array literal: the elements of an array, the code units
    of a string; anything else is not iterable. *)
Fixpoint codeUnits (s : string) : list Value :=
  match s with
  | EmptyString => []
  | String c t => Str (String c "") :: codeUnits t
  end.

Definition spread (v : Value) : Result (list Value) :=
  match v with
  | Array l => Ok l
  | Str s => Ok (codeUnits s)
  | _ => Throw (TypeError "object is not iterable")
  end.

(** The equality of [Set]; two arrays are two objects. *)
Definition sameValueZero (a b : Value) : bool :=
  match a, b with
  | Undefined, Undefined | Null, Null => true
  | Bool x, Bool y => Bool.eqb x y
  | Number x, Number y => (x =? y)%Z
  | Str x, Str y => String.eqb x y
  | _, _ => false
  end.

(** [[...new Set(l)]]: the first occurrence of each value, in order. *)
Definition unique (l : list Value) : list Value :=
  fold_left (fun kept x => if existsb (sameValueZero x) kept then kept else (kept ++ [x])%list) l [].

(** [array.flat()] *)
Definition flat (l : list Value) : list Value :=
  List.concat (List.map (fun x => match x with Array xs => xs | _ => [x] end) l).

Section Load.
Variable support : Support.

(** [if (options.db) { ... }] *)
Definition loadDb : Step :=
  whenTruthy "db" (fun db =>
    reading (fun st =>
      let databaseType := getDBTypeFromDBValue support (thisOption st "db") in
      (if truthy databaseType then setConfig "databaseType" databaseType
       else if negb (truthy (get (jhipsterConfig st) "databaseType"))
            then throw (JsError ("Could not detect databaseType for database "
                                 ++ show (thisOption st "db")))
            else skip)
      >> setConfig "devDatabaseType" db
      >> setConfig "prodDatabaseType" db)).

(** [if (options.testFrameworks) { ... }] *)
Definition loadTestFrameworks : Step :=
  whenTruthy "testFrameworks" (fun testFrameworks =>
    reading (fun st =>
      match spread (orElse (get (jhipsterConfig st) "testFrameworks") (Array [])) with
      | Throw e => throw e
      | Ok stored =>
          match spread testFrameworks with
          | Throw e => throw e
          | Ok added => setConfig "testFrameworks" (Array (unique (stored ++ added)%list))
          end
      end)).

(** [if (options.language) { ... }] *)
Definition loadLanguage : Step :=
  whenTruthy "language" (fun language =>
    match language with
    | Array l =>
        let languages := flat l in
        match languages with
        | [Str "false"] => setConfig "enableTranslation" (Bool false)
        | _ =>
            reading (fun st =>
              match spread (orElse (get (jhipsterConfig st) "languages") (Array [])) with
              | Throw e => throw e
              | Ok stored => setConfig "languages" (Array (stored ++ languages)%list)
              end)
        end
    | _ => throw (TypeError "options.language.flat is not a function")
    end).

(** [if (options.nativeLanguage) { ... }] *)
Definition loadNativeLanguage : Step :=
  whenTruthy "nativeLanguage" (fun nativeLanguage =>
    match nativeLanguage with
    | Str _ =>
        setConfig "nativeLanguage" nativeLanguage
        >> reading (fun st =>
             if negb (truthy (get (jhipsterConfig st) "languages"))
             then setConfig "languages" (Array [nativeLanguage]) else skip)
    | Bool true => setConfig "nativeLanguage" (detectLanguage support)
    | _ => skip
    end).

(** [if (options.creationTimestamp) { ... }] *)
Definition loadCreationTimestamp : Step :=
  whenTruthy "creationTimestamp" (fun given =>
    match parseCreationTimestamp support given with
    | Throw e => throw e
    | Ok creationTimestamp =>
        if truthy creationTimestamp
        then setConfigOption "creationTimestamp" creationTimestamp
             >> reading (fun st =>
                  if defined (get (jhipsterConfig st) "creationTimestamp") then skip
                  else setConfig "creationTimestamp" creationTimestamp)
        else warn ("Error parsing creationTimestamp " ++ show given ++ ".")
    end).

(** [if (this.jhipsterConfig.clientPackageManager) { ... }] *)
Definition checkPackageManager : Step :=
  reading (fun st =>
    let clientPackageManager := get (jhipsterConfig st) "clientPackageManager" in
    if truthy clientPackageManager
    then match clientPackageManager with
         | Str "npm" => skip
         | _ =>
             warn ("Using unsupported package manager: " ++ show clientPackageManager
                   ++ ". Install will not be executed.")
             >> setOption "skipInstall" (Bool true)
         end
    else skip).

(** The statements after [this.configOptions.optionsParsed = true]. *)
Definition loadOptions : Step :=
  copyDefined "withGeneratedFlag"
  >> copyDefined "skipJhipsterDependencies"
  >> copyDefined "incrementalChangelog"
  >> whenTruthy "recreateInitialChangelog" (setConfigOption "recreateInitialChangelog")
  >> copyDefined "withAdminUi"
  >> whenTruthy "skipClient" (fun _ =>
       setConfig "skipClient" (Bool true) >> setThis "skipClient" (Bool true))
  >> copyTruthy "applicationType" "applicationType"
  >> whenTruthy "skipServer" (fun _ =>
       setConfig "skipServer" (Bool true) >> setThis "skipServer" (Bool true))
  >> flagTruthy "skipFakeData"
  >> flagTruthy "skipUserManagement"
  >> flagTruthy "skipCheckLengthOfIdentifier"
  >> flagTruthy "skipCommitHook"
  >> copyDefined "monorepository"
  >> whenTruthy "baseName" (fun _ =>
       reading (fun st => setConfig "baseName" (thisOption st "baseName")))
  >> loadDb
  >> copyTruthy "auth" "authenticationType"
  >> copyTruthy "searchEngine" "searchEngine"
  >> copyTruthy "build" "buildTool"
  >> copyTruthy "websocket" "websocket"
  >> copyDefined "jhiPrefix"
  >> copyDefined "entitySuffix"
  >> copyDefined "dtoSuffix"
  >> copyTruthy "clientFramework" "clientFramework"
  >> loadTestFrameworks
  >> copyDefined "cypressCoverage"
  >> copyDefined "cypressAudit"
  >> copyDefined "enableTranslation"
  >> copyDefined "autoCrlf"
  >> loadLanguage
  >> loadNativeLanguage
  >> loadCreationTimestamp
  >> copyTruthy "pkType" "pkType"
  >> copyDefined "cacheProvider"
  >> copyDefined "enableHibernateCache"
  >> copyTruthy "microfrontend" "microfrontend"
  >> copyDefined "reactive"
  >> copyDefined "enableSwaggerCodegen"
  >> copyTruthy "clientPackageManager" "clientPackageManager"
  >> checkPackageManager.

(** [loadStoredAppOptions(options)] *)
Definition loadStoredAppOptions : Step :=
  reading (fun st =>
    if truthy (get (configOptions st) "optionsParsed") then skip
    else setConfigOption "optionsParsed" (Bool true) >> loadOptions).

End Load.

(** The same state with another object given as [options]. *)
Definition withGiven (o : option (gmap string Value)) (st : State) : State :=
  {| jhipsterConfig := jhipsterConfig st; configOptions := configOptions st;
     thisOptions := thisOptions st; thisFields := thisFields st;
     given := o; warnings := warnings st |}.

(** The options have been parsed. *)
Definition parsed (st : State) : Prop :=
  truthy (get (configOptions st) "optionsParsed") = true.

(** A step started where [P] holds ends where [Q] holds, or throws an
    error [e] in a state where [E] holds. *)
Definition triple (P : State -> Prop) (s : Step) (Q : State -> Prop)
    (E : State -> Error -> Prop) : Prop :=
  forall st, P st ->
    match s st with
    | (st', Ok _) => Q st'
    | (st', Throw e) => E st' e
    end.

(** No step throws. *)
Definition never : State -> Error -> Prop := fun _ _ => False.

(** [parseCreationTimestamp] returns on the [creationTimestamp] given, if
    one is given. *)
Definition timestampParses (support : Support) (st : State) : Prop :=
  truthy (option_ st "creationTimestamp") = true ->
  exists creationTimestamp,
    parseCreationTimestamp support (option_ st "creationTimestamp") = Ok creationTimestamp.

(** Neither [--db], [--test-frameworks] nor [--language] is given, and the
    time stamp parses. *)
Definition plain (support : Support) (st : State) : Prop :=
  truthy (option_ st "db") = false
  /\ truthy (option_ st "testFrameworks") = false
  /\ truthy (option_ st "language") = false
  /\ timestampParses support st.

(** No option is given, [skipInstall] apart, and the stored
    configuration is [config]. *)
Definition untouched (config : gmap string Value) (st : State) : Prop :=
  (forall key, key <> "skipInstall" -> option_ st key = Undefined)
  /\ jhipsterConfig st = config.

(** [--db] is given, and neither the support module nor the stored
    configuration knows its database type. *)
Definition unknownDb (support : Support) (db dev prod : Value) (st : State) : Prop :=
  truthy (option_ st "db") = true
  /\ thisOption st "db" = db
  /\ truthy (getDBTypeFromDBValue support db) = false
  /\ truthy (get (jhipsterConfig st) "databaseType") = false
  /\ get (jhipsterConfig st) "devDatabaseType" = dev
  /\ get (jhipsterConfig st) "prodDatabaseType" = prod.

(** [--test-frameworks] is given and will be added to the stored ones,
    [--db] and [--language] are not given, and [timestamp] is the
    [creationTimestamp] given. *)
Definition adding (stored added timestamp : Value) (st : State) : Prop :=
  truthy (option_ st "db") = false
  /\ truthy (option_ st "language") = false
  /\ option_ st "creationTimestamp" = timestamp
  /\ option_ st "testFrameworks" = added
  /\ get (jhipsterConfig st) "testFrameworks" = stored.
Definition added (merged timestamp : Value) (st : State) : Prop :=
  truthy (option_ st "db") = false
  /\ truthy (option_ st "language") = false
  /\ option_ st "creationTimestamp" = timestamp
  /\ get (jhipsterConfig st) "testFrameworks" = merged.

(** The error of [parseCreationTimestamp] on a time stamp given, with the
    test frameworks stored. *)
Definition timestampRefused (support : Support) (merged timestamp : Value)
  : State -> Error -> Prop :=
  fun st e =>
    added merged timestamp st
    /\ truthy timestamp = true
    /\ parseCreationTimestamp support timestamp = Throw e.

(** A support module that knows one database, and for which the time
    stamps after 2000000000000 are in the future. *)
Definition sampleSupport : Support :=
  {| getDBTypeFromDBValue := fun v => match v with Str "postgresql" => Str "sql" | _ => Undefined end;
     detectLanguage := Str "en";
     parseCreationTimestamp := fun v =>
       match v with
       | Number n =>
           if (2000000000000 <? n)%Z
           then Throw (JsError ("Creation timestamp should not be in the future: "
                                ++ show v ++ "."))
           else Ok v
       | _ => Ok Undefined
       end |}.

Definition sampleState (options : gmap string Value) : State :=
  {| jhipsterConfig := {[ "testFrameworks" := Array [Str "cypress"] ]};
     configOptions := ∅; thisOptions := options; thisFields := ∅;
     given := None; warnings := [] |}.

End StoredOptions.

(** * Properties *)

(** ** Strings *)

Module StringFacts.
Import JsString.
#[local] Arguments String.append !_ _ / : simpl nomatch.

Lemma append_assoc (a b c : string) : (a ++ b) ++ c = a ++ b ++ c.
Proof. induction a as [|x a IH]; simpl; [done|]. by rewrite IH. Qed.

Lemma append_nil_r (a : string) : a ++ "" = a.
Proof. induction a as [|x a IH]; simpl; [done|]. by rewrite IH. Qed.

Lemma length_append (a b : string) :
  String.length (a ++ b) = String.length a + String.length b.
Proof. induction a as [|x a IH]; simpl; [done|]. by rewrite IH. Qed.

Lemma take_append (a b : string) : take (String.length a) (a ++ b) = a.
Proof. induction a as [|x a IH]; simpl; [by destruct b|]. by rewrite IH. Qed.

Lemma drop_append (a b : string) : drop (String.length a) (a ++ b) = b.
Proof. induction a as [|x a IH]; simpl; [done|]. by rewrite IH. Qed.

Lemma take_suffix (a b : string) :
  take (String.length (a ++ b) - String.length b) (a ++ b) = a.
Proof.
  rewrite length_append. replace (_ + _ - _) with (String.length a) by lia.
  apply take_append.
Qed.

Lemma append_inv_head (a b c : string) : a ++ b = a ++ c -> b = c.
Proof. induction a as [|x a IH]; simpl; [done|]. intros [= H]. auto. Qed.

Lemma append_eq_nil (a b : string) : a ++ b = "" -> a = "" /\ b = "".
Proof. destruct a; simpl; [done|discriminate]. Qed.

Lemma append_inv_tail (a b c : string) : a ++ c = b ++ c -> a = b.
Proof.
  revert b. induction a as [|x a IH]; intros [|y b]; simpl; [done| | |].
  - intros H. apply (f_equal String.length) in H. simpl in H.
    rewrite length_append in H. lia.
  - intros H. apply (f_equal String.length) in H. simpl in H.
    rewrite length_append in H. lia.
  - intros [= -> H]. f_equal. auto.
Qed.

Lemma replaceFirst_absent p r s : includes p s = false -> replaceFirst p r s = s.
Proof.
  induction s as [|c s IH]; simpl.
  - by destruct (startsWith p "").
  - destruct (startsWith p (String c s)); [done|]. simpl. intros H. by rewrite IH.
Qed.

End StringFacts.

(** ** The matcher *)

Module RegexFacts.
Import JsString Regex StringFacts.
#[local] Arguments String.append !_ _ / : simpl nomatch.

Lemma all_append p a b : all p (a ++ b) = all p a && all p b.
Proof. induction a as [|c a IH]; simpl; [done|]. by rewrite IH, andb_assoc. Qed.

Lemma all_impl (p q : ascii -> bool) s :
  (forall c, p c = true -> q c = true) -> all p s = true -> all q s = true.
Proof.
  intros Hpq. induction s as [|c s IH]; simpl; [done|].
  intros H. apply andb_prop in H as [Hc Hs]. by rewrite (Hpq _ Hc), IH.
Qed.

(** [y] is reached from [x] by consuming [m]. *)
Definition reaches (x y : pos) (m : string) : Prop := after x = m ++ after y.

Lemma starLoop_sound {A : Type} (step : pos -> (pos -> option A) -> option A)
    (k : pos -> option A) (q : ascii -> bool) :
  (forall x (k' : pos -> option A) v, step x k' = Some v ->
     exists y m, k' y = Some v /\ after x = m ++ after y /\ all q m = true) ->
  forall fuel x v, starLoop step k fuel x = Some v ->
    exists y m, k y = Some v /\ after x = m ++ after y /\ all q m = true.
Proof.
  intros Hstep. induction fuel as [|fuel IH]; intros x v; simpl.
  - intros H. exists x, "". split; [exact H|]. split; reflexivity.
  - destruct (step x _) as [w|] eqn:E.
    + intros [= ->]. apply Hstep in E as (y & m & Hk & Hm & Hq).
      destruct (String.length (after y) <? String.length (after x))%nat; [|discriminate].
      apply IH in Hk as (z & m' & Hz & Hm' & Hq').
      exists z, (m ++ m'). split; [done|].
      split; [by rewrite Hm, Hm', append_assoc|by rewrite all_append, Hq, Hq'].
    + intros H. exists x, "". split; [exact H|]. split; reflexivity.
Qed.

(** Whatever a match hands to its continuation lies further in the text;
    what was consumed is made of code units of the alphabet, and is not
    empty for a regular expression that consumes. *)
Lemma run_sound {A : Type} (r : re) : forall x (k : pos -> option A) v,
  run r x k = Some v ->
  exists y m, k y = Some v /\ after x = m ++ after y
              /\ all (alphabet r) m = true /\ (consumes r = true -> m <> "").
Proof.
  revert A. induction r as [p| |a IHa b IHb|a IHa b IHb|a IHa|a IHa|a IHa| |];
    intros A x k v; simpl.
  - destruct (after x) as [|c t] eqn:E; [discriminate|].
    destruct (p c) eqn:Ep; [|discriminate]. intros H.
    exists (Pos (Some c) t), (String c ""). split; [exact H|].
    split; [reflexivity|]. split; [simpl; by rewrite Ep|discriminate].
  - intros H. exists x, "". split; [exact H|]. split; [reflexivity|].
    split; [reflexivity|discriminate].
  - intros H. apply IHa in H as (y & m & H & Hm & Hq & Hc).
    apply IHb in H as (z & m' & H & Hm' & Hq' & Hc').
    exists z, (m ++ m'). split; [done|]. split; [by rewrite Hm, Hm', append_assoc|].
    split.
    + rewrite all_append. apply andb_true_intro. split.
      * eapply all_impl, Hq. intros c Hc0. simpl. by rewrite Hc0.
      * eapply all_impl, Hq'. intros c Hc0. simpl. by rewrite Hc0, orb_true_r.
    + intros Hor Hnil. apply append_eq_nil in Hnil as [-> ->].
      apply orb_prop in Hor as [H1|H1]; [by apply Hc|by apply Hc'].
  - destruct (run a x k) as [w|] eqn:E.
    + intros [= ->]. apply IHa in E as (y & m & H & Hm & Hq & Hc).
      exists y, m. split; [done|]. split; [done|]. split.
      * eapply all_impl, Hq. intros c Hc0. simpl. by rewrite Hc0.
      * intros Hand. apply andb_prop in Hand as [H1 _]. auto.
    + intros H. apply IHb in H as (y & m & H & Hm & Hq & Hc).
      exists y, m. split; [done|]. split; [done|]. split.
      * eapply all_impl, Hq. intros c Hc0. simpl. by rewrite Hc0, orb_true_r.
      * intros Hand. apply andb_prop in Hand as [_ H1]. auto.
  - intros H. apply (starLoop_sound _ _ (alphabet a)) in H as (y & m & H & Hm & Hq).
    + exists y, m. split; [exact H|]. split; [exact Hm|]. split; [exact Hq|discriminate].
    + intros x' k' v' H'. apply IHa in H' as (y & m & H' & Hm & Hq & _). eauto.
  - destruct (run a x Some); [|discriminate]. intros H.
    exists x, "". split; [exact H|]. split; [reflexivity|].
    split; [reflexivity|discriminate].
  - destruct (run a x Some); [discriminate|]. intros H.
    exists x, "". split; [exact H|]. split; [reflexivity|].
    split; [reflexivity|discriminate].
  - destruct (after x) eqn:E; [|discriminate]. intros H.
    exists x, "". split; [exact H|]. split; [by rewrite E|].
    split; [reflexivity|discriminate].
  - destruct (xorb _ _); [|discriminate]. intros H.
    exists x, "". split; [exact H|]. split; [reflexivity|].
    split; [reflexivity|discriminate].
Qed.

Lemma matchAt_sound r x y :
  matchAt r x = Some y ->
  exists m, after x = m ++ after y /\ (consumes r = true -> m <> "").
Proof.
  unfold matchAt. intros H. apply run_sound in H as (z & m & [= ->] & Hm & _ & Hc). eauto.
Qed.

Lemma matchAt_alphabet r x y m :
  matchAt r x = Some y -> after x = m ++ after y -> all (alphabet r) m = true.
Proof.
  unfold matchAt. intros H Hx.
  apply run_sound in H as (z & m' & [= ->] & Hm & Hq & _).
  rewrite Hm in Hx. apply append_inv_tail in Hx. by subst m'.
Qed.


Lemma lastOr_append b m1 m2 : lastOr b (m1 ++ m2) = lastOr (lastOr b m1) m2.
Proof. revert b. induction m1 as [|c m1 IH]; intros b; simpl; [done|]. apply IH. Qed.

(** *** The leftmost match *)

Lemma search_hit r b s y :
  matchAt r (Pos b s) = Some y ->
  search r b s = Some (Found "" (take (String.length s - String.length (after y)) s) y).
Proof. intros H. destruct s; simpl; by rewrite H. Qed.

Lemma search_miss r b c t :
  matchAt r (Pos b (String c t)) = None ->
  search r b (String c t)
  = match search r (Some c) t with
    | Some f => Some (Found (String c (skipped f)) (matched f) (stop f))
    | None => None
    end.
Proof. intros H. simpl. by rewrite H. Qed.

(** What a successful search found: the text splits into what was skipped,
    the match and the rest; the match starts where the skipped text ends,
    and no match starts earlier. *)
Lemma search_hit_sound r b s y :
  matchAt r (Pos b s) = Some y ->
  let f := Found "" (take (String.length s - String.length (after y)) s) y in
  s = skipped f ++ matched f ++ after (stop f)
  /\ matchAt r (Pos (lastOr b (skipped f)) (matched f ++ after (stop f))) = Some (stop f)
  /\ (forall a c, skipped f = a ++ c -> c <> "" ->
        matchAt r (Pos (lastOr b a) (c ++ matched f ++ after (stop f))) = None).
Proof.
  intros E. destruct (matchAt_sound _ _ _ E) as (m & Hm & _). cbn [after] in Hm.
  subst s. cbn zeta. cbn [skipped matched stop]. rewrite take_suffix.
  split; [reflexivity|]. split; [exact E|].
  intros a c Hac Hc. symmetry in Hac. apply append_eq_nil in Hac as [_ ->]. done.
Qed.

Lemma search_sound r b s f :
  search r b s = Some f ->
  s = skipped f ++ matched f ++ after (stop f)
  /\ matchAt r (Pos (lastOr b (skipped f)) (matched f ++ after (stop f))) = Some (stop f)
  /\ (forall a c, skipped f = a ++ c -> c <> "" ->
        matchAt r (Pos (lastOr b a) (c ++ matched f ++ after (stop f))) = None).
Proof.
  revert b f. induction s as [|c s IH]; intros b f.
  - destruct (matchAt r (Pos b "")) as [y|] eqn:E.
    + rewrite (search_hit _ _ _ _ E). intros [= <-]. exact (search_hit_sound _ _ _ _ E).
    + simpl. by rewrite E.
  - destruct (matchAt r (Pos b (String c s))) as [y|] eqn:E.
    + rewrite (search_hit _ _ _ _ E). intros [= <-]. exact (search_hit_sound _ _ _ _ E).
    + rewrite (search_miss _ _ _ _ E).
      destruct (search r (Some c) s) as [g|] eqn:Eg; [|discriminate].
      intros [= <-]. cbn [skipped matched stop].
      destruct (IH _ _ Eg) as (Hs & Hmatch & Hnone).
      split; [simpl; by rewrite <- Hs|]. split; [exact Hmatch|].
      intros a c' Hac Hc. destruct a as [|a0 a].
      * simpl in Hac. subst c'. simpl. rewrite <- Hs. exact E.
      * simpl in Hac. injection Hac as <- Hac. simpl. by apply Hnone.
Qed.

(** A match somewhere makes the search succeed. *)
Lemma search_exists r b pre suf y :
  matchAt r (Pos (lastOr b pre) suf) = Some y ->
  exists f, search r b (pre ++ suf) = Some f.
Proof.
  revert b. induction pre as [|c pre IH]; intros b H; cbn [lastOr] in H.
  - change ("" ++ suf) with suf. rewrite (search_hit _ _ _ _ H). eauto.
  - change (String c pre ++ suf) with (String c (pre ++ suf)).
    destruct (matchAt r (Pos b (String c (pre ++ suf)))) as [z|] eqn:E.
    + rewrite (search_hit _ _ _ _ E). eauto.
    + rewrite (search_miss _ _ _ _ E). destruct (IH _ H) as [f ->]. eauto.
Qed.

(** No match anywhere makes it fail. *)
Lemma search_none r b s :
  (forall a c, s = a ++ c -> matchAt r (Pos (lastOr b a) c) = None) ->
  search r b s = None.
Proof.
  revert b. induction s as [|c s IH]; intros b H.
  - pose proof (H "" "" eq_refl) as H0. cbn [lastOr] in H0.
    unfold search. by rewrite H0.
  - rewrite search_miss; [|exact (H "" _ eq_refl)].
    rewrite IH; [done|]. intros a c' ->. exact (H (String c a) c' eq_refl).
Qed.

Lemma search_none_inv r b s a c :
  search r b s = None -> s = a ++ c -> matchAt r (Pos (lastOr b a) c) = None.
Proof.
  intros Hnone ->. destruct (matchAt r (Pos (lastOr b a) c)) as [y|] eqn:E; [|done].
  destruct (search_exists _ _ _ _ _ E) as [f Hf]. congruence.
Qed.

(** *** The successive matches *)

Lemma search_shorter r b s f :
  consumes r = true -> search r b s = Some f ->
  matched f <> "" /\ String.length (after (stop f)) < String.length s.
Proof.
  intros Hc H. destruct (search_sound _ _ _ _ H) as (Hs & Hm & _).
  destruct (matchAt_sound _ _ _ Hm) as (m & Hm' & Hne). simpl in Hm'.
  apply append_inv_tail in Hm'. subst m.
  split; [auto|]. apply (f_equal String.length) in Hs. rewrite !length_append in Hs.
  destruct (matched f); [by destruct (Hne Hc)|]. simpl in Hs. lia.
Qed.

Lemma scan_step r n b s :
  consumes r = true ->
  scan (S n) r b s
  = match search r b s with
    | None => ([], s)
    | Some f =>
        let '(gs, tl) := scan n r (before (stop f)) (after (stop f)) in
        ((skipped f, matched f) :: gs, tl)
    end.
Proof.
  intros Hc. simpl. destruct (search r b s) as [f|] eqn:E; [|done].
  destruct (search_shorter _ _ _ _ Hc E) as [Hne _].
  destruct (matched f); [done|reflexivity].
Qed.

Lemma scan_fuel r : consumes r = true ->
  forall n m b s, String.length s < n -> String.length s < m ->
  scan n r b s = scan m r b s.
Proof.
  intros Hc. induction n as [|n IH]; intros m b s Hn Hm; [lia|].
  destruct m as [|m]; [lia|].
  rewrite !scan_step by done.
  destruct (search r b s) as [f|] eqn:E; [|done].
  destruct (search_shorter _ _ _ _ Hc E) as [_ Hlt].
  rewrite (IH m); [done|lia|lia].
Qed.

Lemma segments_step r s :
  consumes r = true ->
  segments r s
  = match search r None s with
    | None => ([], s)
    | Some f =>
        let '(gs, tl) := scan (S (String.length (after (stop f)))) r
                           (before (stop f)) (after (stop f)) in
        ((skipped f, matched f) :: gs, tl)
    end.
Proof.
  intros Hc. unfold segments. rewrite scan_step by done.
  destruct (search r None s) as [f|] eqn:E; [|done].
  destruct (search_shorter _ _ _ _ Hc E) as [_ Hlt].
  rewrite (scan_fuel r Hc _ (S (String.length (after (stop f))))); [done|lia|lia].
Qed.


(** *** Running the matcher forwards *)

Lemma run_Seq {A : Type} a b x (k : pos -> option A) :
  run (Seq a b) x k = run a x (fun y => run b y k).
Proof. reflexivity. Qed.

Lemma run_Alt {A : Type} a b x (k : pos -> option A) :
  run (Alt a b) x k = match run a x k with Some v => Some v | None => run b x k end.
Proof. reflexivity. Qed.

Lemma run_Empty {A : Type} x (k : pos -> option A) : run Empty x k = k x.
Proof. reflexivity. Qed.

Lemma run_Class_nil {A : Type} p b (k : pos -> option A) :
  run (Class p) (Pos b "") k = None.
Proof. reflexivity. Qed.

Lemma run_Class {A : Type} p b c t (k : pos -> option A) :
  run (Class p) (Pos b (String c t)) k = if p c then k (Pos (Some c) t) else None.
Proof. reflexivity. Qed.

Lemma run_Lit {A : Type} s b rest (k : pos -> option A) :
  run (Lit s) (Pos b (s ++ rest)) k = k (Pos (lastOr b s) rest).
Proof.
  revert b. induction s as [|c s IH]; intros b; [reflexivity|].
  change (String c s ++ rest) with (String c (s ++ rest)).
  change (run (Lit (String c s)) (Pos b (String c (s ++ rest))) k)
    with (run (Class (Ascii.eqb c)) (Pos b (String c (s ++ rest)))
            (fun y => run (Lit s) y k)).
  rewrite run_Class, Ascii.eqb_refl. apply IH.
Qed.

(** A greedy [p*] in front of a continuation that accepts the end of the
    run of [p]: the whole run is consumed. *)
Lemma starLoop_greedy {A : Type} p (k : pos -> option A) ws : forall b rest fuel v,
  all p ws = true -> stopsAt p rest = true ->
  String.length (ws ++ rest) <= fuel ->
  k (Pos (lastOr b ws) rest) = Some v ->
  starLoop (run (Class p)) k fuel (Pos b (ws ++ rest)) = Some v.
Proof.
  induction ws as [|c ws IH]; intros b rest fuel v Hall Hstop Hfuel Hk.
  - change ("" ++ rest) with rest. cbn [lastOr] in Hk.
    destruct fuel as [|fuel]; [exact Hk|].
    cbn [starLoop]. destruct rest as [|c rest]; cbn [run after].
    + exact Hk.
    + cbn [stopsAt] in Hstop. apply negb_true_iff in Hstop. rewrite Hstop. exact Hk.
  - change (String c ws ++ rest) with (String c (ws ++ rest)) in *.
    cbn [all] in Hall. apply andb_prop in Hall as [Hc Hall].
    destruct fuel as [|fuel]; [simpl in Hfuel; lia|].
    cbn [starLoop]. rewrite run_Class, Hc. cbn [after].
    replace (String.length (ws ++ rest) <? String.length (String c (ws ++ rest)))%nat
      with true by (symmetry; apply Nat.ltb_lt; simpl; lia).
    rewrite (IH (Some c) rest fuel v); [reflexivity|done|done|simpl in Hfuel; lia|exact Hk].
Qed.

Lemma run_Star_greedy {A : Type} p (k : pos -> option A) ws b rest v :
  all p ws = true -> stopsAt p rest = true ->
  k (Pos (lastOr b ws) rest) = Some v ->
  run (Star (Class p)) (Pos b (ws ++ rest)) k = Some v.
Proof. intros. cbn [run]. by apply starLoop_greedy. Qed.

(** *** Reading a match backwards *)

Lemma run_Class_inv {A : Type} p x (k : pos -> option A) v :
  run (Class p) x k = Some v ->
  exists c t, after x = String c t /\ p c = true /\ k (Pos (Some c) t) = Some v.
Proof.
  cbn [run]. destruct (after x) as [|c t]; [discriminate|].
  destruct (p c) eqn:E; [|discriminate]. eauto.
Qed.

Lemma run_Lit_inv {A : Type} s x (k : pos -> option A) v :
  run (Lit s) x k = Some v ->
  exists rest, after x = s ++ rest /\ k (Pos (lastOr (before x) s) rest) = Some v.
Proof.
  revert x. induction s as [|c s IH]; intros x; cbn [Lit run].
  - intros H. exists (after x). split; [reflexivity|]. by destruct x.
  - intros H. apply run_Class_inv in H as (c' & t & Hx & Hc & H).
    apply Ascii.eqb_eq in Hc. subst c'.
    apply IH in H as (rest & Ht & H). cbn [after before] in *.
    exists rest. split; [by rewrite Hx, Ht|exact H].
Qed.

Lemma starLoop_Class_inv {A : Type} p (k : pos -> option A) fuel : forall x v,
  starLoop (run (Class p)) k fuel x = Some v ->
  exists ws rest, after x = ws ++ rest /\ all p ws = true
                  /\ k (Pos (lastOr (before x) ws) rest) = Some v.
Proof.
  induction fuel as [|fuel IH]; intros x v; cbn [starLoop].
  - intros H. exists "", (after x). split; [reflexivity|]. split; [reflexivity|].
    by destruct x.
  - destruct (run (Class p) x _) as [w|] eqn:E.
    + intros [= ->]. apply run_Class_inv in E as (c & t & Hx & Hc & E).
      cbn [after] in E. destruct (_ <? _)%nat; [|discriminate].
      apply IH in E as (ws & rest & Ht & Hall & E). cbn [after before] in *.
      exists (String c ws), rest. split; [by rewrite Hx, Ht|].
      split; [cbn [all]; by rewrite Hc, Hall|exact E].
    + intros H. exists "", (after x). split; [reflexivity|]. split; [reflexivity|].
      by destruct x.
Qed.

Lemma replaceAll_fold r by_ s :
  replaceAll r by_ s
  = fold_right (fun seg acc => fst seg ++ by_ ++ acc) (snd (segments r s)) (fst (segments r s)).
Proof. unfold replaceAll. by destruct (segments r s). Qed.

End RegexFacts.

(** ** lodash *)

Module LodashFacts.
Import JsString Regex Lodash StringFacts RegexFacts.
#[local] Arguments String.append !_ _ / : simpl nomatch.
Local Open Scope list_scope.

(** Every match collected by a scan is a non-empty text over the alphabet
    of the regular expression. *)
Lemma scan_matches r : consumes r = true ->
  forall n b s,
    Forall (fun seg => all (alphabet r) (snd seg) = true /\ snd seg <> "")
           (fst (scan n r b s)).
Proof.
  intros Hc. induction n as [|n IH]; intros b s; [by constructor|].
  rewrite scan_step by done.
  destruct (search r b s) as [f|] eqn:E; [|by constructor].
  destruct (search_sound _ _ _ _ E) as (Hs & Hmatch & _).
  destruct (search_shorter _ _ _ _ Hc E) as [Hne _].
  specialize (IH (before (stop f)) (after (stop f))).
  destruct (scan n r _ _) as [gs tl]. cbn [fst snd] in *.
  constructor; [|exact IH]. cbn [snd]. split; [|exact Hne].
  apply (matchAt_alphabet _ _ _ _ Hmatch). reflexivity.
Qed.

Lemma matchAll_matches r s w : consumes r = true ->
  In w (matchAll r s) -> all (alphabet r) w = true /\ w <> "".
Proof.
  intros Hc Hin. unfold matchAll in Hin. apply in_map_iff in Hin as (seg & <- & Hin).
  pose proof (scan_matches r Hc (S (String.length s)) None s) as H.
  rewrite List.Forall_forall in H. by apply H.
Qed.

Lemma arrayReduce_camel ws : forall acc index,
  arrayReduce (fun result word index =>
      let word := toLowerCase word in
      (result +:+ match index with O => word | S _ => capitalize word end)%string)
    acc (S index) ws
  = (acc +:+ String.concat "" (List.map camelWord ws))%string.
Proof.
  induction ws as [|w ws IH]; intros acc index; cbn [arrayReduce List.map].
  - by rewrite append_nil_r.
  - rewrite IH. cbv zeta. rewrite append_assoc. f_equal.
    destruct ws as [|w' ws]; [by rewrite append_nil_r|reflexivity].
Qed.

Lemma camelCase_words s :
  camelCase s
  = match words (replaceAll reApos "" (deburr s)) with
    | [] => ""
    | w :: ws => toLowerCase w +:+ String.concat "" (List.map camelWord ws)
    end%string.
Proof.
  unfold camelCase, createCompounder.
  destruct (words _) as [|w ws]; [reflexivity|].
  cbn [arrayReduce]. apply arrayReduce_camel.
Qed.

(** *** Removing a class of code units *)

Lemma filter_append p a b : filter p (a +:+ b) = (filter p a +:+ filter p b)%string.
Proof.
  induction a as [|c a IH]; simpl; [done|]. destruct (p c); simpl; by rewrite IH.
Qed.

Lemma filter_all p s : all p s = true -> filter p s = s.
Proof.
  induction s as [|c s IH]; simpl; [done|]. destruct (p c); [|done].
  simpl. intros H. by rewrite IH.
Qed.

Lemma unmatched_all q rest : forall sk b,
  (forall a c, sk = (a +:+ c)%string -> c <> "" ->
     matchAt (Class q) (Pos (lastOr b a) (c +:+ rest)%string) = None) ->
  all (neg q) sk = true.
Proof.
  induction sk as [|x sk IH]; intros b H; simpl; [done|].
  apply andb_true_intro. split.
  - specialize (H "" (String x sk) eq_refl ltac:(discriminate)).
    unfold matchAt in H. simpl in H. unfold neg. by destruct (q x).
  - apply (IH (Some x)). intros a c -> Hc.
    apply (H (String x a) c eq_refl Hc).
Qed.

Lemma scan_Class q : forall n b s, String.length s < n ->
  fold_right (fun seg acc => (fst seg +:+ "" +:+ acc)%string)
    (snd (scan n (Class q) b s)) (fst (scan n (Class q) b s))
  = filter (neg q) s.
Proof.
  induction n as [|n IH]; intros b s Hn; [lia|].
  rewrite scan_step by reflexivity.
  destruct (search (Class q) b s) as [f|] eqn:E.
  - destruct (search_sound _ _ _ _ E) as (Hs & Hmatch & Hleft).
    destruct (search_shorter (Class q) _ _ _ eq_refl E) as [_ Hlt].
    unfold matchAt in Hmatch.
    apply run_Class_inv in Hmatch as (c & t & Hx & Hc & [= Hstop]).
    cbn [after] in Hx. rewrite <- Hstop in Hx. cbn [after] in Hx.
    apply (append_inv_tail _ (String c "")) in Hx.
    specialize (IH (before (stop f)) (after (stop f)) ltac:(lia)).
    destruct (scan n (Class q) _ _) as [gs tl]. cbn [fst snd fold_right] in *.
    rewrite IH. rewrite Hs at 1. rewrite !filter_append.
    rewrite (filter_all _ (skipped f)) by (eapply unmatched_all, Hleft).
    f_equal. rewrite Hx. simpl. unfold neg. by rewrite Hc.
  - cbn [fst snd fold_right]. symmetry. apply filter_all.
    apply (unmatched_all q "" s b). intros a c Hac _.
    rewrite append_nil_r. by apply (search_none_inv _ _ _ _ _ E).
Qed.

Lemma replaceAll_Class q s : replaceAll (Class q) "" s = filter (neg q) s.
Proof. rewrite replaceAll_fold. apply scan_Class. lia. Qed.

Lemma deburr_append a b : deburr (a +:+ b) = (deburr a +:+ deburr b)%string.
Proof.
  induction a as [|c a IH]; simpl; [done|]. by rewrite IH, append_assoc.
Qed.


(** *** A text that ends in [App] has a first word *)

Lemma consumes_reUnicodeWord : consumes reUnicodeWord = true.
Proof. reflexivity. Qed.

Lemma consumes_reAsciiWord : consumes reAsciiWord = true.
Proof. reflexivity. Qed.

Lemma matchAll_first r pre suf y : consumes r = true ->
  matchAt r (Pos (lastOr None pre) suf) = Some y ->
  exists w ws, matchAll r (pre +:+ suf) = w :: ws /\ w <> "".
Proof.
  intros Hc Hm. destruct (search_exists r None pre suf y Hm) as [f E].
  unfold matchAll. rewrite segments_step by done. rewrite E.
  destruct (search_shorter _ _ _ _ Hc E) as [Hne _].
  destruct (scan _ r _ _) as [gs tl]. cbn [fst List.map snd]. eauto.
Qed.

Lemma words_App u : exists w ws, words (u +:+ "App") = w :: ws /\ w <> "".
Proof.
  unfold words. destruct (hasUnicodeWord _).
  - by apply (matchAll_first reUnicodeWord u "App" (Pos (Some "p"%char) "")).
  - by apply (matchAll_first reAsciiWord u "App" (Pos (Some "p"%char) "")).
Qed.

Lemma camelCase_App b : camelCase (b +:+ "App") <> "".
Proof.
  rewrite camelCase_words. unfold reApos.
  rewrite replaceAll_Class, deburr_append, filter_append.
  change (filter (neg isApos) (deburr "App")) with "App".
  destruct (words_App (filter (neg isApos) (deburr b))) as (w & ws & -> & Hw).
  destruct w as [|c w]; [done|]. discriminate.
Qed.

End LodashFacts.

(** ** [getFrontendAppName] *)

Module FrontendAppNameFacts.
Import JsString Regex Lodash Naming StringFacts RegexFacts LodashFacts.
#[local] Arguments String.append !_ _ / : simpl nomatch.

Lemma take_drop n s : (take n s +:+ drop n s)%string = s.
Proof.
  revert s. induction n as [|n IH]; intros [|c s]; simpl; try done. by rewrite IH.
Qed.

Lemma endsWith_inv p s : endsWith p s = true -> exists a, s = (a +:+ p)%string.
Proof.
  unfold endsWith. intros H. apply andb_prop in H as [_ H].
  apply String.eqb_eq in H. exists (take (String.length s - String.length p) s).
  rewrite <- H at 2. by rewrite take_drop.
Qed.

Lemma candidate_not_empty baseName :
  (camelCase baseName +:+ (if endsWith "App" baseName then "" else "App"))%string <> "".
Proof.
  destruct (endsWith "App" baseName) eqn:E.
  - apply endsWith_inv in E as [a ->]. rewrite append_nil_r. apply camelCase_App.
  - intros H. apply append_eq_nil in H as [_ H]. discriminate.
Qed.

Lemma digit_fallback (name : string) : name <> "" ->
  let result := match matchAt (Class is_digit) (Pos None name) with
                | Some _ => "App"
                | None => name
                end in
  result = (if stopsAt is_digit name then name else "App")
  /\ exists c rest, result = String c rest /\ is_digit c = false.
Proof.
  intros Hne. cbv zeta. unfold matchAt. destruct name as [|c rest]; [done|].
  rewrite run_Class. cbn [stopsAt]. destruct (is_digit c) eqn:Hc; cbn [negb].
  - split; [done|]. by exists "A"%char, "pp".
  - split; [done|]. by exists c, rest.
Qed.

(** C10.  [getFrontendAppName] first builds a candidate: the camel-cased
    [baseName], followed by [App] unless [baseName] already ends in [App].
    It returns the candidate, except that it returns the text [App] when the
    candidate begins with a digit.  The candidate is never empty, so the
    name returned always has a first character, and that character is not a
    digit. *)
Theorem getFrontendAppName_never_starts_with_a_digit (baseName : string) :
  let candidate :=
    (camelCase baseName +:+ (if endsWith "App" baseName then "" else "App"))%string in
  getFrontendAppName baseName
  = (if stopsAt is_digit candidate then candidate else "App")
  /\ exists c rest, getFrontendAppName baseName = String c rest /\ is_digit c = false.
Proof.
  cbv zeta. unfold getFrontendAppName. cbv zeta.
  apply digit_fallback, candidate_not_empty.
Qed.

End FrontendAppNameFacts.

(** ** [upperFirstCamelCase] *)

Module UpperFirstCamelCaseFacts.
Import JsString Regex Lodash Naming StringFacts RegexFacts LodashFacts.
#[local] Arguments String.append !_ _ / : simpl nomatch.
Local Open Scope list_scope.

Lemma upper_az_facts c : is_upper_az c = true ->
  upperRange c = true /\ lowerRange c = false /\ isApos c = false
  /\ breakRange c = false /\ deburrLetter c = String c ""
  /\ toUpperChar (toLowerChar c) = c
  /\ toUpperChar (toLowerChar (toLowerChar c)) = c
  /\ is_lower_az c = false.
Proof.
  destruct c as [[] [] [] [] [] [] [] []]; vm_compute; intros H;
    try discriminate H; repeat split.
Qed.

Lemma lower_az_facts c : is_lower_az c = true ->
  lowerRange c = true /\ upperRange c = false /\ isApos c = false
  /\ breakRange c = false /\ deburrLetter c = String c ""
  /\ toLowerChar c = c /\ is_upper_az c = false.
Proof.
  destruct c as [[] [] [] [] [] [] [] []]; vm_compute; intros H;
    try discriminate H; repeat split.
Qed.

Lemma capitalised_inv w : capitalised w = true ->
  exists U l ls, w = String U (String l ls)
    /\ is_upper_az U = true /\ is_lower_az l = true /\ all is_lower_az ls = true.
Proof.
  destruct w as [|U [|l ls]]; simpl; try done.
  - rewrite andb_false_r. done.
  - rewrite andb_true_r. intros H. apply andb_prop in H as [HU H].
    apply andb_prop in H as [Hl Hls]. eauto 10.
Qed.


Lemma run_Ahead {A : Type} a x (k : pos -> option A) :
  run (Ahead a) x k = match run a x Some with Some _ => k x | None => None end.
Proof. reflexivity. Qed.

Lemma run_EndOfInput_nil {A : Type} b (k : pos -> option A) :
  run EndOfInput (Pos b "") k = k (Pos b "").
Proof. reflexivity. Qed.

(** The first alternative of [reUnicodeWord] takes a capitalised word
    whole. *)
Lemma unicodeWord_capitalised b w rest :
  capitalised w = true -> wordEnd rest ->
  matchAt reUnicodeWord (Pos b (w +:+ rest)%string) = Some (Pos (lastOr b w) rest).
Proof.
  intros Hw Hrest. apply capitalised_inv in Hw as (U & l & ls & -> & HU & Hl & Hls).
  destruct (upper_az_facts U HU) as (HU1 & _).
  destruct (lower_az_facts l Hl) as (Hl1 & _).
  unfold matchAt, reUnicodeWord. cbn [Alts]. rewrite run_Alt.
  match goal with |- match ?m with _ => _ end = _ =>
    assert (m = Some (Pos (lastOr b (String U (String l ls))) rest)) as -> end; [|done].
  rewrite run_Seq. unfold Opt at 1. rewrite run_Alt.
  change (String U (String l ls) +:+ rest)%string with (String U (String l (ls +:+ rest)%string)).
  unfold rsUpper at 1. rewrite run_Class, HU1.
  match goal with |- match ?m with _ => _ end = _ =>
    assert (m = Some (Pos (lastOr b (String U (String l ls))) rest)) as -> end; [|done].
  unfold Plus. rewrite !run_Seq. unfold rsLower. rewrite run_Class, Hl1.
  apply run_Star_greedy.
  - eapply all_impl, Hls. intros c Hc. by destruct (lower_az_facts c Hc).
  - destruct Hrest as [->|(U2 & t & -> & HU2)]; [done|]. simpl.
    by destruct (upper_az_facts U2 HU2) as (_ & -> & _).
  - cbn [lastOr]. cbv beta. rewrite run_Seq. unfold rsOptContrLower, Opt.
    rewrite run_Alt, run_Seq. unfold reApos, rsBreak, rsUpper.
    destruct Hrest as [->|(U2 & t & -> & HU2)].
    + by rewrite run_Class_nil, run_Empty, run_Ahead, !run_Alt, !run_Class_nil,
        run_EndOfInput_nil.
    + destruct (upper_az_facts U2 HU2) as (HU21 & _ & HU23 & HU24 & _).
      by rewrite run_Class, HU23, run_Empty, run_Ahead, !run_Alt, !run_Class, HU24, HU21.
Qed.


Lemma wordEnd_flat ws : forallb capitalised ws = true -> wordEnd (flat ws).
Proof.
  destruct ws as [|w ws]; [by left|]. cbn [forallb flat fold_right].
  intros H. apply andb_prop in H as [Hw _].
  apply capitalised_inv in Hw as (U & l & ls & -> & HU & _). right. eauto.
Qed.

Lemma length_flat_cons w ws :
  String.length (flat ws) < String.length (flat (w :: ws)) \/ w = "".
Proof.
  destruct w; [by right|left]. cbn [flat fold_right].
  rewrite length_append. simpl. fold (flat ws). lia.
Qed.

(** The scan of [reUnicodeWord] over capitalised words returns them. *)
Lemma scan_capitalised ws : forallb capitalised ws = true ->
  forall n b, String.length (flat ws) < n ->
  scan n reUnicodeWord b (flat ws) = (List.map (fun w => ("", w)) ws, "").
Proof.
  induction ws as [|w ws IH]; intros Hws n b Hn.
  - destruct n as [|n]; [lia|]. reflexivity.
  - cbn [forallb] in Hws. apply andb_prop in Hws as [Hw Hws].
    destruct n as [|n]; [lia|]. rewrite scan_step by reflexivity.
    cbn [flat fold_right]. fold (flat ws).
    pose proof (unicodeWord_capitalised b w (flat ws) Hw (wordEnd_flat ws Hws)) as Hm.
    rewrite (search_hit _ _ _ _ Hm). cbn [stop after before skipped matched].
    rewrite take_suffix.
    rewrite IH; [reflexivity|exact Hws|].
    destruct (length_flat_cons w ws) as [H| ->]; [|done].
    cbn [flat fold_right] in *. lia.
Qed.

Lemma unicodeWords_capitalised ws :
  forallb capitalised ws = true -> unicodeWords (flat ws) = ws.
Proof.
  intros Hws. unfold unicodeWords, matchAll, segments.
  rewrite scan_capitalised by (done || lia). cbn [fst].
  rewrite List.map_map. cbn [snd]. apply List.map_id.
Qed.


Lemma snoc_inv (s : string) : s <> "" ->
  exists init c, s = (init +:+ String c "")%string.
Proof.
  induction s as [|c s IH]; [done|]. intros _.
  destruct s as [|c' s].
  - by exists "", c.
  - destruct IH as (init & c0 & ->); [done|]. by exists (String c init), c0.
Qed.

(** Two capitalised words in a row have a lower-case letter before an
    upper-case one, which [reHasUnicodeWord] detects. *)
Lemma hasUnicodeWord_capitalised w1 w2 ws :
  capitalised w1 = true -> capitalised w2 = true ->
  hasUnicodeWord (flat (w1 :: w2 :: ws)) = true.
Proof.
  intros H1 H2.
  apply capitalised_inv in H1 as (U1 & l1 & ls1 & -> & HU1 & Hl1 & Hls1).
  apply capitalised_inv in H2 as (U2 & l2 & ls2 & -> & HU2 & _).
  destruct (snoc_inv (String l1 ls1)) as (init & c & Hsnoc); [done|].
  assert (Hc : is_lower_az c = true).
  { assert (H : all is_lower_az (String l1 ls1) = true) by (simpl; by rewrite Hl1).
    rewrite Hsnoc, all_append in H. apply andb_prop in H as [_ H].
    simpl in H. by rewrite andb_true_r in H. }
  assert (flat (String U1 (String l1 ls1) :: String U2 (String l2 ls2) :: ws)
          = (String U1 init +:+ String c (String U2 (String l2 ls2 +:+ flat ws)))%string)
    as ->.
  { cbn [flat fold_right]. rewrite Hsnoc. simpl. rewrite append_assoc. reflexivity. }
  unfold hasUnicodeWord, test.
  destruct (search_exists reHasUnicodeWord None (String U1 init)
              (String c (String U2 (String l2 ls2 +:+ flat ws)%string))
              (Pos (Some U2) (String l2 ls2 +:+ flat ws)%string)) as [f ->]; [|done].
  unfold matchAt, reHasUnicodeWord. cbn [Alts].
  by rewrite run_Alt, run_Seq, !run_Class, Hc, HU2.
Qed.

(** [reAsciiWord] takes a run of ASCII letters whole. *)
Lemma asciiWords_capitalised w : capitalised w = true -> asciiWords w = [w].
Proof.
  intros Hw. apply capitalised_inv in Hw as (U & l & ls & -> & HU & Hl & Hls).
  set (wordish := fun c => negb (in_range 0 47 c || in_range 58 64 c
                              || in_range 91 96 c || in_range 123 127 c)).
  assert (Hwordish : forall c, is_lower_az c = true -> wordish c = true).
  { intros c. destruct c as [[] [] [] [] [] [] [] []]; vm_compute; done. }
  assert (HwU : wordish U = true).
  { revert HU. destruct U as [[] [] [] [] [] [] [] []]; vm_compute; done. }
  assert (Hm : matchAt reAsciiWord (Pos None (String U (String l ls)))
               = Some (Pos (lastOr None (String U (String l ls))) "")).
  { unfold matchAt, reAsciiWord, Plus. fold wordish.
    rewrite run_Seq, run_Class, HwU.
    rewrite <- (append_nil_r (String l ls)) at 1.
    apply run_Star_greedy; [|done|done].
    eapply all_impl; [exact Hwordish|]. simpl. by rewrite Hl. }
  unfold asciiWords, matchAll. rewrite segments_step by reflexivity.
  rewrite (search_hit _ _ _ _ Hm). cbn [stop after before skipped matched].
  change (String.length "") with 0. rewrite Nat.sub_0_r.
  pose proof (take_append (String U (String l ls)) "") as Htake.
  rewrite append_nil_r in Htake. rewrite Htake. reflexivity.
Qed.

Lemma words_capitalised ws : forallb capitalised ws = true -> words (flat ws) = ws.
Proof.
  intros Hws. unfold words. destruct ws as [|w1 [|w2 ws]].
  - reflexivity.
  - cbn [forallb] in Hws. apply andb_prop in Hws as [Hw _].
    destruct (hasUnicodeWord _).
    + by apply (unicodeWords_capitalised [w1]); cbn [forallb]; rewrite Hw.
    + cbn [flat fold_right]. rewrite append_nil_r. by apply asciiWords_capitalised.
  - pose proof Hws as Hws'. cbn [forallb] in Hws'.
    apply andb_prop in Hws' as [H1 H2]. apply andb_prop in H2 as [H2 _].
    rewrite hasUnicodeWord_capitalised by done.
    by apply unicodeWords_capitalised.
Qed.


Lemma alpha_az_facts c : is_alpha_az c = true ->
  deburrLetter c = String c "" /\ neg isApos c = true.
Proof.
  destruct c as [[] [] [] [] [] [] [] []]; vm_compute; intros H;
    try discriminate H; repeat split.
Qed.

Lemma deburr_alpha s : all is_alpha_az s = true -> deburr s = s.
Proof.
  induction s as [|c s IH]; simpl; [done|]. intros H.
  apply andb_prop in H as [Hc Hs]. destruct (alpha_az_facts c Hc) as [-> _].
  by rewrite IH.
Qed.

Lemma toLowerCase_lower s : all is_lower_az s = true -> toLowerCase s = s.
Proof.
  unfold toLowerCase. induction s as [|c s IH]; simpl; [done|]. intros H.
  apply andb_prop in H as [Hc Hs].
  destruct (lower_az_facts c Hc) as (_ & _ & _ & _ & _ & -> & _). by rewrite IH.
Qed.

Lemma capitalised_alpha w : capitalised w = true -> all is_alpha_az w = true.
Proof.
  intros Hw. apply capitalised_inv in Hw as (U & l & ls & -> & HU & Hl & Hls).
  unfold is_alpha_az. simpl. rewrite HU, Hl, orb_true_r. simpl.
  eapply all_impl, Hls. intros c ->. done.
Qed.

Lemma flat_alpha ws : forallb capitalised ws = true -> all is_alpha_az (flat ws) = true.
Proof.
  induction ws as [|w ws IH]; [done|]. cbn [forallb flat fold_right].
  fold (flat ws). intros H. apply andb_prop in H as [Hw Hws].
  by rewrite all_append, (capitalised_alpha _ Hw), IH.
Qed.

Lemma concat_flat ws : String.concat "" ws = flat ws.
Proof.
  induction ws as [|w ws IH]; [done|]. cbn [flat fold_right]. fold (flat ws).
  rewrite <- IH. destruct ws; [by rewrite append_nil_r|reflexivity].
Qed.

Lemma camelWord_capitalised w : capitalised w = true -> camelWord w = w.
Proof.
  intros Hw. apply capitalised_inv in Hw as (U & l & ls & -> & HU & Hl & Hls).
  assert (Hall : all is_lower_az (String l ls) = true) by (simpl; by rewrite Hl).
  unfold camelWord, capitalize.
  change (toLowerCase (String U (String l ls)))
    with (String (toLowerChar U) (toLowerCase (String l ls))).
  rewrite (toLowerCase_lower _ Hall).
  change (toLowerCase (String (toLowerChar U) (String l ls)))
    with (String (toLowerChar (toLowerChar U)) (toLowerCase (String l ls))).
  rewrite (toLowerCase_lower _ Hall). cbn [upperFirst].
  by destruct (upper_az_facts U HU) as (_ & _ & _ & _ & _ & _ & -> & _).
Qed.

Lemma map_camelWord ws : forallb capitalised ws = true -> List.map camelWord ws = ws.
Proof.
  induction ws as [|w ws IH]; [done|]. cbn [forallb List.map]. intros H.
  apply andb_prop in H as [Hw Hws]. by rewrite camelWord_capitalised, IH.
Qed.

(** A concatenation of capitalised words is a fixed point. *)
Lemma upperFirstCamelCase_capitalised ws :
  forallb capitalised ws = true -> upperFirstCamelCase (flat ws) = flat ws.
Proof.
  intros Hws. unfold upperFirstCamelCase. rewrite camelCase_words. unfold reApos.
  rewrite replaceAll_Class, (deburr_alpha _ (flat_alpha _ Hws)).
  rewrite filter_all.
  2:{ eapply all_impl, (flat_alpha _ Hws). intros c Hc. by destruct (alpha_az_facts c Hc). }
  rewrite (words_capitalised _ Hws).
  destruct ws as [|w ws]; [reflexivity|].
  cbn [forallb] in Hws. apply andb_prop in Hws as [Hw Hws].
  rewrite concat_flat, (map_camelWord _ Hws). cbn [flat fold_right]. fold (flat ws).
  apply capitalised_inv in Hw as (U & l & ls & -> & HU & Hl & Hls).
  assert (Hall : all is_lower_az (String l ls) = true) by (simpl; by rewrite Hl).
  change (toLowerCase (String U (String l ls)))
    with (String (toLowerChar U) (toLowerCase (String l ls))).
  rewrite (toLowerCase_lower _ Hall). simpl.
  by destruct (upper_az_facts U HU) as (_ & _ & _ & _ & _ & -> & _).
Qed.

(** C9, as the code has it.  A concatenation of capitalised words, each an
    upper-case ASCII letter followed by one or more lower-case ASCII
    letters, is a fixed point of [upperFirstCamelCase]; so
    [upperFirstCamelCase] applied twice gives the same as applied once on
    every input whose image is such a concatenation. *)
Theorem upperFirstCamelCase_idempotent_on_capitalised_words (ws : list string) :
  forallb capitalised ws = true ->
  upperFirstCamelCase (flat ws) = flat ws
  /\ forall s, upperFirstCamelCase s = flat ws ->
       upperFirstCamelCase (upperFirstCamelCase s) = upperFirstCamelCase s.
Proof.
  intros Hws. split; [by apply upperFirstCamelCase_capitalised|].
  intros s ->. by apply upperFirstCamelCase_capitalised.
Qed.

(** C9 on [foo bar], whose image [FooBar] is made of two capitalised
    words. *)
Lemma upperFirstCamelCase_idempotent_on_capitalised_words_witness :
  forallb capitalised ["Foo"; "Bar"] = true
  /\ upperFirstCamelCase "foo bar" = "FooBar"
  /\ upperFirstCamelCase "FooBar" = "FooBar"
  /\ upperFirstCamelCase (upperFirstCamelCase "foo bar") = upperFirstCamelCase "foo bar".
Proof.
  split; [reflexivity|]. split; [reflexivity|].
  destruct (upperFirstCamelCase_idempotent_on_capitalised_words ["Foo"; "Bar"] eq_refl)
    as [Hfix Hidem].
  split; [exact Hfix|]. apply Hidem. reflexivity.
Defined.

(** C9 as the spec words it fails on [a b c]: it becomes [ABC], which
    lodash reads as one word and turns into [Abc], so the second
    application changes the result of the first. *)
Lemma upperFirstCamelCase_is_not_idempotent :
  upperFirstCamelCase "a b c" = "ABC"
  /\ upperFirstCamelCase (upperFirstCamelCase "a b c") = "Abc"
  /\ upperFirstCamelCase (upperFirstCamelCase "a b c") <> upperFirstCamelCase "a b c".
Proof.
  split; [reflexivity|]. split; [reflexivity|]. vm_compute. discriminate.
Qed.

End UpperFirstCamelCaseFacts.

(** ** The needle of [addIcon] *)

Module NeedleFacts.
Import JsString Regex NeedleClientAngular StringFacts RegexFacts.
#[local] Arguments String.append !_ _ / : simpl nomatch.

Lemma needle_match_inv x y :
  matchAt reIconNeedle x = Some y ->
  exists lineBreak indentation,
    after x = lineBreak ++ indentation ++ needleComment ++ after y
    /\ (lineBreak = newline \/ lineBreak = String CR newline)
    /\ all is_space indentation = true.
Proof.
  unfold matchAt, reIconNeedle, Opt. cbn [run].
  destruct (run (Chr CR) x _) as [w|] eqn:E.
  - intros [= ->]. unfold Chr in E.
    apply run_Class_inv in E as (c & t & Hx & Hc & E). apply Ascii.eqb_eq in Hc. subst c.
    apply run_Class_inv in E as (c & t' & Ht & Hc & E). apply Ascii.eqb_eq in Hc. subst c.
    cbn [after] in Ht. subst t.
    apply starLoop_Class_inv in E as (ws & rest & Ht' & Hall & E).
    apply run_Lit_inv in E as (rest' & Hrest & [= <-]). cbn [after] in *.
    exists (String CR newline), ws. split; [|auto].
    rewrite Hx, Ht', Hrest. reflexivity.
  - clear E. intros E. unfold Chr in E.
    apply run_Class_inv in E as (c & t & Hx & Hc & E). apply Ascii.eqb_eq in Hc. subst c.
    apply starLoop_Class_inv in E as (ws & rest & Ht' & Hall & E).
    apply run_Lit_inv in E as (rest' & Hrest & [= <-]). cbn [after] in *.
    exists newline, ws. split; [|auto].
    rewrite Hx, Ht', Hrest. reflexivity.
Qed.

Lemma needle_match_fwd b s : needleLineAt s -> exists y, matchAt reIconNeedle (Pos b s) = Some y.
Proof.
  intros (nl & ws & rest & -> & Hnl & Hall).
  assert (Htail : forall b',
    run (Seq (Star (Class is_space)) (Lit needleComment))
        (Pos b' (ws ++ needleComment ++ rest)) Some
    = Some (Pos (lastOr (lastOr b' ws) needleComment) rest)).
  { intros b'. cbn [run]. cbn [after]. apply starLoop_greedy; [done|done|done|].
    apply (run_Lit needleComment (lastOr b' ws) rest Some). }
  unfold matchAt, reIconNeedle, Opt, Chr.
  destruct Hnl as [->| ->].
  - change (newline ++ ws ++ needleComment ++ rest)
      with (String LF (ws ++ needleComment ++ rest)).
    rewrite run_Seq, run_Seq, run_Alt, run_Class.
    change (Ascii.eqb CR LF) with false. cbv iota.
    rewrite run_Empty, run_Class, Ascii.eqb_refl, Htail. eauto.
  - change (String CR newline ++ ws ++ needleComment ++ rest)
      with (String CR (String LF (ws ++ needleComment ++ rest))).
    rewrite run_Seq, run_Seq, run_Alt, run_Class, Ascii.eqb_refl.
    rewrite run_Class, Ascii.eqb_refl, Htail. eauto.
Qed.


Lemma consumes_reIconNeedle : consumes reIconNeedle = true.
Proof. reflexivity. Qed.

Lemma scan_rewrites by_ : forall n b s,
  String.length s < n ->
  Rewrites by_ s (fold_right (fun seg acc => fst seg ++ by_ ++ acc)
                    (snd (scan n reIconNeedle b s)) (fst (scan n reIconNeedle b s))).
Proof.
  induction n as [|n IH]; intros b s Hn; [lia|].
  rewrite scan_step by reflexivity.
  destruct (search reIconNeedle b s) as [f|] eqn:E.
  - destruct (search_sound _ _ _ _ E) as (Hs & Hmatch & Hleft).
    destruct (search_shorter _ _ _ _ consumes_reIconNeedle E) as [_ Hlt].
    destruct (needle_match_inv _ _ Hmatch) as (nl & ws & Hshape & Hnl & Hws).
    cbn [after] in Hshape.
    specialize (IH (before (stop f)) (after (stop f)) ltac:(lia)).
    destruct (scan n reIconNeedle (before (stop f)) (after (stop f))) as [gs tl].
    cbn [fst snd fold_right] in *.
    rewrite Hs at 1. rewrite Hshape.
    apply Rewrites_needle; [exact Hnl|exact Hws| |exact IH].
    intros a c Hac Hc Hline. rewrite <- Hshape in Hline.
    destruct (needle_match_fwd (lastOr b a) _ Hline) as [y Hy].
    rewrite (Hleft a c Hac Hc) in Hy. discriminate.
  - cbn [fst snd fold_right]. apply Rewrites_none.
    intros a c Hac Hline.
    destruct (needle_match_fwd (lastOr b a) _ Hline) as [y Hy].
    rewrite (search_none_inv _ _ _ _ _ E Hac) in Hy. discriminate.
Qed.

End NeedleFacts.

(** ** [addIcon] *)

Module AddIconFacts.
Import JsString Regex Lodash Naming NeedleClientAngular StringFacts RegexFacts LodashFacts NeedleFacts.
#[local] Arguments String.append !_ _ / : simpl nomatch.

Lemma alphabet_noSlash c :
  alphabet reUnicodeWord c = true \/ alphabet reAsciiWord c = true -> noSlash c = true.
Proof.
  destruct c as [[] [] [] [] [] [] [] []]; vm_compute; intros [H|H];
    (reflexivity || discriminate H).
Qed.

Lemma case_noSlash c : noSlash c = true ->
  noSlash (toLowerChar c) = true /\ noSlash (toUpperChar c) = true.
Proof.
  destruct c as [[] [] [] [] [] [] [] []]; vm_compute; intros H;
    try discriminate H; by split.
Qed.

Lemma toLowerCase_noSlash s : all noSlash s = true -> all noSlash (toLowerCase s) = true.
Proof.
  unfold toLowerCase. induction s as [|c s IH]; simpl; [done|]. intros H.
  apply andb_prop in H as [Hc Hs]. destruct (case_noSlash c Hc) as [-> _]. by rewrite IH.
Qed.

Lemma upperFirst_noSlash s : all noSlash s = true -> all noSlash (upperFirst s) = true.
Proof.
  destruct s as [|c s]; simpl; [done|]. intros H.
  apply andb_prop in H as [Hc Hs]. destruct (case_noSlash c Hc) as [_ ->]. by rewrite Hs.
Qed.

Lemma words_noSlash s w : In w (words s) -> all noSlash w = true.
Proof.
  unfold words, unicodeWords, asciiWords. destruct (hasUnicodeWord s); intros Hin.
  - destruct (matchAll_matches _ _ _ consumes_reUnicodeWord Hin) as [H _].
    eapply all_impl, H. intros c Hc. apply alphabet_noSlash. by left.
  - destruct (matchAll_matches _ _ _ consumes_reAsciiWord Hin) as [H _].
    eapply all_impl, H. intros c Hc. apply alphabet_noSlash. by right.
Qed.

Lemma concat_noSlash ws :
  (forall w, In w ws -> all noSlash w = true) -> all noSlash (String.concat "" ws) = true.
Proof.
  induction ws as [|w ws IH]; intros H; [done|].
  destruct ws as [|w' ws].
  - apply H. by left.
  - change (String.concat "" (w :: w' :: ws)) with (w ++ String.concat "" (w' :: ws)).
    rewrite all_append, (H w) by (by left). apply IH. intros v Hv. apply H. by right.
Qed.

Lemma camelCase_noSlash s : all noSlash (camelCase s) = true.
Proof.
  rewrite camelCase_words.
  pose proof (words_noSlash (replaceAll reApos "" (deburr s))) as H.
  destruct (words _) as [|w ws]; [done|].
  rewrite all_append, toLowerCase_noSlash by (apply H; by left).
  apply concat_noSlash. intros v Hv. apply in_map_iff in Hv as (u & <- & Hu).
  unfold camelWord, capitalize.
  apply upperFirst_noSlash, toLowerCase_noSlash, toLowerCase_noSlash, H. by right.
Qed.

Lemma iconImport_noSlash iconName : all noSlash (iconImport iconName) = true.
Proof.
  unfold iconImport, upperFirstCamelCase. rewrite all_append.
  by rewrite upperFirst_noSlash by apply camelCase_noSlash.
Qed.

(** *** Counting the needle *)

Lemma startsWith_cut c p : all (neg (Ascii.eqb c)) p = true ->
  forall a b, startsWith p (a ++ String c b) = startsWith p a.
Proof.
  induction p as [|q p IH]; intros Hp a b; [by destruct a|].
  simpl in Hp. apply andb_prop in Hp as [Hq Hp].
  destruct a as [|x a]; simpl.
  - unfold neg in Hq. rewrite Ascii.eqb_sym. by destruct (Ascii.eqb c q).
  - by rewrite IH.
Qed.

Lemma count_cut c : all (neg (Ascii.eqb c)) needleComment = true ->
  forall a b, count needleComment (a ++ String c b)
              = count needleComment a + count needleComment (String c b).
Proof.
  intros Hc a b. induction a as [|x a IH]; [reflexivity|].
  change (String x a ++ String c b) with (String x (a ++ String c b)).
  change (count needleComment (String x (a ++ String c b)))
    with ((if startsWith needleComment (String x a ++ String c b) then 1 else 0)
          + count needleComment (a ++ String c b)).
  rewrite (startsWith_cut c _ Hc), IH.
  change (count needleComment (String x a))
    with ((if startsWith needleComment (String x a) then 1 else 0) + count needleComment a).
  lia.
Qed.

Lemma count_noSlash c t : noSlash c = true ->
  count needleComment (String c t) = count needleComment t.
Proof.
  intros Hc.
  change (count needleComment (String c t))
    with ((if Ascii.eqb "/" c && startsWith "/ jhipster-needle-add-icon-import" t
           then 1 else 0) + count needleComment t).
  unfold noSlash, neg in Hc. by destruct (Ascii.eqb "/" c).
Qed.

Lemma count_skip ws s : all noSlash ws = true ->
  count needleComment (ws ++ s) = count needleComment s.
Proof.
  induction ws as [|c ws IH]; [done|]. intros H.
  change (all noSlash (String c ws)) with (noSlash c && all noSlash ws) in H.
  apply andb_prop in H as [Hc Hws].
  change (String c ws ++ s) with (String c (ws ++ s)).
  by rewrite count_noSlash, IH.
Qed.

Lemma count_needle rest :
  count needleComment (needleComment ++ rest) = S (count needleComment rest).
Proof. reflexivity. Qed.

Lemma space_noSlash s : all is_space s = true -> all noSlash s = true.
Proof.
  apply all_impl. intros c. destruct c as [[] [] [] [] [] [] [] []]; vm_compute; done.
Qed.


Lemma needle_has_no_line_break :
  all (neg (Ascii.eqb LF)) needleComment = true
  /\ all (neg (Ascii.eqb CR)) needleComment = true.
Proof. by split. Qed.

Lemma count_lineBreak a lineBreak rest :
  lineBreak = newline \/ lineBreak = String CR newline ->
  count needleComment (a ++ lineBreak ++ rest)
  = count needleComment a + count needleComment rest.
Proof.
  destruct needle_has_no_line_break as [HLF HCR].
  intros [->| ->].
  - change (newline ++ rest) with (String LF rest).
    by rewrite (count_cut LF HLF), count_noSlash.
  - change (String CR newline ++ rest) with (String CR (String LF rest)).
    by rewrite (count_cut CR HCR), !count_noSlash.
Qed.

(** Rewriting the needle lines by a text that holds the needle once, after
    a line break, keeps the number of needles. *)
Lemma Rewrites_count icon indentPrefix content result :
  all noSlash icon = true -> all is_space indentPrefix = true ->
  Rewrites (replacement icon indentPrefix) content result ->
  count needleComment result = count needleComment content.
Proof.
  intros Hicon Hip. induction 1 as [|before lineBreak indentation rest result Hnl Hws _ _ IH];
    [reflexivity|].
  rewrite (count_lineBreak before lineBreak) by done.
  rewrite (count_skip indentation) by by apply space_noSlash.
  rewrite count_needle. unfold replacement. rewrite !append_assoc.
  rewrite (count_lineBreak before newline) by by left.
  rewrite (count_skip indentPrefix) by by apply space_noSlash.
  rewrite (count_skip icon) by done.
  change ("," ++ newline ++ indentPrefix ++ needleComment ++ result)
    with (String "," (newline ++ indentPrefix ++ needleComment ++ result)).
  rewrite count_noSlash by done.
  change (newline ++ indentPrefix ++ needleComment ++ result)
    with (String LF (indentPrefix ++ needleComment ++ result)).
  rewrite count_noSlash by done.
  rewrite (count_skip indentPrefix) by by apply space_noSlash.
  rewrite count_needle, IH. reflexivity.
Qed.

(** C3, as the code has it.  With a white-space [indentPrefix], the text
    transform of [addIcon] rewrites every needle line, leftmost first and nothing else: a needle
    line is a line break (LF or CR LF), any white space, and the comment
    [// jhipster-needle-add-icon-import]; it becomes LF, [indentPrefix], the
    icon import and a comma, LF, [indentPrefix] and the comment again.  The
    indentation written is the [indentPrefix] received from the needle
    callback, the same for every occurrence.  The result holds the comment
    as many times as the content did. *)
Theorem addIcon_rewrites_every_needle_line iconName content indentPrefix :
  all is_space indentPrefix = true ->
  Rewrites (replacement (iconImport iconName) indentPrefix) content
           (contentToAdd iconName content indentPrefix)
  /\ count needleComment (contentToAdd iconName content indentPrefix)
     = count needleComment content.
Proof.
  intros Hip.
  assert (H : Rewrites (replacement (iconImport iconName) indentPrefix) content
                (contentToAdd iconName content indentPrefix)).
  { unfold contentToAdd. rewrite replaceAll_fold. unfold segments.
    apply scan_rewrites. lia. }
  split; [exact H|].
  eapply Rewrites_count, H; [apply iconImport_noSlash|exact Hip].
Qed.

(** C3 on a text with two needle lines and the indentation of the first. *)
Lemma addIcon_rewrites_every_needle_line_witness :
  all is_space "  " = true
  /\ contentToAdd "user" twoNeedles "  "
  = ("a" ++ newline ++ "  faUser," ++ newline ++ "  " ++ needleComment ++ newline
     ++ "  faUser," ++ newline ++ "  " ++ needleComment ++ newline ++ "b")
  /\ count needleComment twoNeedles = 2
  /\ count needleComment (contentToAdd "user" twoNeedles "  ") = 2.
Proof.
  split; [reflexivity|]. split; [reflexivity|]. split; [reflexivity|].
  destruct (addIcon_rewrites_every_needle_line "user" twoNeedles "  " eq_refl) as [_ ->].
  reflexivity.
Defined.

(** C3 as the spec words it fails in two places.  With two needle lines
    indented differently, no [indentPrefix] makes the transform write each
    import at the indentation of its own needle line; and a needle on the
    first line of the text, which no line break precedes, gets no import at
    all. *)
Lemma indentation_is_not_taken_from_each_needle_line :
  insertBeforeEveryNeedleLine (iconImport "user") twoNeedles
  = ("a" ++ newline ++ "  faUser," ++ newline ++ "  " ++ needleComment ++ newline
     ++ "    faUser," ++ newline ++ "    " ++ needleComment ++ newline ++ "b")
  /\ (forall indentPrefix,
        contentToAdd "user" twoNeedles indentPrefix
        <> insertBeforeEveryNeedleLine (iconImport "user") twoNeedles)
  /\ (forall indentPrefix,
        contentToAdd "user" needleOnFirstLine indentPrefix = needleOnFirstLine).
Proof.
  split; [reflexivity|]. split.
  - intros ip H. unfold contentToAdd in H. rewrite replaceAll_fold in H.
    let x := eval vm_compute in (segments reIconNeedle twoNeedles) in
    change (segments reIconNeedle twoNeedles) with x in H.
    let x := eval vm_compute in (insertBeforeEveryNeedleLine (iconImport "user") twoNeedles) in
    change (insertBeforeEveryNeedleLine (iconImport "user") twoNeedles) with x in H.
    let x := eval vm_compute in (iconImport "user") in
    change (iconImport "user") with x in H.
    cbn [fst snd fold_right] in H. unfold replacement in H.
    assert (Hlen : String.length ip = 3).
    { apply (f_equal String.length) in H. rewrite !length_append in H.
      simpl String.length in H. lia. }
    destruct ip as [|c1 [|c2 [|c3 [|c4 ip]]]]; try discriminate Hlen.
    simpl in H. congruence.
  - intros ip. unfold contentToAdd. rewrite replaceAll_fold. reflexivity.
Qed.

End AddIconFacts.

(** ** [writeFiles] *)

Module WriteFilesFacts.
Import JsString WriteFiles.
Local Open Scope list_scope.

Lemma addTrace_nil st : addTrace st [] = st.
Proof. destruct st; unfold addTrace; simpl. by rewrite app_nil_r. Qed.

Lemma addTrace_app st a b : addTrace (addTrace st a) b = addTrace st (a ++ b).
Proof. unfold addTrace; simpl. by rewrite app_assoc. Qed.

Lemma emit_run e st : emit e st = (addTrace st [e], Ok tt).
Proof. reflexivity. Qed.

Lemma bind_run {A B : Type} (m : M A) (k : A -> M B) st :
  bind m k st = match m st with
                | (st', Ok a) => k a st'
                | (st', Throw e) => (st', Throw e)
                end.
Proof. reflexivity. Qed.

(** Name the outcome of the computation that a [bind] runs first. *)
Ltac step st' r E :=
  rewrite bind_run;
  match goal with
  | |- context [match ?m ?st with _ => _ end] =>
      destruct (m st) as [st' r] eqn:E
  end.

Section Lookup.
Variable host : Host.
Variable t : Template.

Lemma existingTemplates_run roots st :
  existingTemplates host t roots st =
    (addTrace st (List.map (fun r => ExistsSync (lookedFor host t r)) roots),
     Ok (List.map (fun r => templatePath host r (sourceFile t))
                  (List.filter (foundIn host t) roots))).
Proof.
  unfold existingTemplates. revert st.
  induction roots as [|r roots IH]; intros st; simpl.
  - by rewrite addTrace_nil.
  - unfold bind at 1. unfold existsSync at 1. unfold bind at 1. rewrite emit_run.
    unfold ret at 1. unfold bind at 1. rewrite IH. unfold bind, ret. simpl.
    rewrite addTrace_app. simpl.
    unfold foundIn, lookedFor.
    by destruct (onDisk host _).
Qed.


Lemma lookupTemplate_array roots st :
  let existing := List.map (fun r => templatePath host r (sourceFile t))
                           (List.filter (foundIn host t) roots) in
  let probes := List.map (fun r => ExistsSync (lookedFor host t r)) roots in
  lookupTemplate host (RootsArray roots) t st =
    match existing with
    | first :: _ => (addTrace st (probes ++ diagnostics host t existing), Ok first)
    | [] => (addTrace st probes,
             Throw (JsError ("Template file " +:+ sourceFile t +:+ " was not found at "
                             +:+ JsString.join "," roots)))
    end.
Proof.
  intros existing probes. unfold lookupTemplate.
  unfold bind at 1. rewrite existingTemplates_run. fold existing probes.
  unfold diagnostics.
  destruct existing as [|first rest] eqn:E.
  - reflexivity.
  - destruct (1 <? List.length (first :: rest))%nat eqn:E1.
    + destruct (2 <? List.length (first :: rest))%nat eqn:E2;
        unfold bind, ret; rewrite emit_run, addTrace_app; reflexivity.
    + unfold bind, ret. simpl. by rewrite app_nil_r.
Qed.


End Lookup.




Lemma reseed_nil seed st : reseed seed [] st = st.
Proof. destruct st; unfold reseed; simpl. by rewrite app_nil_r. Qed.

Lemma reseed_cons seed e l st :
  reseed seed (e :: l) st = reseed seed l (reseed seed [e] st).
Proof. unfold reseed; simpl. by rewrite <- app_assoc. Qed.

Lemma reseed_app seed a b st :
  reseed seed (a ++ b) st = reseed seed b (reseed seed a st).
Proof.
  unfold reseed; simpl. rewrite fold_left_app, List.map_app. by rewrite app_assoc.
Qed.


Lemma reseed_memFs seed l st : memFs (reseed seed l st) = memFs st.
Proof. reflexivity. Qed.


Section Render.
Variable host : Host.
Variable this : Generator.
Variable context : Context.
Variable roots : Roots.

Lemma forEach_resetFakerSeed seed l st :
  forEach (resetFakerSeed seed) l st = (reseed seed l st, Ok tt).
Proof.
  revert st. induction l as [|e l IH]; intros st; simpl.
  - unfold ret. by rewrite reseed_nil.
  - unfold bind at 1. unfold resetFakerSeed at 1. unfold bind at 1.
    rewrite emit_run. rewrite IH. rewrite (reseed_cons seed e l). reflexivity.
Qed.

Lemma renderTemplateWith_run mode source target data st :
  renderTemplateWith host roots mode source target data st =
    match disk host !! source with
    | Some template =>
        (written (destinationPath1 host target) (ejs host template data)
           (addTrace st [RenderTemplate mode source target data roots]), Ok tt)
    | None =>
        (addTrace st [RenderTemplate mode source target data roots],
         Throw (JsError ("Trying to copy from a source that does not exist: " +:+ source)))
    end.
Proof.
  unfold renderTemplateWith, bind. rewrite emit_run.
  by destruct (disk host !! source).
Qed.

Lemma copyTemplateAsync_run source target st :
  copyTemplateAsync host source target st =
    match disk host !! source with
    | Some content =>
        (written (destinationPath1 host target) content
           (addTrace st [CopyTemplate source target]), Ok tt)
    | None =>
        (addTrace st [CopyTemplate source target],
         Throw (JsError ("Trying to copy from a source that does not exist: " +:+ source)))
    end.
Proof.
  unfold copyTemplateAsync, bind. rewrite emit_run.
  by destruct (disk host !! source).
Qed.

Lemma editFile_run target callbacks st :
  editFile host target callbacks st =
    match memFs st !! destinationPath1 host target with
    | Some content =>
        (written (destinationPath1 host target)
           (fold_left (fun acc f => f acc) callbacks content)
           (addTrace st [EditFile target callbacks]), Ok tt)
    | None =>
        (addTrace st [EditFile target callbacks],
         Throw (JsError ("Unable to edit file " +:+ target)))
    end.
Proof.
  unfold editFile, bind. rewrite emit_run. unfold getState. simpl.
  by destruct (memFs st !! destinationPath1 host target).
Qed.

Lemma renderEjs_run source target st :
  renderEjs host this context roots source target st =
    if truthyField (entityClass context)
    then if truthyField (baseName context)
         then renderTemplateWith host roots Sync source target context
                (reseed (fakerSeedFor host context (default "" (entityClass context)) source)
                        (sharedEntities this) st)
         else (st, Throw (JsError "baseName is require at templates context"))
    else renderTemplateWith host roots Async source target context st.
Proof.
  unfold renderEjs.
  destruct (truthyField (entityClass context)); [|reflexivity].
  destruct (truthyField (baseName context)); [|reflexivity].
  unfold bind, ret. rewrite forEach_resetFakerSeed, forEach_resetFakerSeed.
  unfold sharedEntities. by rewrite reseed_app.
Qed.





End Render.

(** ** C1: precedence of the template roots *)

Section RootPrecedence.
Variable host : Host.
Variable this : Generator.
Variable context : Context.


End RootPrecedence.



(** ** C8: diagnostics of the lookup *)

Lemma renderTemplate_found host this context roots t target found st st1 :
  targetFile host context t = Ok target ->
  lookupTemplate host roots t st = (st1, Ok found) ->
  renderTemplate host this context roots t st
  = renderFound host this context roots t target (withEjs host t found) st1.
Proof.
  intros Htarget Hlookup. unfold renderTemplate.
  rewrite bind_run, Htarget. simpl. by rewrite bind_run, Hlookup.
Qed.

(** C8.  A source found in more than two roots makes the lookup log one
    warning, [Possible blueprint conflict detected: ...]; a source found in
    exactly two roots makes it log the same text at debug level and no
    warning.  In both cases the lookup succeeds with the first match and the
    task goes on with that file. *)
Theorem override_conflict_diagnostics host this context (roots : list string) t target st :
  targetFile host context t = Ok target ->
  let found := List.filter (foundIn host t) roots in
  let message := moreThanOneMessage host t
                   (List.map (fun r => templatePath host r (sourceFile t)) found) in
  let probes := List.map (fun r => ExistsSync (lookedFor host t r)) roots in
  (2 < List.length found ->
   exists first,
     head found = Some first
     /\ lookupTemplate host (RootsArray roots) t st
        = (addTrace st (probes ++ [LoggerWarn ("Possible blueprint conflict detected: "
                                               +:+ message)]),
           Ok (templatePath host first (sourceFile t)))
     /\ renderTemplate host this context (RootsArray roots) t st
        = renderFound host this context (RootsArray roots) t target (lookedFor host t first)
            (addTrace st (probes ++ [LoggerWarn ("Possible blueprint conflict detected: "
                                                 +:+ message)])))
  /\
  (List.length found = 2 ->
   exists first,
     head found = Some first
     /\ lookupTemplate host (RootsArray roots) t st
        = (addTrace st (probes ++ [LoggerDebug message]),
           Ok (templatePath host first (sourceFile t)))
     /\ existsb isWarning (probes ++ [LoggerDebug message]) = false
     /\ renderTemplate host this context (RootsArray roots) t st
        = renderFound host this context (RootsArray roots) t target (lookedFor host t first)
            (addTrace st (probes ++ [LoggerDebug message]))).
Proof.
  intros Htarget found message probes.
  pose proof (lookupTemplate_array host t roots st) as Hlookup. cbv zeta in Hlookup.
  fold found probes in Hlookup. unfold diagnostics in Hlookup.
  rewrite List.length_map in Hlookup. fold message in Hlookup.
  split; intros Hlen.
  - replace (1 <? List.length found)%nat with true in Hlookup
      by (symmetry; apply Nat.ltb_lt; lia).
    replace (2 <? List.length found)%nat with true in Hlookup
      by (symmetry; apply Nat.ltb_lt; lia).
    destruct found as [|first rest] eqn:Hfound; [simpl in Hlen; lia|].
    exists first. split; [reflexivity|].
    cbn [List.map] in Hlookup. split; [exact Hlookup|].
    by rewrite (renderTemplate_found _ _ _ _ _ _ _ _ _ Htarget Hlookup).
  - rewrite Hlen in Hlookup.
    change (1 <? 2)%nat with true in Hlookup. change (2 <? 2)%nat with false in Hlookup.
    destruct found as [|first rest] eqn:Hfound; [simpl in Hlen; lia|].
    exists first. split; [reflexivity|].
    cbn [List.map] in Hlookup.
    split; [exact Hlookup|]. split.
    + rewrite existsb_app. simpl. rewrite orb_false_r.
      clear. subst probes. induction roots; simpl; auto.
    + by rewrite (renderTemplate_found _ _ _ _ _ _ _ _ _ Htarget Hlookup).
Qed.

(** C8 on the fixtures: [src/c.txt] lies in the three folders, so the lookup
    warns and answers with the blueprint's file. *)
Lemma override_conflict_diagnostics_witness :
  targetFile Fixtures.host Fixtures.plainContext (Fixtures.task "src/c.txt" "/project/c.txt")
    = Ok "/project/c.txt"
  /\ exists st1 message,
       lookupTemplate Fixtures.host (RootsArray Fixtures.roots)
         (Fixtures.task "src/c.txt" "/project/c.txt") Fixtures.initial
       = (st1, Ok "/blueprint/templates/src/c.txt")
       /\ last (trace st1) = Some (LoggerWarn message).
Proof.
  split; [reflexivity|].
  pose proof (override_conflict_diagnostics Fixtures.host Fixtures.generator
                Fixtures.plainContext Fixtures.roots
                (Fixtures.task "src/c.txt" "/project/c.txt")
                "/project/c.txt" Fixtures.initial eq_refl) as H.
  destruct H as [H _].
  destruct H as (first & Hfirst & Hlookup & _); [vm_compute; lia|].
  injection Hfirst as <-.
  eexists. eexists. split; [exact Hlookup|]. reflexivity.
Defined.

(** ** C5: entity-scoped renders *)




(** ** C2: validation of the request *)

Lemma raisesOther_ret {A : Type} (a : A) : raisesOther (ret a).
Proof. intros st st' e [= _ H]. Qed.

Lemma raisesOther_throw {A : Type} (e : Error) : otherError e -> raisesOther (@throw A e).
Proof. intros He st st' e' [= _ <-]. exact He. Qed.

Lemma raisesOther_emit ev : raisesOther (emit ev).
Proof. intros st st' e [= _ H]. Qed.

Lemma raisesOther_bind {A B : Type} (m : M A) (k : A -> M B) :
  raisesOther m -> (forall a, raisesOther (k a)) -> raisesOther (bind m k).
Proof.
  intros Hm Hk st st' e. rewrite bind_run.
  destruct (m st) as [st1 [a|e1]] eqn:E.
  - apply Hk.
  - intros [= <- <-]. eapply Hm, E.
Qed.

Lemma raisesOther_lift {A : Type} (r : Result A) :
  (forall e, r = Throw e -> otherError e) -> raisesOther (lift r).
Proof. intros H st st' e [= _ ->]. by apply H. Qed.

Lemma raisesOther_mapM {A B : Type} (f : A -> nat -> M B) l i :
  (forall a n, raisesOther (f a n)) -> raisesOther (mapM f i l).
Proof.
  intros Hf. revert i. induction l as [|x l IH]; intros i; simpl.
  - apply raisesOther_ret.
  - apply raisesOther_bind; [apply Hf|]. intros y.
    apply raisesOther_bind; [apply IH|]. intros ys. apply raisesOther_ret.
Qed.

Lemma raisesOther_forEach {A : Type} (f : A -> M unit) l :
  (forall a, raisesOther (f a)) -> raisesOther (forEach f l).
Proof.
  intros Hf. induction l as [|x l IH]; simpl.
  - apply raisesOther_ret.
  - apply raisesOther_bind; [apply Hf|]. intros _. apply IH.
Qed.

Lemma raisesOther_filterM {A : Type} (f : A -> M bool) (l : list A) :
  (forall a, raisesOther (f a)) -> raisesOther (filterM f l).
Proof.
  intros Hf. induction l as [|x l IH]; simpl.
  - apply raisesOther_ret.
  - apply raisesOther_bind; [apply Hf|]. intros keep.
    apply raisesOther_bind; [apply IH|]. intros ys. apply raisesOther_ret.
Qed.

Lemma resolveCallback_other context val fallback e :
  resolveCallback context val fallback = Throw e -> otherError e.
Proof.
  destruct val; simpl; try discriminate.
  - destruct fallback; discriminate.
  - by intros [= <-].
Qed.

Lemma asPath_other v e : asPath v = Throw e -> otherError e.
Proof. destruct v; simpl; try discriminate; by intros [= <-]. Qed.

Lemma rbind_other {A B : Type} (r : Result A) (k : A -> Result B) e :
  rbind r k = Throw e ->
  (forall e', r = Throw e' -> otherError e') ->
  (forall a e', k a = Throw e' -> otherError e') ->
  otherError e.
Proof.
  destruct r as [a|e1]; simpl; intros H Hr Hk.
  - eapply Hk, H.
  - injection H as <-. by apply Hr.
Qed.

(** Solves goals on the errors of a computation that only fails. *)
Ltac rother :=
  repeat match goal with
    | |- rbind ?r ?k = Throw _ -> _ =>
        let H := fresh in
        intro H; apply (rbind_other _ _ _ H); [intros ?|intros ? ?; cbv beta]
    | |- resolveCallback _ _ _ = Throw _ -> _ => apply resolveCallback_other
    | |- asPath _ = Throw _ -> _ => apply asPath_other
    | |- Ok _ = Throw _ -> _ => discriminate
    end.

(** Solves [raisesOther] goals by following the structure of the
    computation. *)
Ltac other :=
  repeat match goal with
    | |- raisesOther (ret _) => apply raisesOther_ret
    | |- raisesOther (emit _) => apply raisesOther_emit
    | |- raisesOther (throw _) => apply raisesOther_throw; first [exact I | reflexivity]
    | |- raisesOther (bind _ _) => apply raisesOther_bind; [|intros ?]
    | |- raisesOther (forEach _ _) => apply raisesOther_forEach; intros ?
    | |- raisesOther (filterM _ _) => apply raisesOther_filterM; intros ?
    | |- raisesOther (mapM _ _ _) => apply raisesOther_mapM; intros ? ?
    | |- raisesOther (lift _) => apply raisesOther_lift; intros ? ?
    | |- raisesOther (match ?x with _ => _ end) => destruct x
    | H : resolveCallback _ _ _ = Throw _ |- _ => exact (resolveCallback_other _ _ _ _ H)
    | H : asPath _ = Throw _ |- _ => exact (asPath_other _ _ H)
    end.

Lemma raisesOther_renderTemplate host this context roots t :
  raisesOther (renderTemplate host this context roots t).
Proof.
  unfold renderTemplate, renderFound, produce, applyTransforms, renderEjs, lookupTemplate,
    existingTemplates,
    copyTemplateAsync, renderTemplateWith, editFile, resetFakerSeed, existsSync, getState.
  other; try (intros ? ? ? Hpure; unfold writeFile in Hpure; discriminate Hpure).
  revert H. unfold targetFile. destruct (destinationFile t); [discriminate|].
  simpl. intros H. eapply asPath_other, H.
Qed.

Lemma settle_other {B : Type} (rs : list (Result B)) e :
  settle rs = Throw e -> exists r, In r rs /\ r = Throw e.
Proof.
  induction rs as [|[b|e1] rs IH]; simpl; [discriminate| |].
  - destruct (settle rs) as [bs|e2]; simpl; [discriminate|].
    intros [= <-]. destruct (IH eq_refl) as (r & Hin & Hr). eauto.
  - intros [= <-]. eauto.
Qed.

Lemma startAll_results {A B : Type} (f : A -> M B) l st st' rs r :
  startAll f l st = (st', rs) -> In r rs ->
  exists x st1 st2, In x l /\ f x st1 = (st2, r).
Proof.
  revert st st' rs. induction l as [|x l IH]; intros st st' rs; simpl.
  - intros [= <- <-] [].
  - destruct (f x st) as [st1 r1] eqn:E1.
    destruct (startAll f l st1) as [st2 rs2] eqn:E2.
    intros [= <- <-] [<-|Hin].
    + exists x, st, st1. auto.
    + destruct (IH _ _ _ E2 Hin) as (y & sa & sb & Hy & Hf). exists y, sa, sb. auto.
Qed.

Lemma raisesOther_promiseAll {A B : Type} (f : A -> M B) l :
  (forall a, raisesOther (f a)) -> raisesOther (promiseAll f l).
Proof.
  intros Hf st st' e. unfold promiseAll.
  destruct (startAll f l st) as [st1 rs] eqn:E. intros [= <- Hs].
  apply settle_other in Hs as (r & Hin & ->).
  destruct (startAll_results _ _ _ _ _ _ E Hin) as (x & sa & sb & _ & Hx).
  eapply Hf, Hx.
Qed.

Lemma raisesOther_parseFile host context method section blockPath blockTo blockTransform
    blockRenameTo fileSpec :
  raisesOther (parseFile host context method section blockPath blockTo blockTransform
                 blockRenameTo fileSpec).
Proof.
  unfold parseFile, fsExists, getState.
  other; try (intros ? ? ? Hpure; discriminate Hpure).
  - revert H. unfold blockDerived. destruct blockTransform; try discriminate.
    by intros [= <-].
  - revert H. unfold fileDerived. destruct (file_transform o); try discriminate.
    by intros [= <-].
  - revert H. unfold filePaths. rother.
Qed.

Lemma raisesOther_parseBlock host context method section block blockIdx :
  raisesOther (parseBlock host context method section block blockIdx).
Proof.
  unfold parseBlock.
  other; try apply raisesOther_mapM; try (intros; apply raisesOther_parseFile).
Qed.

Lemma raisesOther_parseBlocks host context method section l :
  raisesOther (parseBlocks host context method section l).
Proof.
  unfold parseBlocks. apply raisesOther_bind; [|intros; apply raisesOther_ret].
  apply raisesOther_mapM. intros block blockIdx. apply raisesOther_parseBlock.
Qed.

Lemma parseSections_other entries e :
  parseSections entries = Throw e -> otherError e.
Proof.
  revert e. induction entries as [|[name value] entries IH]; intros e; [discriminate|].
  cbn [parseSections]. intros H. apply (rbind_other _ _ _ H).
  - intros e'. unfold parseSection. destruct (startsWith "_" name); [discriminate|].
    destruct value; [discriminate|]. by intros [= <-].
  - intros first e' H'. apply (rbind_other _ _ _ H'); [apply IH|discriminate].
Qed.

Lemma raisesOther_parsedTemplatesOf host context method section o :
  raisesOther (parsedTemplatesOf host context method section o).
Proof.
  unfold parsedTemplatesOf.
  other; try apply raisesOther_parseBlocks.
  eapply parseSections_other, H.
Qed.

Lemma rootTemplatesAbsolutePathOf_other host this o e :
  rootTemplatesAbsolutePathOf host this o = Throw e -> otherError e.
Proof.
  unfold rootTemplatesAbsolutePathOf.
  destruct (rootTemplatesPath o); destruct (jhipsterTemplatesFolders this);
    repeat match goal with |- context [if ?b then _ else _] => destruct b end;
    intros H; inversion H; exact I.
Qed.

(** C2.  [writeFiles] counts the keys [sections], [blocks] and [templates]
    that the options carry.  With none or with more than one it raises an
    assertion error (the request is invalid) and leaves the state as it was:
    no lookup, no render, no write and no log happened.  With exactly one,
    whatever it goes on to do, it raises neither of these two errors. *)
Theorem generation_spec_validation host this (o : Options) (st : State) :
  (paramCount o <> 1 ->
   writeFiles host this o st
   = (st, Throw (AssertionError
                   (if (paramCount o =? 0)%nat
                    then "One of sections, blocks or templates is required"
                    else "Only one of sections, blocks or templates must be provided"))))
  /\
  (paramCount o = 1 ->
   forall st' r, writeFiles host this o st = (st', r) ->
     r <> Throw (AssertionError "One of sections, blocks or templates is required")
     /\ r <> Throw (AssertionError "Only one of sections, blocks or templates must be provided")).
Proof.
  split.
  - intros Hcount. unfold writeFiles. rewrite bind_run.
    destruct (paramCount o) as [|[|n]] eqn:E; [reflexivity|congruence|reflexivity].
  - intros Hcount st' r Hrun.
    assert (Hother : forall e, r = Throw e -> otherError e).
    { intros e ->. revert Hrun. unfold writeFiles. rewrite Hcount.
      change (assert (0 <? 1)%nat _) with (@ret unit tt).
      change (assert (1 =? 1)%nat _) with (@ret unit tt).
      revert st st' e.
      change (raisesOther
        (ret tt ;;; ret tt ;;;
         rootTemplatesAbsolutePath <- lift (rootTemplatesAbsolutePathOf host this o) ;;
         parsedTemplates <- parsedTemplatesOf host (default (self this) (optionsContext o))
                              (default [] (optionsTransform o)) (sectionTransformOf o) o ;;
         files <- promiseAll (renderTemplate host this (default (self this) (optionsContext o))
                                rootTemplatesAbsolutePath) parsedTemplates ;;
         emit (LoggerDebug ("Time taken to write files: " +:+ elapsed host +:+ "ms")) ;;;
         ret (List.filter nonEmpty files))).
      other.
      - eapply rootTemplatesAbsolutePathOf_other, H.
      - apply raisesOther_parsedTemplatesOf.
      - apply raisesOther_promiseAll. intros t. apply raisesOther_renderTemplate. }
    split; intros ->; by specialize (Hother _ eq_refl).
Qed.

(** C2 on the fixtures: a request with [sections] and [templates], and a
    request with neither, are refused before anything happens. *)
Lemma generation_spec_validation_witness :
  paramCount Fixtures.twoKeys <> 1
  /\ writeFiles Fixtures.host Fixtures.generator Fixtures.twoKeys Fixtures.initial
     = (Fixtures.initial,
        Throw (AssertionError "Only one of sections, blocks or templates must be provided"))
  /\ paramCount Fixtures.noKey <> 1
  /\ writeFiles Fixtures.host Fixtures.generator Fixtures.noKey Fixtures.initial
     = (Fixtures.initial,
        Throw (AssertionError "One of sections, blocks or templates is required")).
Proof.
  assert (H2 : paramCount Fixtures.twoKeys <> 1) by (vm_compute; lia).
  assert (H0 : paramCount Fixtures.noKey <> 1) by (vm_compute; lia).
  split; [exact H2|]. split.
  - exact (proj1 (generation_spec_validation Fixtures.host Fixtures.generator
                    Fixtures.twoKeys Fixtures.initial) H2).
  - split; [exact H0|].
    exact (proj1 (generation_spec_validation Fixtures.host Fixtures.generator
                    Fixtures.noKey Fixtures.initial) H0).
Defined.

(** ** The planner, file by file *)

Lemma lift_run {A : Type} (r : Result A) st : lift r st = (st, r).
Proof. reflexivity. Qed.

(** What a successful [parseFile] has computed on the way. *)
Lemma parseFile_kept host context method section blockPath blockTo blockTransform
    blockRenameTo fileSpec st st' task :
  parseFile host context method section blockPath blockTo blockTransform blockRenameTo
    fileSpec st = (st', Ok (Some task)) ->
  exists d, blockDerived method section blockTransform fileSpec = Ok d /\
    match fileSpec with
    | FileName name => transform task = Some (snd d) /\ noEjs task = fst d
    | FileObj o =>
        exists d' paths override,
          fileDerived (file_transform o) d = Ok d'
          /\ filePaths host context blockPath blockTo o = Ok paths
          /\ resolveCallback context (file_override o) VUndefined = Ok override
          /\ transform task = Some (snd d')
          /\ noEjs task = noEjsWithMethod (fst d') (file_method o)
          /\ sourceFile task = fst paths
          /\ destinationFile task = DestString (snd paths)
          /\ binary task = file_binary o
    end.
Proof.
  unfold parseFile. rewrite bind_run, lift_run.
  destruct (blockDerived method section blockTransform fileSpec) as [d|e]; [|discriminate].
  intros H. exists d. split; [reflexivity|].
  destruct fileSpec as [name|o].
  - rewrite bind_run, lift_run in H. destruct (asPath blockPath) as [from|e]; [|discriminate].
    rewrite bind_run in H. destruct blockRenameTo as [rename|].
    + injection H as _ <-. auto.
    + rewrite bind_run, lift_run in H. destruct (asPath blockTo) as [to|e]; [|discriminate].
      injection H as _ <-. auto.
  - rewrite bind_run, lift_run in H.
    destruct (fileDerived (file_transform o) d) as [d'|e]; [|discriminate].
    rewrite bind_run, lift_run in H.
    destruct (filePaths host context blockPath blockTo o) as [paths|e]; [|discriminate].
    rewrite bind_run, lift_run in H.
    destruct (resolveCallback context (file_override o) VUndefined) as [override|e];
      [|discriminate].
    exists d', paths, override.
    rewrite bind_run in H.
    match type of H with
    | context [match ?m ?s with _ => _ end] => destruct (m s) as [st1 [[|]|e]] eqn:E
    end; try discriminate.
    injection H as _ <-. simpl. repeat split; reflexivity.
Qed.

(** ** C4: the order of the transforms *)

Lemma produce_writes host this context roots t target source st st1 :
  produce host this context roots t target source st = (st1, Ok tt) ->
  exists content, memFs st1 !! destinationPath1 host target = Some content.
Proof.
  unfold produce. destruct (ejsFile host t).
  - rewrite renderEjs_run.
    destruct (truthyField (entityClass context)).
    + destruct (truthyField (baseName context)); [|discriminate].
      rewrite renderTemplateWith_run.
      destruct (disk host !! source); [|discriminate].
      intros [= <-]. simpl. rewrite lookup_insert_eq. eauto.
    + rewrite renderTemplateWith_run.
      destruct (disk host !! source); [|discriminate].
      intros [= <-]. simpl. rewrite lookup_insert_eq. eauto.
  - rewrite copyTemplateAsync_run.
    destruct (disk host !! source); [|discriminate].
    intros [= <-]. simpl. rewrite lookup_insert_eq. eauto.
Qed.

(** C4, as the code has it.  The chain of a task planned from a block is
    the method-level transforms, then the section-level ones, then the
    block's, then the file's, a tier given as a boolean (or not given)
    adding none.  Once the file is copied or expanded, a task that is not
    binary and has a non-empty chain has exactly that chain applied to the
    written content by one [editFile], first callback first; for a binary
    task nothing is applied. *)
Theorem transform_chain_order :
  (forall host context method section blockPath blockTo blockTransform blockRenameTo
          fileSpec st st' task,
     parseFile host context method section blockPath blockTo blockTransform blockRenameTo
       fileSpec st = (st', Ok (Some task)) ->
     transform task = Some (method ++ section ++ tier blockTransform ++ fileTier fileSpec))
  /\
  (forall host this context roots t target source chain st st1,
     transform t = Some chain ->
     produce host this context roots t target source st = (st1, Ok tt) ->
     exists content,
       memFs st1 !! destinationPath1 host target = Some content
       /\ renderFound host this context roots t target source st
          = (if isBinary host t || bool_decide (chain = [])
             then st1
             else written (destinationPath1 host target)
                    (fold_left (fun acc f => f acc) chain content)
                    (addTrace st1 [EditFile target chain]),
             Ok target)).
Proof.
  split.
  - intros host context method section blockPath blockTo blockTransform blockRenameTo
      fileSpec st st' task H.
    apply parseFile_kept in H as (d & Hd & H).
    assert (Hsnd : snd d = method ++ section ++ tier blockTransform).
    { revert Hd. unfold blockDerived.
      destruct blockTransform; intros Hd; inversion Hd; simpl; by rewrite ?app_nil_r. }
    destruct fileSpec as [name|o].
    + destruct H as [-> _]. simpl. by rewrite Hsnd, ?app_nil_r, <- ?List.app_assoc.
    + destruct H as (d' & paths & override & Hd' & _ & _ & -> & _).
      revert Hd'. unfold fileDerived. simpl.
      destruct (file_transform o); intros Hd'; inversion Hd'; simpl;
        by rewrite Hsnd, ?app_nil_r, <- ?List.app_assoc.
  - intros host this context roots t target source chain st st1 Hchain Hproduce.
    destruct (produce_writes _ _ _ _ _ _ _ _ _ Hproduce) as [content Hcontent].
    exists content. split; [exact Hcontent|].
    unfold renderFound. rewrite bind_run, Hproduce. rewrite bind_run.
    unfold applyTransforms. rewrite Hchain.
    destruct (isBinary host t); simpl; [reflexivity|].
    destruct chain as [|f fs]; simpl; [reflexivity|].
    rewrite editFile_run, Hcontent. reflexivity.
Qed.

(** C4 on the fixtures: the file [b.txt] of a block, under the four tiers;
    its chain is method, section, block, file, and that chain is applied to
    the rendered [Bye]. *)
Lemma transform_chain_order_witness :
  parseFile Fixtures.host Fixtures.plainContext [Fixtures.exclaim] [Fixtures.question]
    (VString "src") (VString "src") (TransformArray [Fixtures.semicolon]) None
    (FileObj Fixtures.tiersFile) Fixtures.initial
  = (Fixtures.initial, Ok (Some Fixtures.tiersTask))
  /\ transform Fixtures.tiersTask
     = Some ([Fixtures.exclaim] ++ [Fixtures.question] ++ [Fixtures.semicolon]
             ++ [Fixtures.exclaim; Fixtures.question])
  /\ produce Fixtures.host Fixtures.generator Fixtures.plainContext
       (RootsArray Fixtures.roots) Fixtures.tiersTask "/project/src/b.txt"
       "/jhipster/templates/src/b.txt.ejs" Fixtures.initial
     = (Fixtures.tiersRendered, Ok tt)
  /\ renderFound Fixtures.host Fixtures.generator Fixtures.plainContext
       (RootsArray Fixtures.roots) Fixtures.tiersTask "/project/src/b.txt"
       "/jhipster/templates/src/b.txt.ejs" Fixtures.initial
     = (written "/project/src/b.txt" "Bye!?;!?"
          (addTrace Fixtures.tiersRendered
             [EditFile "/project/src/b.txt"
                [Fixtures.exclaim; Fixtures.question; Fixtures.semicolon;
                 Fixtures.exclaim; Fixtures.question]]),
        Ok "/project/src/b.txt").
Proof.
  assert (Hplanned :
    parseFile Fixtures.host Fixtures.plainContext [Fixtures.exclaim] [Fixtures.question]
      (VString "src") (VString "src") (TransformArray [Fixtures.semicolon]) None
      (FileObj Fixtures.tiersFile) Fixtures.initial
    = (Fixtures.initial, Ok (Some Fixtures.tiersTask))) by reflexivity.
  assert (Hproduce :
    produce Fixtures.host Fixtures.generator Fixtures.plainContext
      (RootsArray Fixtures.roots) Fixtures.tiersTask "/project/src/b.txt"
      "/jhipster/templates/src/b.txt.ejs" Fixtures.initial
    = (Fixtures.tiersRendered, Ok tt)) by reflexivity.
  split; [exact Hplanned|].
  pose proof (proj1 transform_chain_order _ _ _ _ _ _ _ _ _ _ _ _ Hplanned) as Hchain.
  split; [exact Hchain|]. split; [exact Hproduce|].
  destruct (proj2 transform_chain_order _ _ _ _ _ _ _ _ _ _ Hchain Hproduce)
    as (content & Hcontent & Hrun).
  rewrite Hrun.
  assert (Hc : content = "Bye") by (vm_compute in Hcontent; congruence).
  subst content. reflexivity.
Defined.

(** C4 as the spec words it fails on a binary task.  The picture
    [logo.svg], expanded from its template on request, is planned with the
    method-level chain, yet [editFile] is never called: what is written is
    the rendered text, not the text the chain would have made of it. *)
Lemma transform_chain_skipped_for_binary :
  (exists st1 task,
     parsedTemplatesOf Fixtures.host Fixtures.plainContext [Fixtures.exclaim] []
       Fixtures.svgRequest Fixtures.initial = (st1, Ok [task])
     /\ transform task = Some [Fixtures.exclaim]
     /\ isBinary Fixtures.host task = true)
  /\ snd (writeFiles Fixtures.host Fixtures.generator Fixtures.svgRequest Fixtures.initial)
     = Ok ["/project/src/logo.svg"]
  /\ sourcesOf (trace (fst (writeFiles Fixtures.host Fixtures.generator Fixtures.svgRequest
                              Fixtures.initial)))
     = ["/jhipster/templates/src/logo.svg.ejs"]
  /\ existsb isRender (trace (fst (writeFiles Fixtures.host Fixtures.generator
                                     Fixtures.svgRequest Fixtures.initial))) = true
  /\ existsb isEditFile (trace (fst (writeFiles Fixtures.host Fixtures.generator
                                       Fixtures.svgRequest Fixtures.initial))) = false
  /\ memFs (fst (writeFiles Fixtures.host Fixtures.generator Fixtures.svgRequest
                   Fixtures.initial)) !! "/project/src/logo.svg" = Some "<svg/>"
  /\ fold_left (fun acc f => f acc) [Fixtures.exclaim] "<svg/>" = "<svg/>!".
Proof.
  split.
  - eexists. eexists. split; [reflexivity|]. split; reflexivity.
  - repeat split; vm_compute; reflexivity.
Qed.

(** ** The files that a run touches *)

Lemma keepsFs_ret {A : Type} (a : A) : keepsFs (ret a).
Proof. by intros st st' r [= <- _]. Qed.

Lemma keepsFs_throw {A : Type} (e : Error) : keepsFs (@throw A e).
Proof. by intros st st' r [= <- _]. Qed.

Lemma keepsFs_lift {A : Type} (x : Result A) : keepsFs (lift x).
Proof. by intros st st' r [= <- _]. Qed.

Lemma keepsFs_emit ev : keepsFs (emit ev).
Proof. by intros st st' r [= <- _]. Qed.

Lemma keepsFs_bind {A B : Type} (m : M A) (k : A -> M B) :
  keepsFs m -> (forall a, keepsFs (k a)) -> keepsFs (bind m k).
Proof.
  intros Hm Hk st st' r. unfold bind. destruct (m st) as [st1 [a|e]] eqn:E.
  - intros H. rewrite (Hk a _ _ _ H). by apply (Hm _ _ _ E).
  - intros [= <- _]. by apply (Hm _ _ _ E).
Qed.

Lemma keepsFs_mapM {A B : Type} (f : A -> nat -> M B) l :
  (forall x n, keepsFs (f x n)) -> forall i, keepsFs (mapM f i l).
Proof.
  intros Hf. induction l as [|x l IH]; intros i; cbn [mapM]; [apply keepsFs_ret|].
  apply keepsFs_bind; [apply Hf|]. intros y.
  apply keepsFs_bind; [apply IH|]. intros ys. apply keepsFs_ret.
Qed.

Lemma keepsFs_forEach {A : Type} (f : A -> M unit) l :
  (forall x, keepsFs (f x)) -> keepsFs (forEach f l).
Proof.
  intros Hf. induction l as [|x l IH]; cbn [forEach]; [apply keepsFs_ret|].
  apply keepsFs_bind; [apply Hf|]. intros _. exact IH.
Qed.

Lemma keepsFs_filterM {A : Type} (f : A -> M bool) l :
  (forall x, keepsFs (f x)) -> keepsFs (filterM f l).
Proof.
  intros Hf. induction l as [|x l IH]; cbn [filterM]; [apply keepsFs_ret|].
  apply keepsFs_bind; [apply Hf|]. intros keep.
  apply keepsFs_bind; [apply IH|]. intros rest. apply keepsFs_ret.
Qed.

Lemma keepsFs_getState : keepsFs getState.
Proof. by intros st st' r [= <- _]. Qed.

Lemma keepsFs_resetFakerSeed seed entity : keepsFs (resetFakerSeed seed entity).
Proof.
  unfold resetFakerSeed. apply keepsFs_bind; [apply keepsFs_emit|].
  by intros _ st st' r [= <- _].
Qed.

Ltac keeps :=
  repeat first
    [ apply keepsFs_resetFakerSeed | apply keepsFs_ret | apply keepsFs_throw | apply keepsFs_lift | apply keepsFs_emit
    | apply keepsFs_getState
    | apply keepsFs_bind; [|intros ?]
    | apply keepsFs_mapM; intros ? ?
    | apply keepsFs_forEach; intros ?
    | apply keepsFs_filterM; intros ?
    | match goal with
      | |- keepsFs (match ?x with _ => _ end) => destruct x
      | |- keepsFs (if ?x then _ else _) => destruct x
      end ].

Lemma keepsFs_fsExists path : keepsFs (fsExists path).
Proof. unfold fsExists. keeps. Qed.

Lemma keepsFs_existsSync host path : keepsFs (existsSync host path).
Proof. unfold existsSync. keeps. Qed.

Lemma keepsFs_parseFile host context method section blockPath blockTo blockTransform
    blockRenameTo fileSpec :
  keepsFs (parseFile host context method section blockPath blockTo blockTransform
             blockRenameTo fileSpec).
Proof. unfold parseFile. keeps; try apply keepsFs_fsExists. Qed.

Lemma keepsFs_parseBlock host context method section block blockIdx :
  keepsFs (parseBlock host context method section block blockIdx).
Proof. unfold parseBlock. cbv zeta. keeps; try apply keepsFs_parseFile. Qed.

Lemma keepsFs_parsedTemplatesOf host context method section o :
  keepsFs (parsedTemplatesOf host context method section o).
Proof.
  unfold parsedTemplatesOf, parseBlocks. keeps; try apply keepsFs_parseBlock.
Qed.

Lemma keepsFs_lookupTemplate host roots t : keepsFs (lookupTemplate host roots t).
Proof.
  unfold lookupTemplate, existingTemplates. destruct roots; keeps.
Qed.

Lemma writesOnly_keepsFs {A : Type} target (m : M A) : keepsFs m -> writesOnly target m.
Proof. intros H st st' r p E _. by rewrite (H _ _ _ E). Qed.

Lemma writesOnly_bind {A B : Type} target (m : M A) (k : A -> M B) :
  writesOnly target m -> (forall a, writesOnly target (k a)) -> writesOnly target (bind m k).
Proof.
  intros Hm Hk st st' r p. unfold bind. destruct (m st) as [st1 [a|e]] eqn:E.
  - intros H Hp. rewrite (Hk a _ _ _ _ H Hp). by apply (Hm _ _ _ _ E).
  - intros [= <- _] Hp. by apply (Hm _ _ _ _ E).
Qed.

Lemma writesOnly_writeFile target content : writesOnly target (writeFile target content).
Proof.
  intros st st' r p [= <- _] Hp. cbn. by rewrite lookup_insert_ne.
Qed.

Ltac writes :=
  repeat first
    [ apply writesOnly_writeFile
    | match goal with
      | |- writesOnly _ (match ?x with _ => _ end) => destruct x
      | |- writesOnly _ (if ?x then _ else _) => destruct x
      end
    | solve [apply writesOnly_keepsFs; keeps]
    | apply writesOnly_bind; [|intros ?] ].

(** A task writes where yeoman resolves its target, and nowhere else. *)
Lemma writesOnly_renderFound host this context roots t target source :
  writesOnly (destinationPath1 host target)
    (renderFound host this context roots t target source).
Proof.
  unfold renderFound, produce, renderEjs, copyTemplateAsync, renderTemplateWith,
    applyTransforms, editFile.
  writes.
Qed.

Lemma renderTemplate_writes host this context roots t st st' file :
  renderTemplate host this context roots t st = (st', Ok file) ->
  targetFile host context t = Ok file
  /\ is_Some (memFs st' !! destinationPath1 host file)
  /\ forall p, p <> destinationPath1 host file -> memFs st' !! p = memFs st !! p.
Proof.
  unfold renderTemplate. rewrite bind_run, lift_run.
  destruct (targetFile host context t) as [target|e]; [|discriminate].
  rewrite bind_run.
  destruct (lookupTemplate host roots t st) as [st1 [found|e]] eqn:Elookup; [|discriminate].
  intros Hrun.
  assert (file = target /\ is_Some (memFs st' !! destinationPath1 host target)) as [-> Hsome].
  { revert Hrun. unfold renderFound. rewrite bind_run.
    destruct (produce host this context roots t target (withEjs host t found) st1)
      as [st2 [[]|e]] eqn:Hproduce; [|discriminate].
    destruct (produce_writes _ _ _ _ _ _ _ _ _ Hproduce) as [content Hcontent].
    rewrite bind_run. unfold applyTransforms.
    destruct (negb (isBinary host t)).
    - destruct (transform t) as [[|f fs]|].
      + intros [= <- <-]. eauto.
      + rewrite editFile_run, Hcontent. intros [= <- <-]. split; [reflexivity|].
        simpl. rewrite lookup_insert_eq. eauto.
      + intros [= <- <-]. eauto.
    - intros [= <- <-]. eauto. }
  split; [reflexivity|]. split; [exact Hsome|].
  intros p Hp. rewrite (writesOnly_renderFound _ _ _ _ _ _ _ _ _ _ _ Hrun Hp).
  by rewrite (keepsFs_lookupTemplate _ _ _ _ _ _ Elookup).
Qed.

(** A task that fails has not written elsewhere either. *)
Lemma renderTemplate_frame host this context roots t st st' r p :
  renderTemplate host this context roots t st = (st', r) ->
  (forall file, targetFile host context t = Ok file -> p <> destinationPath1 host file) ->
  memFs st' !! p = memFs st !! p.
Proof.
  unfold renderTemplate. rewrite bind_run, lift_run.
  destruct (targetFile host context t) as [target|e]; [|by intros [= <- _]].
  rewrite bind_run.
  destruct (lookupTemplate host roots t st) as [st1 [found|e]] eqn:E.
  - intros H Hp. rewrite (writesOnly_renderFound _ _ _ _ _ _ _ _ _ _ _ H) by auto.
    by rewrite (keepsFs_lookupTemplate _ _ _ _ _ _ E).
  - intros [= <- _] _. by rewrite (keepsFs_lookupTemplate _ _ _ _ _ _ E).
Qed.

(** The tasks of a run that succeeds: each returns its target, every
    target is in memory at the end, and no other file has changed. *)
Lemma startAll_writes host this context roots : forall tasks st st' rs written,
  startAll (renderTemplate host this context roots) tasks st = (st', rs) ->
  settle rs = Ok written ->
  Forall2 (fun task file => targetFile host context task = Ok file) tasks written
  /\ (forall file, In file written -> is_Some (memFs st' !! destinationPath1 host file))
  /\ (forall p, (forall file, In file written -> destinationPath1 host file <> p) ->
        memFs st' !! p = memFs st !! p).
Proof.
  induction tasks as [|t tasks IH]; intros st st' rs written; cbn [startAll].
  - intros [= <- <-] [= <-]. split; [constructor|]. split; [by intros file []|done].
  - destruct (renderTemplate host this context roots t st) as [st1 r] eqn:E.
    destruct (startAll _ tasks st1) as [st2 rs'] eqn:Erest.
    intros [= <- <-]. cbn [settle]. destruct r as [file|e]; [|discriminate].
    destruct (settle rs') as [written'|e] eqn:Es; [|discriminate]. intros [= <-].
    destruct (renderTemplate_writes _ _ _ _ _ _ _ _ E) as (Htarget & Hsome & Hframe).
    destruct (IH _ _ _ _ Erest Es) as (Hall & Hwritten & Hothers).
    split; [by constructor|]. split.
    + intros other [<-|Hin]; [|by apply Hwritten].
      destruct (in_dec String.string_dec (destinationPath1 host file)
                  (List.map (destinationPath1 host) written')) as [Hagain|Hnot].
      * apply in_map_iff in Hagain as (again & Heq & Hin). rewrite <- Heq.
        by apply Hwritten.
      * rewrite Hothers; [exact Hsome|].
        intros again Hin Heq. apply Hnot. apply in_map_iff. eauto.
    + intros p Hp. rewrite Hothers by (intros other Hin; apply Hp; by right).
      apply Hframe. intros ->. exact (Hp file (or_introl eq_refl) eq_refl).
Qed.

(** A run of [writeFiles] that returns: the tasks are planned first, on
    the files as they were, then rendered. *)
Lemma writeFiles_run host this o st st' files :
  writeFiles host this o st = (st', Ok files) ->
  exists st1 tasks written,
    parsedTemplatesOf host (default (self this) (optionsContext o))
      (default [] (optionsTransform o)) (sectionTransformOf o) o st = (st1, Ok tasks)
    /\ Forall2 (fun task file =>
                  targetFile host (default (self this) (optionsContext o)) task = Ok file)
         tasks written
    /\ files = List.filter nonEmpty written
    /\ (forall file, In file written -> is_Some (memFs st' !! destinationPath1 host file))
    /\ (forall p, (forall file, In file written -> destinationPath1 host file <> p) ->
          memFs st' !! p = memFs st !! p).
Proof.
  unfold writeFiles. rewrite bind_run.
  destruct (0 <? paramCount o)%nat; [|discriminate]. simpl.
  rewrite bind_run. destruct (paramCount o =? 1)%nat; [|discriminate]. simpl.
  rewrite bind_run, lift_run.
  destruct (rootTemplatesAbsolutePathOf host this o) as [roots|e]; [|discriminate].
  rewrite bind_run.
  destruct (parsedTemplatesOf _ _ _ _ o st) as [st1 [tasks|e]] eqn:Eplan; [|discriminate].
  rewrite bind_run. unfold promiseAll at 1.
  destruct (startAll _ tasks st1) as [st2 rs] eqn:Eall.
  destruct (settle rs) as [written|e] eqn:Es; [|discriminate].
  rewrite bind_run, emit_run. intros [= <- <-].
  destruct (startAll_writes _ _ _ _ _ _ _ _ _ Eall Es) as (Hall & Hwritten & Hothers).
  exists st1, tasks, written. cbn [addTrace memFs].
  rewrite <- (keepsFs_parsedTemplatesOf _ _ _ _ _ _ _ _ Eplan).
  auto.
Qed.

(** ** C6: files that are not overridden *)

Lemma mapM_results {A B : Type} (f : A -> nat -> M B) l i st st' ys :
  mapM f i l st = (st', Ok ys) ->
  Forall2 (fun x y => exists n sa sb, f x n sa = (sb, Ok y)) l ys.
Proof.
  revert i st st' ys. induction l as [|x l IH]; intros i st st' ys; simpl.
  - intros [= _ <-]. constructor.
  - rewrite bind_run. destruct (f x i st) as [st1 [y|e]] eqn:E1; [|discriminate].
    rewrite bind_run. destruct (mapM f (S i) l st1) as [st2 [ys'|e]] eqn:E2; [|discriminate].
    intros [= _ <-]. constructor; [eauto|]. eapply IH, E2.
Qed.


Lemma Forall2_In_r {A B : Type} (R : A -> B -> Prop) l ys y :
  Forall2 R l ys -> In y ys -> exists x, In x l /\ R x y.
Proof.
  induction 1 as [|x y' l ys Hxy _ IH]; intros Hin; [destruct Hin|].
  destruct Hin as [<-|Hin].
  - exists x. split; [by left|done].
  - destruct (IH Hin) as (x' & Hx' & HR). exists x'. split; [by right|done].
Qed.








(** ** C7: binary files and template mode *)




End WriteFilesFacts.

(** ** [getMicroserviceAppName] and [getMainClassName] *)

Module AppNamesFacts.
Import JsString Regex Lodash Naming AppNames StringFacts RegexFacts LodashFacts.
#[local] Arguments String.append !_ _ / : simpl nomatch.
Local Open Scope list_scope.

Lemma all_filter p q s : all q s = true -> all q (filter p s) = true.
Proof.
  induction s as [|c s IH]; simpl; [done|]. intros H. apply andb_prop in H as [Hc Hs].
  destruct (p c); simpl; [by rewrite Hc, IH|by apply IH].
Qed.

Lemma all_filter_self p s : all p (filter p s) = true.
Proof.
  induction s as [|c s IH]; simpl; [done|]. destruct (p c) eqn:E; simpl; [by rewrite E|done].
Qed.

Lemma all_and p q s : all p s = true -> all q s = true -> all (fun c => p c && q c) s = true.
Proof.
  induction s as [|c s IH]; simpl; [done|]. intros Hp Hq.
  apply andb_prop in Hp as [-> Hp]. apply andb_prop in Hq as [-> Hq]. by rewrite IH.
Qed.

Lemma deburrLetter_plain c : all notLatinLetter (deburrLetter c) = true.
Proof. destruct c as [[] [] [] [] [] [] [] []]; reflexivity. Qed.

Lemma deburr_plain s : all notLatinLetter (deburr s) = true.
Proof.
  induction s as [|c s IH]; [done|]. cbn [deburr].
  by rewrite all_append, deburrLetter_plain, IH.
Qed.

Lemma prepared_plain s : all plain (filter (neg isApos) (deburr s)) = true.
Proof.
  apply (all_and (fun c => negb (isApos c)) notLatinLetter).
  - apply (all_filter_self (neg isApos)).
  - apply all_filter, deburr_plain.
Qed.


(** The matches of a scan are parts of the text. *)
Lemma scan_within r q : consumes r = true ->
  forall n b s, all q s = true ->
    Forall (fun seg => all q (snd seg) = true) (fst (scan n r b s)).
Proof.
  intros Hc. induction n as [|n IH]; intros b s Hs; [by constructor|].
  rewrite scan_step by done.
  destruct (search r b s) as [f|] eqn:E; [|by constructor].
  destruct (search_sound _ _ _ _ E) as (Heq & _ & _).
  rewrite Heq, !all_append in Hs.
  apply andb_prop in Hs as [_ Hs]. apply andb_prop in Hs as [Hm Ha].
  specialize (IH (before (stop f)) (after (stop f)) Ha).
  destruct (scan n r _ _) as [gs tl]. cbn [fst snd] in *.
  by constructor.
Qed.

Lemma matchAll_within r q s w : consumes r = true -> all q s = true ->
  In w (matchAll r s) -> all q w = true.
Proof.
  intros Hc Hs Hin. unfold matchAll in Hin. apply in_map_iff in Hin as (seg & <- & Hin).
  pose proof (scan_within r q Hc (S (String.length s)) None s Hs) as H.
  rewrite List.Forall_forall in H. by apply H.
Qed.

(** A text in which [reHasUnicodeWord] finds nothing is made of ASCII
    letters, digits and spaces. *)
Lemma no_unicode_word s : hasUnicodeWord s = false -> all alnumOrSpace s = true.
Proof.
  unfold hasUnicodeWord, test. destruct (search _ _ _) eqn:E; [done|]. intros _.
  assert (H : forall a c, s = (a +:+ c)%string ->
            matchAt reHasUnicodeWord (Pos (lastOr None a) c) = None).
  { intros a c Hac. by apply (search_none_inv _ _ _ _ _ E). }
  clear E. revert H. generalize (@None ascii) as b.
  induction s as [|x s IH]; intros b H; [done|].
  cbn [all]. apply andb_true_intro. split.
  - specialize (H "" (String x s) eq_refl). cbn [lastOr] in H.
    unfold matchAt, reHasUnicodeWord in H. cbn [Alts] in H.
    rewrite !run_Alt in H.
    repeat match type of H with
           | match ?m with Some _ => _ | None => _ end = None =>
               destruct m; [discriminate H|]
           end.
    rewrite run_Class in H. unfold alnumOrSpace, is_alnum.
    destruct (negb _) eqn:En; [discriminate H|].
    apply negb_false_iff in En. unfold is_alpha_az in En.
    revert En. clear. destruct x as [[] [] [] [] [] [] [] []]; vm_compute; done.
  - apply (IH (Some x)). intros a c ->. apply (H (String x a) c eq_refl).
Qed.

Lemma unicode_word_alnum c :
  alphabet reUnicodeWord c && plain c = true -> is_alnum c = true.
Proof. destruct c as [[] [] [] [] [] [] [] []]; vm_compute; done. Qed.

Lemma ascii_word_alnum c :
  alphabet reAsciiWord c && alnumOrSpace c = true -> is_alnum c = true.
Proof. destruct c as [[] [] [] [] [] [] [] []]; vm_compute; done. Qed.

Lemma case_alnum c : is_alnum c = true ->
  is_alnum (toLowerChar c) = true /\ is_alnum (toUpperChar c) = true.
Proof. destruct c as [[] [] [] [] [] [] [] []]; vm_compute; done. Qed.

(** The words of a text prepared by [deburr] and the removal of
    apostrophes are made of ASCII letters and digits. *)
Lemma words_alnum s w :
  In w (words (filter (neg isApos) (deburr s))) -> all is_alnum w = true.
Proof.
  set (t := filter (neg isApos) (deburr s)).
  pose proof (prepared_plain s) as Hplain. fold t in Hplain.
  unfold words, unicodeWords, asciiWords. destruct (hasUnicodeWord t) eqn:E; intros Hin.
  - destruct (matchAll_matches _ _ _ consumes_reUnicodeWord Hin) as [Ha _].
    pose proof (matchAll_within _ _ _ _ consumes_reUnicodeWord Hplain Hin) as Hp.
    eapply all_impl; [exact unicode_word_alnum|]. by apply all_and.
  - destruct (matchAll_matches _ _ _ consumes_reAsciiWord Hin) as [Ha _].
    pose proof (matchAll_within _ _ _ _ consumes_reAsciiWord (no_unicode_word _ E) Hin) as Hp.
    eapply all_impl; [exact ascii_word_alnum|]. by apply all_and.
Qed.

Lemma toLowerCase_alnum s : all is_alnum s = true -> all is_alnum (toLowerCase s) = true.
Proof.
  unfold toLowerCase. induction s as [|c s IH]; simpl; [done|]. intros H.
  apply andb_prop in H as [Hc Hs]. destruct (case_alnum c Hc) as [-> _]. by rewrite IH.
Qed.

Lemma upperFirst_alnum s : all is_alnum s = true -> all is_alnum (upperFirst s) = true.
Proof.
  destruct s as [|c s]; simpl; [done|]. intros H.
  apply andb_prop in H as [Hc Hs]. destruct (case_alnum c Hc) as [_ ->]. by rewrite Hs.
Qed.

Lemma concat_all q ws :
  (forall w, In w ws -> all q w = true) -> all q (String.concat "" ws) = true.
Proof.
  induction ws as [|w ws IH]; intros H; [done|].
  destruct ws as [|w' ws].
  - apply H. by left.
  - change (String.concat "" (w :: w' :: ws)) with (w +:+ String.concat "" (w' :: ws))%string.
    rewrite all_append, (H w) by (by left). apply IH. intros v Hv. apply H. by right.
Qed.

Lemma camelCase_alnum s : all is_alnum (camelCase s) = true.
Proof.
  rewrite camelCase_words. unfold reApos. rewrite replaceAll_Class.
  pose proof (words_alnum s) as H.
  destruct (words _) as [|w ws]; [done|].
  rewrite all_append, toLowerCase_alnum by (apply H; by left).
  apply concat_all. intros v Hv. apply in_map_iff in Hv as (u & <- & Hu).
  unfold camelWord, capitalize.
  apply upperFirst_alnum, toLowerCase_alnum, toLowerCase_alnum, H. by right.
Qed.


(** X5.  [upperFirstCamelCase] returns ASCII letters and digits only. *)
Theorem upperFirstCamelCase_is_alphanumeric (value : string) :
  all is_alnum (upperFirstCamelCase value) = true.
Proof. unfold upperFirstCamelCase. apply upperFirst_alnum, camelCase_alnum. Qed.

(** X1.  [getMicroserviceAppName] never returns the empty text, and
    returns ASCII letters and digits only. *)
Theorem getMicroserviceAppName_is_a_name (microserviceName : string) :
  getMicroserviceAppName microserviceName <> ""
  /\ all is_alnum (getMicroserviceAppName microserviceName) = true.
Proof.
  split; [apply FrontendAppNameFacts.candidate_not_empty|].
  unfold getMicroserviceAppName. rewrite all_append, camelCase_alnum.
  by destruct (endsWith "App" microserviceName).
Qed.

(** The texts that [acceptableForJava] accepts. *)
Lemma acceptableForJava_inv main y :
  matchAt acceptableForJava (Pos None main) = Some y ->
  exists U t, main = String U t /\ is_upper_az U = true /\ all is_word t = true.
Proof.
  unfold matchAt, acceptableForJava. rewrite run_Seq. intros H.
  apply run_Class_inv in H as (U & t & Hmain & HU & H). cbn [after] in Hmain.
  rewrite run_Seq in H. cbn [run] in H.
  apply starLoop_Class_inv in H as (ws & rest & Ht & Hws & H). cbn [after before] in *.
  destruct rest; [|discriminate H].
  rewrite append_nil_r in Ht. subst. eauto.
Qed.

Lemma acceptableForJava_fwd U t :
  is_upper_az U = true -> all is_word t = true ->
  matchAt acceptableForJava (Pos None (String U t)) = Some (Pos (lastOr (Some U) t) "").
Proof.
  intros HU Ht. unfold matchAt, acceptableForJava. rewrite run_Seq, run_Class, HU, run_Seq.
  rewrite <- (append_nil_r t) at 1. by apply run_Star_greedy.
Qed.

(** X2.  [getMainClassName] always returns a name that [acceptableForJava]
    accepts: an upper-case ASCII letter followed by ASCII letters, digits
    and underscores. *)
Theorem getMainClassName_is_acceptable_for_java (baseName : string) :
  exists U t, getMainClassName baseName = String U t
              /\ is_upper_az U = true /\ all is_word t = true.
Proof.
  unfold getMainClassName. cbv zeta.
  destruct (matchAt acceptableForJava _) as [y|] eqn:E.
  - by apply acceptableForJava_inv in E.
  - by exists "A"%char, "pplication".
Qed.

Lemma upperFirst_letter c : is_alnum c = true -> is_digit c = false ->
  is_upper_az (toUpperChar c) = true.
Proof. destruct c as [[] [] [] [] [] [] [] []]; vm_compute; done. Qed.

Lemma digit_not_upper c : is_digit c = true ->
  is_upper_az (toUpperChar c) = false.
Proof. destruct c as [[] [] [] [] [] [] [] []]; vm_compute; done. Qed.

Lemma alnum_word c : is_alnum c = true -> is_word c = true.
Proof. unfold is_word, is_alnum. intros ->. done. Qed.

(** X3.  [getMainClassName] falls back on [Application] exactly when the
    name of [getMicroserviceAppName] starts with a digit; otherwise it
    returns that name with its first letter in upper case. *)
Theorem getMainClassName_fallback (baseName : string) :
  getMainClassName baseName
  = (if stopsAt is_digit (getMicroserviceAppName baseName)
     then upperFirst (getMicroserviceAppName baseName)
     else "Application").
Proof.
  unfold getMainClassName. cbv zeta.
  pose proof (FrontendAppNameFacts.candidate_not_empty baseName) as Hne.
  assert (Hall : all is_alnum (getMicroserviceAppName baseName) = true).
  { unfold getMicroserviceAppName. rewrite all_append, camelCase_alnum.
    by destruct (endsWith "App" baseName). }
  fold (getMicroserviceAppName baseName) in Hne.
  destruct (getMicroserviceAppName baseName) as [|c t]; [done|].
  cbn [upperFirst stopsAt]. cbn [all] in Hall. apply andb_prop in Hall as [Hc Ht].
  destruct (is_digit c) eqn:Hd; cbn [negb].
  - destruct (matchAt acceptableForJava _) as [y|] eqn:E; [|done].
    apply acceptableForJava_inv in E as (U & t' & [= <- <-] & HU & _).
    by rewrite digit_not_upper in HU.
  - rewrite acceptableForJava_fwd; [done|by apply upperFirst_letter|].
    eapply all_impl, Ht. exact alnum_word.
Qed.

Lemma upperFirst_append a b : a <> "" -> upperFirst (a +:+ b) = (upperFirst a +:+ b)%string.
Proof. by destruct a. Qed.

Lemma alpha_word c : is_alpha_az c = true -> is_word c = true.
Proof. destruct c as [[] [] [] [] [] [] [] []]; vm_compute; done. Qed.

(** X4.  A base name made of capitalised words is kept as the main class
    name, followed by [App] unless it ends in [App] already. *)
Theorem getMainClassName_keeps_capitalised_words (ws : list string) :
  forallb capitalised ws = true -> ws <> [] ->
  getMainClassName (flat ws)
  = (flat ws +:+ (if endsWith "App" (flat ws) then "" else "App"))%string.
Proof.
  intros Hws Hne. unfold getMainClassName, getMicroserviceAppName. cbv zeta.
  pose proof (UpperFirstCamelCaseFacts.upperFirstCamelCase_capitalised ws Hws) as Hfix.
  pose proof (UpperFirstCamelCaseFacts.flat_alpha ws Hws) as Halpha.
  unfold upperFirstCamelCase in Hfix.
  assert (Hflat : exists U t, flat ws = String U t /\ is_upper_az U = true).
  { destruct ws as [|w ws]; [done|]. cbn [forallb] in Hws.
    apply andb_prop in Hws as [Hw _].
    apply UpperFirstCamelCaseFacts.capitalised_inv in Hw as (U & l & ls & -> & HU & _).
    cbn [flat fold_right]. eauto. }
  destruct Hflat as (U & t & Hflat & HU).
  destruct (camelCase (flat ws)) as [|c rest] eqn:Ec.
  { rewrite Hflat in Hfix. discriminate Hfix. }
  rewrite upperFirst_append by done. rewrite Hfix.
  rewrite Hflat in Halpha |- *. cbn [all] in Halpha. apply andb_prop in Halpha as [_ Ht].
  change (String U t +:+ ?x)%string with (String U (t +:+ x)%string).
  rewrite acceptableForJava_fwd; [done|exact HU|].
  rewrite all_append. apply andb_true_intro. split.
  - eapply all_impl, Ht. exact alpha_word.
  - by destruct (endsWith "App" _).
Qed.

(** X4 on an example. *)
Lemma getMainClassName_keeps_capitalised_words_witness :
  getMainClassName "MyShop" = "MyShopApp" /\ getMainClassName "MyApp" = "MyApp".
Proof.
  split.
  - apply (getMainClassName_keeps_capitalised_words ["My"; "Shop"]); [reflexivity|discriminate].
  - apply (getMainClassName_keeps_capitalised_words ["My"; "App"]); [reflexivity|discriminate].
Defined.

End AppNamesFacts.

(** ** The callback of [addIcon] on a content without the needle *)

Module AddIconMoreFacts.
Import JsString Regex Lodash Naming NeedleClientAngular StringFacts RegexFacts LodashFacts NeedleFacts AddIconFacts.
#[local] Arguments String.append !_ _ / : simpl nomatch.

Lemma includes_count p s : includes p s = false -> count p s = 0.
Proof.
  induction s as [|c s IH]; simpl.
  - by destruct (startsWith p "").
  - destruct (startsWith p (String c s)); [done|]. simpl. intros H. by rewrite IH.
Qed.

Lemma needleLine_count a s : needleLineAt s -> 0 < count needleComment (a ++ s).
Proof.
  intros (lineBreak & indentation & rest & -> & Hnl & Hws).
  rewrite (count_lineBreak a lineBreak) by done.
  rewrite (count_skip indentation) by by apply space_noSlash.
  rewrite count_needle. lia.
Qed.

(** X6.  The [contentToAdd] callback of [addIcon] returns a content that
    does not hold the needle comment as it is.  Whether the callback is
    called on such a content is up to [createNeedleCallback]. *)
Theorem contentToAdd_without_needle_changes_nothing iconName content indentPrefix :
  includes needleComment content = false ->
  contentToAdd iconName content indentPrefix = content.
Proof.
  intros Hinc. apply includes_count in Hinc.
  unfold contentToAdd. rewrite replaceAll_fold, segments_step by reflexivity.
  destruct (search reIconNeedle None content) as [f|] eqn:E; [|reflexivity].
  destruct (search_sound _ _ _ _ E) as (Hs & Hmatch & _).
  destruct (needle_match_inv _ _ Hmatch) as (nl & ws & Hshape & Hnl & Hws).
  cbn [after] in Hshape.
  assert (Hline : needleLineAt (matched f ++ after (stop f))).
  { rewrite Hshape. by exists nl, ws, (after (stop f)). }
  pose proof (needleLine_count (skipped f) _ Hline) as Hpos.
  rewrite <- Hs in Hpos. lia.
Qed.

(** X6 on an example. *)
Lemma contentToAdd_without_needle_changes_nothing_witness :
  contentToAdd "user" "export const icons = [];" "  " = "export const icons = [];".
Proof. by apply contentToAdd_without_needle_changes_nothing. Defined.

End AddIconMoreFacts.

(** ** [writeFiles]: conditions, lookup order, targets and frame *)

Module WriteFilesMoreFacts.
Import JsString WriteFiles WriteFilesFacts WriteFilesMore StringFacts.
Local Open Scope list_scope.
#[local] Arguments String.append !_ _ / : simpl nomatch.

Lemma parseBlock_skipped host context method section block blockIdx files st :
  block_templates block = Some files ->
  conditionFails context block = true ->
  parseBlock host context method section block blockIdx st = (st, Ok None).
Proof.
  intros Hfiles Hcond. unfold parseBlock, conditionFails in *. rewrite Hfiles.
  destruct (block_condition block) as [|b|s|f|t shown]; try discriminate Hcond.
  - by destruct b.
  - by destruct s.
  - apply negb_true_iff in Hcond. cbn. unfold callOrFalse, orElse. by rewrite Hcond.
Qed.

Lemma parseBlocks_conditions host context method section l st st1 tasks task :
  parseBlocks host context method section l st = (st1, Ok tasks) ->
  In task tasks ->
  exists block files blockPath blockTo fileSpec sa sb,
    In block l
    /\ conditionFails context block = false
    /\ block_templates block = Some files
    /\ In fileSpec files
    /\ parseFile host context method section blockPath blockTo (block_transform block)
         (block_renameTo block) fileSpec sa = (sb, Ok (Some task)).
Proof.
  unfold parseBlocks. rewrite bind_run.
  destruct (mapM _ 0 l st) as [st2 [entries|e]] eqn:E; [|discriminate].
  intros [= _ <-] Hin. apply mapM_results in E.
  unfold flatFilter in Hin. apply in_concat in Hin as (chunk & Hchunk & Hin).
  apply in_map_iff in Hchunk as (entry & <- & Hentry).
  destruct entry as [kept|]; [|destruct Hin].
  apply list_elem_of_In in Hin.
  apply list_elem_of_omap in Hin as (o & Ho & Hsome). simpl in Hsome. subst o.
  apply list_elem_of_In in Ho.
  destruct (Forall2_In_r _ _ _ _ E Hentry) as (block & Hblock & n & sa & sb & Hparse).
  destruct (conditionFails context block) eqn:Hcond.
  1:{ destruct (block_templates block) as [files|] eqn:Hfiles.
      - rewrite (parseBlock_skipped _ _ _ _ _ _ files) in Hparse by done. discriminate.
      - unfold parseBlock in Hparse. rewrite Hfiles in Hparse. discriminate. }
  revert Hparse. unfold parseBlock. rewrite bind_run.
  destruct (block_templates block) as [files|] eqn:Hfiles; [|discriminate].
  unfold ret at 1. rewrite bind_run, lift_run.
  destruct (resolveCallback context (block_condition block) VUndefined) as [condition|e];
    [|discriminate].
  destruct (match condition with VUndefined => false | _ => negb (truthy condition) end);
    [discriminate|].
  rewrite bind_run.
  match goal with
  | |- context [match ?m ?s with _ => _ end] => destruct (m s) as [sc [[]|e]]
  end; [|discriminate].
  rewrite bind_run, lift_run.
  destruct (resolveCallback context (block_from block) _) as [blockPath|e]; [|discriminate].
  rewrite bind_run, lift_run.
  destruct (resolveCallback context (block_to block) blockPath) as [blockTo|e];
    [|discriminate].
  rewrite bind_run.
  destruct (mapM _ 0 files sc) as [sd [parsed|e]] eqn:Emap; [|discriminate].
  intros [= _ <-]. apply mapM_results in Emap.
  destruct (Forall2_In_r _ _ _ _ Emap Ho)
    as (fileSpec & HfileSpec & m & sa' & sb' & Hfile).
  exists block, files, blockPath, (orElse blockTo blockPath), fileSpec, sa', sb'. auto 10.
Qed.


(** The index of a block only shows in the text of the errors. *)
Lemma parseBlock_index host context method section block i j st st' r :
  parseBlock host context method section block i st = (st', Ok r) ->
  parseBlock host context method section block j st = (st', Ok r).
Proof.
  unfold parseBlock, bind, ret, lift, throw. cbv beta zeta.
  destruct (block_templates block) as [files|]; [|discriminate].
  destruct (resolveCallback context (block_condition block) VUndefined) as [condition|e];
    [|discriminate].
  destruct (match condition with VUndefined => false | _ => negb (truthy condition) end);
    [done|].
  destruct (block_path block); done.
Qed.

Lemma mapM_parseBlock_filter host context method section l : forall i j st st1 entries,
  mapM (parseBlock host context method section) i l st = (st1, Ok entries) ->
  exists entries',
    mapM (parseBlock host context method section) j
      (List.filter (fun block => negb (conditionFails context block)) l) st
    = (st1, Ok entries')
    /\ flatFilter entries' = flatFilter entries.
Proof.
  induction l as [|block l IH]; intros i j st st1 entries.
  - intros [= <- <-]. by exists [].
  - cbn [mapM List.filter]. rewrite bind_run.
    destruct (parseBlock _ _ _ _ block i st) as [sa [entry|e]] eqn:E; [|discriminate].
    rewrite bind_run.
    destruct (mapM _ (S i) l sa) as [sb [rest|e]] eqn:Erest; [|discriminate].
    intros [= <- <-].
    destruct (conditionFails context block) eqn:Hcond; cbn [negb].
    + destruct (block_templates block) as [files|] eqn:Hfiles.
      * rewrite (parseBlock_skipped _ _ _ _ _ _ files) in E by done.
        injection E as <- <-.
        destruct (IH (S i) j st sb rest Erest) as (entries' & Hrun & Hflat).
        exists entries'. split; [exact Hrun|]. by rewrite Hflat.
      * unfold parseBlock in E. rewrite Hfiles in E. discriminate.
    + cbn [mapM]. rewrite bind_run, (parseBlock_index _ _ _ _ _ i j _ _ _ E), bind_run.
      destruct (IH (S i) (S j) sa sb rest Erest) as (entries' & -> & Hflat).
      exists (entry :: entries'). split; [reflexivity|].
      unfold flatFilter in *. cbn [List.map List.concat]. by rewrite Hflat.
Qed.

(** X7.  Only the blocks whose condition does not fail count: leaving the
    others out changes neither the tasks planned nor the calls made, and
    every task comes from a file of a block that was let through. *)
Theorem failing_condition_skips_block host context method section l st st1 tasks :
  parseBlocks host context method section l st = (st1, Ok tasks) ->
  parseBlocks host context method section
    (List.filter (fun block => negb (conditionFails context block)) l) st = (st1, Ok tasks)
  /\ forall task, In task tasks ->
       exists block files fileSpec,
         In block l /\ conditionFails context block = false
         /\ block_templates block = Some files /\ In fileSpec files
         /\ exists blockPath blockTo sa sb,
              parseFile host context method section blockPath blockTo
                (block_transform block) (block_renameTo block) fileSpec sa
              = (sb, Ok (Some task)).
Proof.
  intros H. split.
  - revert H. unfold parseBlocks. rewrite !bind_run.
    destruct (mapM _ 0 l st) as [sa [entries|e]] eqn:E; [|discriminate].
    intros [= <- <-].
    destruct (mapM_parseBlock_filter _ _ _ _ _ 0 0 _ _ _ E) as (entries' & -> & Hflat).
    by rewrite Hflat.
  - intros task Hin.
    destruct (parseBlocks_conditions _ _ _ _ _ _ _ _ _ H Hin)
      as (block & files & blockPath & blockTo & fileSpec & sa & sb & H1 & H2 & H3 & H4 & H5).
    exists block, files, fileSpec. eauto 10.
Qed.

(** X7 on an example. *)
Lemma failing_condition_skips_block_witness :
  parseBlocks Fixtures.host Fixtures.plainContext [] []
    [conditional (VFunction (fun _ => VUndefined)) "a.txt"; conditional VUndefined "b.txt"]
    Fixtures.initial
  = (Fixtures.initial,
     Ok [{| sourceFile := "src/b.txt"; destinationFile := DestString "/project/src/b.txt";
            options := None; noEjs := None; transform := Some []; binary := false |}])
  /\ parseBlocks Fixtures.host Fixtures.plainContext [] [] [conditional VUndefined "b.txt"]
       Fixtures.initial
     = (Fixtures.initial,
        Ok [{| sourceFile := "src/b.txt"; destinationFile := DestString "/project/src/b.txt";
               options := None; noEjs := None; transform := Some []; binary := false |}]).
Proof.
  assert (H : parseBlocks Fixtures.host Fixtures.plainContext [] []
    [conditional (VFunction (fun _ => VUndefined)) "a.txt"; conditional VUndefined "b.txt"]
    Fixtures.initial
  = (Fixtures.initial,
     Ok [{| sourceFile := "src/b.txt"; destinationFile := DestString "/project/src/b.txt";
            options := None; noEjs := None; transform := Some []; binary := false |}]))
    by reflexivity.
  split; [exact H|].
  exact (proj1 (failing_condition_skips_block _ _ _ _ _ _ _ _ H)).
Defined.


(** *** The lookup order *)

Lemma lookup_map {A B : Type} (f : A -> B) (l : list A) (j : nat) :
  List.map f l !! j = f <$> l !! j.
Proof. revert j. induction l as [|x l IH]; intros [|j]; simpl; auto. Qed.

Lemma lookup_product {A B C : Type} (g : A -> B -> C) (rels : list B) (folders : list A) :
  List.length (List.concat (List.map (fun f => List.map (g f) rels) folders))
  = List.length folders * List.length rels
  /\ forall i j folder rel,
       folders !! i = Some folder -> rels !! j = Some rel ->
       List.concat (List.map (fun f => List.map (g f) rels) folders)
         !! (i * List.length rels + j) = Some (g folder rel).
Proof.
  induction folders as [|f folders [IHlen IH]]; [split; [done|by intros []]|].
  cbn [List.map List.concat]. split.
  - rewrite List.length_app, List.length_map, IHlen. simpl. lia.
  - intros [|i] j folder rel Hi Hj; simpl in Hi.
    + injection Hi as ->. simpl. rewrite lookup_app_l.
      * by rewrite lookup_map, Hj.
      * rewrite List.length_map. by apply lookup_lt_Some in Hj.
    + replace (S i * List.length rels + j) with (List.length rels + (i * List.length rels + j))
        by lia.
      rewrite lookup_app_r by (rewrite List.length_map; lia).
      rewrite List.length_map.
      replace (List.length rels + (i * List.length rels + j) - List.length rels)
        with (i * List.length rels + j) by lia.
      by apply IH.
Qed.

(** X8.  With relative root paths, the templates are looked up folder by
    folder: every relative path under the first template folder, then
    every relative path under the second, and so on. *)
Theorem template_lookup_is_folder_major host this o (folders rels : list string) :
  jhipsterTemplatesFolders this = Some folders ->
  (rootTemplatesPath o = RootTemplatesPathArray rels
   \/ exists s, rootTemplatesPath o = RootTemplatesPathString s /\ rels = [s]
                /\ s <> "" /\ isAbsolute host s = false) ->
  exists roots,
    rootTemplatesAbsolutePathOf host this o = Ok (RootsArray roots)
    /\ List.length roots = List.length folders * List.length rels
    /\ forall i j folder rel,
         folders !! i = Some folder -> rels !! j = Some rel ->
         roots !! (i * List.length rels + j) = Some (join host folder rel).
Proof.
  intros Hfolders Hrels.
  exists (List.concat (List.map (fun f => List.map (join host f) rels) folders)).
  split; [|apply lookup_product].
  unfold rootTemplatesAbsolutePathOf. rewrite Hfolders.
  destruct Hrels as [->|(s & -> & -> & Hs & Habs)]; [done|].
  destruct s; [done|]. cbn [nonEmpty negb]. by rewrite Habs.
Qed.

(** X8 on an example. *)
Lemma template_lookup_is_folder_major_witness :
  exists roots,
    rootTemplatesAbsolutePathOf Fixtures.host Fixtures.generator
      (templatesRequest (RootTemplatesPathArray ["reactive"; "common"]) ["src/a.txt"] None)
    = Ok (RootsArray roots)
    /\ List.length roots = 6
    /\ roots !! 1 = Some "/blueprint/templates/common"
    /\ roots !! 2 = Some "/jhipster/templates/reactive".
Proof.
  destruct (template_lookup_is_folder_major Fixtures.host Fixtures.generator
              (templatesRequest (RootTemplatesPathArray ["reactive"; "common"]) ["src/a.txt"] None)
              Fixtures.roots ["reactive"; "common"] eq_refl (or_introl eq_refl))
    as (roots & Hroots & Hlen & Hnth).
  exists roots. split; [exact Hroots|]. split; [exact Hlen|]. split.
  - exact (Hnth 0 1 Fixtures.blueprintFolder "common" eq_refl eq_refl).
  - exact (Hnth 1 0 Fixtures.jhipsterFolder "reactive" eq_refl eq_refl).
Defined.

(** *** The [templates] form *)

(** X9.  In the [templates] form the method-level [transform] has no
    effect. *)
Theorem templates_ignore_method_transform host this o t1 t2 st :
  keyValue (sections o) = None -> keyValue (blocks o) = None ->
  writeFiles host this (withTransform o t1) st = writeFiles host this (withTransform o t2) st.
Proof.
  intros Hs Hb. unfold writeFiles, parsedTemplatesOf, sectionTransformOf, paramCount,
    rootTemplatesAbsolutePathOf, withTransform. cbn.
  rewrite Hs, Hb. reflexivity.
Qed.

(** X9 on an example. *)
Lemma templates_ignore_method_transform_witness :
  writeFiles Fixtures.host Fixtures.generator
    (templatesRequest RootTemplatesPathMissing ["src/b.txt"] (Some [Fixtures.exclaim]))
    Fixtures.initial
  = writeFiles Fixtures.host Fixtures.generator
      (templatesRequest RootTemplatesPathMissing ["src/b.txt"] None) Fixtures.initial
  /\ memFs (fst (writeFiles Fixtures.host Fixtures.generator
       (templatesRequest RootTemplatesPathMissing ["src/b.txt"] (Some [Fixtures.exclaim]))
       Fixtures.initial)) !! "/project/src/b.txt" = Some "Bye"
  /\ snd (writeFiles Fixtures.host Fixtures.generator
            (templatesRequest RootTemplatesPathMissing ["src/b.txt"] (Some [Fixtures.exclaim]))
            Fixtures.initial) = Ok ["src/b.txt"].
Proof.
  split; [|split; reflexivity].
  apply (templates_ignore_method_transform Fixtures.host Fixtures.generator
           (templatesRequest RootTemplatesPathMissing ["src/b.txt"] None)
           (Some [Fixtures.exclaim]) None); reflexivity.
Defined.


(** *** [normalizeEjs] *)

Lemma startsWith_long p x z :
  String.length p <= String.length x -> startsWith p (x +:+ z) = startsWith p x.
Proof.
  revert x. induction p as [|a p IH]; intros x Hlen; [by destruct x|].
  destruct x as [|b x]; simpl in *; [lia|]. rewrite IH by lia. done.
Qed.

Lemma startsWith_self p b : startsWith p (p +:+ b) = true.
Proof. induction p as [|a p IH]; simpl; [done|]. by rewrite Ascii.eqb_refl. Qed.

Lemma replaceFirst_first r b : forall a,
  includes ".ejs" (a +:+ ".ej") = false ->
  replaceFirst ".ejs" r (a +:+ ".ejs" +:+ b) = (a +:+ r +:+ b)%string.
Proof.
  induction a as [|c a IH]; intros H.
  - change ("" +:+ ".ejs" +:+ b)%string with (".ejs" +:+ b)%string.
    destruct b; reflexivity.
  - change (String c a +:+ ".ej")%string with (String c (a +:+ ".ej")%string) in H.
    cbn [includes] in H. apply orb_false_elim in H as [Hstart Hrest].
    change (String c a +:+ ".ejs" +:+ b)%string with (String c (a +:+ ".ejs" +:+ b)%string).
    cbn [replaceFirst].
    assert (Hs : startsWith ".ejs" (String c (a +:+ ".ejs" +:+ b)%string) = false).
    { etrans; [|exact Hstart].
      replace (String c (a +:+ ".ejs" +:+ b)%string)
        with (String c (a +:+ ".ej") +:+ String "s" b)%string.
      - apply startsWith_long. simpl. rewrite length_append. simpl. lia.
      - simpl. f_equal. rewrite append_assoc. reflexivity. }
    rewrite Hs, IH by done. reflexivity.
Qed.

(** X10.  When [.ejs] is appended to the source, the destination loses the
    first [.ejs] it holds, wherever it stands, and nothing else: a
    destination without [.ejs] is kept as it is, and a second [.ejs]
    stays. *)
Theorem target_loses_first_ejs_only host context t (d : string) :
  destinationFile t = DestString d -> appendEjs host t = true ->
  (includes ".ejs" d = false -> targetFile host context t = Ok d)
  /\ (forall a b, d = (a +:+ ".ejs" +:+ b)%string -> includes ".ejs" (a +:+ ".ej") = false ->
        targetFile host context t = Ok (a +:+ b)%string).
Proof.
  intros Hd Happend. unfold targetFile. rewrite Hd, Happend. unfold normalizeEjs. split.
  - intros H. by rewrite replaceFirst_absent.
  - intros a b -> H. by rewrite replaceFirst_first.
Qed.

(** X10 on an example. *)
Lemma target_loses_first_ejs_only_witness :
  targetFile Fixtures.host Fixtures.plainContext
    (Fixtures.task "src/a.txt" "/project/a.ejs.txt.ejs")
  = Ok "/project/a.txt.ejs".
Proof.
  exact (proj2 (target_loses_first_ejs_only Fixtures.host Fixtures.plainContext
                  (Fixtures.task "src/a.txt" "/project/a.ejs.txt.ejs")
                  "/project/a.ejs.txt.ejs" eq_refl eq_refl)
               "/project/a" ".txt.ejs" eq_refl eq_refl).
Defined.


(** *** The files that a run touches *)

(** X11.  A [writeFiles] that returns has changed no file of the
    in-memory file system other than the ones it returns, each where
    [destinationPath] resolves it. *)
Theorem writeFiles_touches_only_its_targets host this o st st' files (p : string) :
  writeFiles host this o st = (st', Ok files) ->
  p <> destinationPath1 host "" ->
  (forall file, In file files -> p <> destinationPath1 host file) ->
  memFs st' !! p = memFs st !! p.
Proof.
  intros Hrun Hroot Hp.
  destruct (writeFiles_run _ _ _ _ _ _ Hrun)
    as (st1 & tasks & written & _ & _ & -> & _ & Hothers).
  apply Hothers. intros file Hin Heq. destruct file as [|c file].
  - by apply Hroot.
  - apply (Hp (String c file)); [|done]. apply filter_In. by split.
Qed.

(** X11 on an example. *)
Lemma writeFiles_touches_only_its_targets_witness :
  snd (writeFiles Fixtures.host Fixtures.generator
         (Fixtures.request [] [Fixtures.blockAt "src" TransformMissing [FileName "a.txt"]])
         Fixtures.generated)
  = Ok ["/project/src/a.txt"]
  /\ memFs (fst (writeFiles Fixtures.host Fixtures.generator
         (Fixtures.request [] [Fixtures.blockAt "src" TransformMissing [FileName "a.txt"]])
         Fixtures.generated)) !! "/project/src/b.txt"
     = Some "kept as it was".
Proof.
  split; [reflexivity|].
  rewrite (writeFiles_touches_only_its_targets Fixtures.host Fixtures.generator
             (Fixtures.request [] [Fixtures.blockAt "src" TransformMissing [FileName "a.txt"]])
             Fixtures.generated _ ["/project/src/a.txt"] "/project/src/b.txt").
  - reflexivity.
  - reflexivity.
  - discriminate.
  - intros file [<-|[]]. discriminate.
Defined.

End WriteFilesMoreFacts.

(** ** [composeWithJHipster] *)

Module ComposeFacts.
Import JsString WriteFiles Compose.
Local Open Scope list_scope.

Lemma find_first {A : Type} (f : A -> bool) (l : list A) (x : A) :
  List.find f l = Some x ->
  exists i, l !! i = Some x /\ f x = true
            /\ forall j y, j < i -> l !! j = Some y -> f y = false.
Proof.
  induction l as [|a l IH]; [done|]. cbn [List.find].
  destruct (f a) eqn:E.
  - intros [= ->]. exists 0. split; [done|]. split; [done|]. intros j y Hj. lia.
  - intros H. destruct (IH H) as (i & Hi & Hx & Hbefore).
    exists (S i). split; [done|]. split; [done|].
    intros [|j] y Hj; simpl.
    + by intros [= <-].
    + apply Hbefore. lia.
Qed.

Lemma find_none {A : Type} (f : A -> bool) (l : list A) :
  List.find f l = None -> forall y, In y l -> f y = false.
Proof. intros H y Hy. by apply (List.find_none f l H). Qed.

Section Facts.
Context {Value : Type}.
Implicit Types (env : Env Value) (args : Args Value) (options : option (gmap string Value)).

(** X12.  [composeWithJHipster] composes with the namespace when the
    environment knows it; otherwise with the first index file that exists,
    in the order [js], [cjs], [mjs], [ts], [cts], [mts]; and when none
    exists it throws [Generator <generator> was not found], with the name
    as it was given. *)
Theorem composeWithJHipster_resolution env (generator : string) args options immediately :
  match composeWithJHipster env (Some generator) args options immediately with
  | Ok call =>
      if registered env (namespaceOf generator)
      then composedGenerator call = namespaceOf generator
      else exists i extension,
             indexFiles !! i = Some extension
             /\ composedGenerator call = pathToLook env generator extension
             /\ indexFileFound env generator extension = true
             /\ forall j earlier, j < i -> indexFiles !! j = Some earlier ->
                  indexFileFound env generator earlier = false
  | Throw e =>
      e = JsError ("Generator " +:+ generator +:+ " was not found")
      /\ registered env (namespaceOf generator) = false
      /\ forall extension, In extension indexFiles ->
           indexFileFound env generator extension = false
  end.
Proof.
  unfold composeWithJHipster.
  destruct (match args with ArgsArray l => _ | ArgsOptions o => _ | ArgsMissing => _ end)
    as [args' options'].
  destruct (registered env (namespaceOf generator)) eqn:Hreg; [done|].
  destruct (List.find _ indexFiles) as [found|] eqn:Hfind; cbn [rbind].
  - destruct (find_first _ _ _ Hfind) as (i & Hi & Hfound & Hbefore). cbn. eauto 10.
  - split; [done|]. split; [done|]. by apply find_none.
Qed.

(** X13.  The options of the composed generator: a property of the options
    given wins; then come [configOptions] and [destinationRoot] of the
    composing generator, which its own options cannot replace; then its
    own options.  The options given are the second argument when that is
    not an array, and the third argument is then ignored.  The generator is
    scheduled unless [immediately] is set. *)
Theorem composeWithJHipster_options env (generator : string) args options immediately call :
  composeWithJHipster env (Some generator) args options immediately = Ok call ->
  (forall key,
     composedOptions call !! key
     = match givenOptions args options !! key with
       | Some v => Some v
       | None =>
           if String.eqb key "configOptions" then Some (configOptions env)
           else if String.eqb key "destinationRoot" then Some (destinationRoot env)
           else thisOptions env !! key
       end)
  /\ composedArgs call = match args with ArgsArray l => l | _ => [] end
  /\ schedule call = negb immediately.
Proof.
  unfold composeWithJHipster.
  assert (Hlookup : forall o key,
    composeOptions env o !! key
    = match default ∅ o !! key with
      | Some v => Some v
      | None =>
          if String.eqb key "configOptions" then Some (configOptions env)
          else if String.eqb key "destinationRoot" then Some (destinationRoot env)
          else thisOptions env !! key
      end).
  { intros o key. unfold composeOptions. rewrite lookup_union.
    destruct (default ∅ o !! key) as [v|] eqn:E; [by rewrite union_Some_l|].
    rewrite (left_id None _).
    destruct (String.eqb_spec key "configOptions") as [->|Hc]; [by rewrite lookup_insert_eq|].
    rewrite lookup_insert_ne by done.
    destruct (String.eqb_spec key "destinationRoot") as [->|Hd]; [by rewrite lookup_insert_eq|].
    by rewrite lookup_insert_ne. }
  destruct args as [l|o|]; cbn [givenOptions];
    (destruct (if registered env _ then _ else _) as [g|e]; cbn [rbind]; [|discriminate]);
    intros [= <-]; cbn [composedOptions composedArgs schedule];
    (split; [|done]); intros key; rewrite Hlookup; reflexivity.
Qed.

End Facts.

(** X13 on an example. *)
Lemma composeWithJHipster_options_witness :
  exists call,
    composeWithJHipster sampleEnv (Some "server")
      (ArgsOptions {[ "skipInstall" := "false" ]}) (Some {[ "ignored" := "yes" ]}) false
    = Ok call
    /\ composedGenerator call = "/generators/server/index.mjs"
    /\ composedOptions call !! "skipInstall" = Some "false"
    /\ composedOptions call !! "destinationRoot" = Some "/project"
    /\ composedOptions call !! "ignored" = None
    /\ schedule call = true.
Proof.
  eexists. split; [reflexivity|]. split; [reflexivity|].
  destruct (composeWithJHipster_options sampleEnv "server"
              (ArgsOptions {[ "skipInstall" := "false" ]}) (Some {[ "ignored" := "yes" ]})
              false _ eq_refl) as (Hoptions & _ & Hschedule).
  rewrite !Hoptions. repeat split; first [reflexivity | exact Hschedule].
Defined.

End ComposeFacts.

(** ** Names of tables and constraints *)

Module DbNamesFacts.
Import JsString WriteFiles DbNames StringFacts.
#[local] Arguments String.append !_ _ / : simpl nomatch.
Local Open Scope list_scope.

Lemma endsWith_append a s : endsWith s (a +:+ s) = true.
Proof.
  unfold endsWith. rewrite length_append.
  replace (String.length a + String.length s - String.length s) with (String.length a) by lia.
  rewrite drop_append, String.eqb_refl.
  apply andb_true_intro. split; [|done]. apply Nat.leb_le. lia.
Qed.

Section Facts.
Variable hibernateSnakeCase : string -> string.
Variable databaseData : string -> option DatabaseData.
Variable calculateDbNameWithLimit : string -> string -> Z -> LimitOptions -> string.
Variable skipCheckLengthOfIdentifier : bool.

Lemma exceeded_None limit name :
  exceeded skipCheckLengthOfIdentifier limit name = None ->
  skipCheckLengthOfIdentifier = false ->
  forall max, limit = Some max -> max <> 0 -> String.length name <= max.
Proof.
  unfold exceeded. intros H -> max -> Hmax.
  destruct (max =? 0)%nat eqn:E0; [by apply Nat.eqb_eq in E0|].
  destruct (max <? String.length name)%nat eqn:E1; [discriminate H|].
  apply Nat.ltb_ge in E1. exact E1.
Qed.

Lemma exceeded_Some limit name max :
  exceeded skipCheckLengthOfIdentifier limit name = Some max ->
  limit = Some max /\ max < String.length name /\ skipCheckLengthOfIdentifier = false.
Proof.
  unfold exceeded. destruct limit as [m|]; [|done].
  destruct (m =? 0)%nat; [done|].
  destruct (m <? String.length name)%nat eqn:Elt; [|done].
  destruct skipCheckLengthOfIdentifier; [done|]. cbn [negb andb].
  intros [= ->]. apply Nat.ltb_lt in Elt. done.
Qed.

Lemma dataOf_tableLimit prodDatabaseType max :
  tableNameMaxLength (dataOf databaseData prodDatabaseType) = Some max ->
  exists data, databaseData prodDatabaseType = Some data
               /\ tableNameMaxLength data = Some max.
Proof.
  unfold dataOf. destruct (databaseData prodDatabaseType) as [data|]; [|done].
  intros H. by exists data.
Qed.

Lemma dataOf_limit prodDatabaseType max :
  constraintNameMaxLength (dataOf databaseData prodDatabaseType) = Some max ->
  exists data, databaseData prodDatabaseType = Some data
               /\ constraintNameMaxLength data = Some max.
Proof.
  unfold dataOf. destruct (databaseData prodDatabaseType) as [data|]; [|done].
  intros H. by exists data.
Qed.

(** X14.  [getConstraintName] warns exactly when it truncates.  Without a
    warning it returns the full name, which fits the limit of the
    database when there is one and the check is not skipped; with a
    warning it returns the name of [calculateDbNameWithLimit] for the
    limit less the length of the suffix, followed by the suffix.  Either
    way the name ends with the suffix. *)
Theorem getConstraintName_warns_when_it_truncates entityName columnOrRelationName
    prodDatabaseType noSnakeCase prefix suffix :
  let result := getConstraintName hibernateSnakeCase databaseData calculateDbNameWithLimit
                  skipCheckLengthOfIdentifier entityName columnOrRelationName
                  prodDatabaseType noSnakeCase prefix suffix in
  let full := fullConstraintName hibernateSnakeCase entityName columnOrRelationName
                noSnakeCase prefix suffix in
  endsWith suffix (snd result) = true
  /\ match fst result with
     | [] =>
         snd result = full
         /\ (skipCheckLengthOfIdentifier = false ->
             forall data max,
               databaseData prodDatabaseType = Some data ->
               constraintNameMaxLength data = Some max -> max <> 0 ->
               String.length (snd result) <= max)
     | warnings =>
         List.length warnings = 1
         /\ skipCheckLengthOfIdentifier = false
         /\ exists data max,
              databaseData prodDatabaseType = Some data
              /\ constraintNameMaxLength data = Some max
              /\ max < String.length full
              /\ snd result
                 = (calculateDbNameWithLimit entityName columnOrRelationName
                      (Z.of_nat max - Z.of_nat (String.length suffix))
                      {| limitPrefix := prefix; limitSeparator := "__";
                         limitNoSnakeCase := noSnakeCase |} +:+ suffix)%string
     end.
Proof.
  cbv zeta. unfold getConstraintName, fullConstraintName. cbv zeta.
  set (full := if default false noSnakeCase then _ else _).
  destruct (exceeded _ _ full) as [max|] eqn:E; cbn [fst snd].
  - clearbody full. split; [apply endsWith_append|]. split; [done|].
    apply exceeded_Some in E as (Hlimit & Hlt & Hskip).
    apply dataOf_limit in Hlimit as (data & Hdata & Hmax).
    split; [done|]. by exists data, max.
  - split.
    + subst full. destruct (default false noSnakeCase).
      * rewrite <- !append_assoc. apply endsWith_append.
      * rewrite <- !append_assoc. apply endsWith_append.
    + split; [done|]. intros Hskip data max Hdata Hmax Hne.
      apply (exceeded_None _ _ E Hskip). unfold dataOf. by rewrite Hdata.
      exact Hne.
Qed.

(** X15.  A foreign-key name always ends in [_id], truncated or not. *)
Theorem getFKConstraintName_ends_with_id entityName relationshipName prodDatabaseType
    noSnakeCase :
  endsWith "_id"
    (snd (getFKConstraintName hibernateSnakeCase databaseData calculateDbNameWithLimit
            skipCheckLengthOfIdentifier entityName relationshipName prodDatabaseType
            noSnakeCase)) = true.
Proof.
  unfold getFKConstraintName, getConstraintName. cbv zeta.
  destruct (exceeded _ _ _); cbn [snd]; [apply endsWith_append|].
  destruct (default false noSnakeCase); rewrite <- !append_assoc; apply endsWith_append.
Qed.

(** X16.  [getJoinTableName] warns exactly when it truncates.  Without a
    warning the name is [rel_], the table name of the entity, [__] and
    the table name of the relationship, and it fits the limit of the
    database when there is one and the check is not skipped; with a
    warning the name is the one of [calculateDbNameWithLimit] for that
    limit. *)
Theorem getJoinTableName_warns_when_it_truncates entityName relationshipName
    prodDatabaseType :
  let result := getJoinTableName hibernateSnakeCase databaseData calculateDbNameWithLimit
                  skipCheckLengthOfIdentifier entityName relationshipName prodDatabaseType in
  let full := ("rel_" +:+ hibernateSnakeCase entityName +:+ "__"
               +:+ hibernateSnakeCase relationshipName)%string in
  match fst result with
  | [] =>
      snd result = full
      /\ (skipCheckLengthOfIdentifier = false ->
          forall data max,
            databaseData prodDatabaseType = Some data ->
            tableNameMaxLength data = Some max -> max <> 0 ->
            String.length (snd result) <= max)
  | warnings =>
      List.length warnings = 1
      /\ skipCheckLengthOfIdentifier = false
      /\ exists data max,
           databaseData prodDatabaseType = Some data
           /\ tableNameMaxLength data = Some max
           /\ max < String.length full
           /\ snd result
              = calculateDbNameWithLimit entityName relationshipName (Z.of_nat max)
                  {| limitPrefix := "rel_"; limitSeparator := "__";
                     limitNoSnakeCase := None |}
  end.
Proof.
  cbv zeta. unfold getJoinTableName, getTableName. cbv zeta.
  set (full := ("rel_" +:+ _)%string).
  destruct (exceeded _ _ full) as [max|] eqn:E; cbn [fst snd].
  - split; [done|].
    apply exceeded_Some in E as (Hlimit & Hlt & Hskip).
    apply dataOf_tableLimit in Hlimit as (data & Hdata & Hmax).
    split; [done|]. by exists data, max.
  - split; [done|]. intros Hskip data max Hdata Hmax Hne.
    apply (exceeded_None _ _ E Hskip); [|exact Hne]. unfold dataOf. by rewrite Hdata.
Qed.

End Facts.

(** On the tiny database: a name that fits, and one that does not. *)
Lemma getFKConstraintName_examples :
  getFKConstraintName (fun s => s) tinyDatabase shorten false "a" "b" "tiny" None
  = ([], "fk_a__b_id")
  /\ snd (getFKConstraintName (fun s => s) tinyDatabase shorten false
            "customer" "order" "tiny" None)
     = "fk_cu__or_id".
Proof. split; reflexivity. Qed.

End DbNamesFacts.

(** ** [parseCommonRuntimeOptions] *)

Module RuntimeOptionsFacts.
Import JsString Js RuntimeOptions.
Import WriteFiles (Result, Ok, Throw).
Local Open Scope list_scope.

Lemma copyDefined_lookup options from to dest key :
  copyDefined options from to dest !! key
  = if String.eqb key to && defined (get options from)
    then Some (get options from) else dest !! key.
Proof.
  unfold copyDefined. destruct (defined (get options from)).
  - destruct (String.eqb_spec key to) as [->|Hne]; cbn [andb].
    + by rewrite lookup_insert_eq.
    + by rewrite lookup_insert_ne.
  - by rewrite andb_false_r.
Qed.

Lemma insert_eqb (m : gmap string Value) i x j :
  <[i := x]> m !! j = if String.eqb j i then Some x else m !! j.
Proof.
  destruct (String.eqb_spec j i) as [->|Hne]; [by rewrite lookup_insert_eq|].
  by rewrite lookup_insert_ne.
Qed.

Lemma truthy_defined v : truthy v = true -> defined v = true.
Proof. by destruct v. Qed.

Section Facts.
Variable parseCreationTimestamp : Value -> Result Value.
Implicit Types (options dest : gmap string Value).

(** What [dest] holds afterwards, key by key. *)
Lemma parsed_lookup options dest key :
  destAfter (parseCommonRuntimeOptions parseCreationTimestamp options dest) !! key
  = if String.eqb key "creationTimestamp"
    then match parseCreationTimestamp (get options "creationTimestamp") with
         | Ok creationTimestamp =>
             if timestampAsked options dest && truthy creationTimestamp
             then Some creationTimestamp else dest !! "creationTimestamp"
         | Throw _ => dest !! "creationTimestamp"
         end
    else match copiedFrom key with
         | Some from =>
             if String.eqb key "reproducible" && timestampThrown parseCreationTimestamp options dest then dest !! key
             else if defined (get options from) then Some (get options from)
                  else dest !! key
         | None => dest !! key
         end.
Proof.
  unfold parseCommonRuntimeOptions, destAfter, timestampThrown, timestampAsked. cbv zeta.
  set (d6 := copyDefined options "skipClient" "skipClient" _).
  assert (Hct : get d6 "creationTimestamp" = get dest "creationTimestamp").
  { unfold get, d6. by rewrite !copyDefined_lookup. }
  rewrite Hct.
  destruct (negb (defined (get dest "creationTimestamp"))
            && truthy (get options "creationTimestamp")); cbn [andb];
    [destruct (parseCreationTimestamp _) as [creationTimestamp|e];
       [destruct (truthy creationTimestamp)|]|];
    cbn [snd fst]; unfold d6, copiedFrom; cbn [existsb];
    rewrite ?copyDefined_lookup, ?insert_eqb, ?copyDefined_lookup;
    repeat match goal with
           | |- context [String.eqb key ?s] =>
               destruct (String.eqb_spec key s) as [->|?]
           end;
    cbn [andb orb negb existsb String.eqb Ascii.eqb Bool.eqb];
    repeat match goal with
           | |- context [defined ?v] => destruct (defined v)
           | |- context [parseCreationTimestamp ?v] => destruct (parseCreationTimestamp v)
           end; reflexivity.
Qed.

(** X17.  [parseCommonRuntimeOptions] writes to eight keys of [dest] at
    most: [withEntities], [skipChecks], [isDebugEnabled], [experimental],
    [skipPrompts], [skipClient], [creationTimestamp] and [reproducible].
    Every other key is left as it was, and so is a [creationTimestamp]
    that [dest] already defines. *)
Theorem parseCommonRuntimeOptions_keeps_other_keys options dest key :
  (copiedFrom key = None /\ key <> "creationTimestamp")
  \/ (key = "creationTimestamp" /\ defined (get dest "creationTimestamp") = true) ->
  destAfter (parseCommonRuntimeOptions parseCreationTimestamp options dest) !! key
  = dest !! key.
Proof.
  intros H. rewrite parsed_lookup. destruct H as [[Hnone Hne]|[-> Hdef]].
  - rewrite Hnone. by destruct (String.eqb_spec key "creationTimestamp").
  - cbn. unfold timestampAsked. rewrite Hdef. by destruct (parseCreationTimestamp _).
Qed.


End Facts.

(** A key outside the eight, and a time stamp that is already there. *)
(** X17 on an example. *)
Lemma parseCommonRuntimeOptions_keeps_other_keys_witness :
  destAfter (parseCommonRuntimeOptions digitsOnly
         {[ "baseName" := Str "shop"; "creationTimestamp" := Str "20240101" ]}
         {[ "baseName" := Str "demo"; "creationTimestamp" := Number 7 ]}) !! "baseName"
  = Some (Str "demo")
  /\ destAfter (parseCommonRuntimeOptions digitsOnly
         {[ "baseName" := Str "shop"; "creationTimestamp" := Str "20240101" ]}
         {[ "baseName" := Str "demo"; "creationTimestamp" := Number 7 ]}) !! "creationTimestamp"
     = Some (Number 7).
Proof.
  split.
  - rewrite (parseCommonRuntimeOptions_keeps_other_keys digitsOnly); [reflexivity|].
    left. split; [reflexivity|discriminate].
  - rewrite (parseCommonRuntimeOptions_keeps_other_keys digitsOnly); [reflexivity|].
    right. split; reflexivity.
Defined.

End RuntimeOptionsFacts.

(** ** [loadStoredAppOptions] *)

Module StoredOptionsFacts.
Import JsString Js StoredOptions.
Import WriteFiles (Result, Ok, Throw, Error, JsError, TypeError).
Local Open Scope list_scope.

Lemma triple_skip I E : triple I skip I E.
Proof. intros st H. exact H. Qed.

Lemma triple_throw I Q (E : State -> Error -> Prop) e :
  (forall st, I st -> E st e) -> triple I (throw e) Q E.
Proof. intros HE st H. apply HE, H. Qed.

Lemma triple_andThen P Q R E a b :
  triple P a Q E -> triple Q b R E -> triple P (a >> b) R E.
Proof.
  intros Ha Hb st H. unfold andThen.
  specialize (Ha st H). destruct (a st) as [st' [[]|e]]; [|exact Ha].
  apply Hb, Ha.
Qed.

Lemma triple_reading P Q E body :
  (forall st0, P st0 -> triple P (body st0) Q E) -> triple P (reading body) Q E.
Proof. intros Hbody st H. exact (Hbody st H st H). Qed.

Lemma triple_nothing (s : Step) Q E : triple (fun _ => False) s Q E.
Proof. intros st []. Qed.

Lemma triple_update I E (s : Step) :
  (forall st, snd (s st) = Ok tt) -> (forall st, I st -> I (fst (s st))) -> triple I s I E.
Proof.
  intros Hok Hkeep st H. specialize (Hok st). specialize (Hkeep st H).
  destruct (s st) as [st' r]. cbn in Hok, Hkeep. subst r. exact Hkeep.
Qed.

Lemma triple_whenTruthy I E key body :
  (forall v, triple I (body v) I E) -> triple I (whenTruthy key body) I E.
Proof.
  intros Hbody. apply triple_reading. intros st0 _.
  destruct (truthy _); [apply Hbody | apply triple_skip].
Qed.

Lemma triple_whenDefined I E key body :
  (forall v, triple I (body v) I E) -> triple I (whenDefined key body) I E.
Proof.
  intros Hbody. apply triple_reading. intros st0 _.
  destruct (defined _); [apply Hbody | apply triple_skip].
Qed.

Lemma triple_whenTruthy_not I E key body :
  (forall st, I st -> truthy (option_ st key) = false) -> triple I (whenTruthy key body) I E.
Proof.
  intros Hkey. apply triple_reading. intros st0 H0.
  rewrite (Hkey st0 H0). apply triple_skip.
Qed.

Lemma triple_whenDefined_not I E key body :
  (forall st, I st -> defined (option_ st key) = false) -> triple I (whenDefined key body) I E.
Proof.
  intros Hkey. apply triple_reading. intros st0 H0.
  rewrite (Hkey st0 H0). apply triple_skip.
Qed.

Lemma get_insert_ne (m : gmap string Value) k key v :
  k <> key -> get (<[k := v]> m) key = get m key.
Proof. intros Hne. unfold get. by rewrite lookup_insert_ne. Qed.

Lemma get_insert (m : gmap string Value) k v : get (<[k := v]> m) k = v.
Proof. unfold get. by rewrite lookup_insert_eq. Qed.

(** One statement after the other; [side] settles what the invariant
    asks of a statement. *)
Ltac statement side :=
  lazymatch goal with
  | |- triple _ (_ >> _) _ _ =>
      eapply triple_andThen; [statement side | statement side]
  | |- triple _ skip _ _ => apply triple_skip
  | |- triple _ (throw _) _ _ => apply triple_throw; solve [side]
  | |- triple _ (whenTruthy _ _) _ _ =>
      first [ apply triple_whenTruthy_not; solve [side]
            | apply triple_whenTruthy; intros ?; cbv beta; statement side ]
  | |- triple _ (whenDefined _ _) _ _ =>
      first [ apply triple_whenDefined_not; solve [side]
            | apply triple_whenDefined; intros ?; cbv beta; statement side ]
  | |- triple _ (reading _) _ _ =>
      apply triple_reading; intros ? ?; cbv beta; statement side
  | |- triple _ (if ?c then _ else _) _ _ => destruct c eqn:?; statement side
  | |- triple _ (match ?x with _ => _ end) _ _ => destruct x eqn:?; statement side
  | |- triple _ _ _ _ => apply triple_update; [reflexivity || (intros ?; cbn; by destruct (given _)) | solve [side]]
  end.

Ltac statements side :=
  unfold loadOptions, loadDb, loadTestFrameworks, loadLanguage, loadNativeLanguage,
    loadCreationTimestamp, checkPackageManager, copyDefined, copyTruthy, flagTruthy;
  statement side.

Lemma seen_string name kept :
  existsb (sameValueZero (Str name)) (List.map Str kept) = true <-> In name kept.
Proof.
  rewrite existsb_exists. split.
  - intros (v & Hin & Hsame). apply in_map_iff in Hin as (other & <- & Hin).
    cbn in Hsame. apply String.eqb_eq in Hsame. by subst other.
  - intros Hin. exists (Str name). split; [by apply in_map|].
    cbn. apply String.eqb_refl.
Qed.

Lemma unique_from names : forall kept,
  List.NoDup kept ->
  exists merged,
    fold_left (fun kept x => if existsb (sameValueZero x) kept then kept else kept ++ [x])
      (List.map Str names) (List.map Str kept) = List.map Str merged
    /\ List.NoDup merged
    /\ forall name, In name merged <-> In name kept \/ In name names.
Proof.
  induction names as [|name names IH]; intros kept Hkept.
  - exists kept. cbn. repeat split; [exact Hkept | tauto | by intros [|[]]].
  - cbn [List.map fold_left].
    destruct (existsb _ _) eqn:Hseen.
    + apply seen_string in Hseen.
      destruct (IH kept Hkept) as (merged & -> & Hmerged & Hin).
      exists merged. repeat split; [exact Hmerged | |].
      * intros H. apply Hin in H. cbn. tauto.
      * intros [H|[<-|H]]; apply Hin; tauto.
    + assert (~ In name kept) as Hnew.
      { intros H. apply seen_string in H. congruence. }
      destruct (IH (kept ++ [name])) as (merged & Heq & Hmerged & Hin).
      { apply List.NoDup_app; [exact Hkept | repeat constructor; by intros [] |].
        intros x Hx [<-|[]]. by apply Hnew. }
      exists merged. rewrite <- Heq, List.map_app. repeat split; [exact Hmerged | |].
      * intros H. apply Hin in H. rewrite in_app_iff in H. cbn in *. tauto.
      * intros H. apply Hin. rewrite in_app_iff. cbn in *. tauto.
Qed.

Section Facts.
Context (support : Support).

Ltac keeps_parsed :=
  idtac; intros ? ?; unfold parsed in *; cbn;
  first [ assumption
        | rewrite get_insert_ne by done; assumption
        | match goal with |- context [given ?st] => destruct (given st) end; assumption ].

Lemma loadOptions_parsed :
  triple parsed (loadOptions support) parsed (fun st _ => parsed st).
Proof. statements keeps_parsed. Qed.

(** X19.  The options are parsed once: after a call of
    [loadStoredAppOptions], also one that threw, a second call changes
    nothing, whatever options it is given. *)
Theorem loadStoredAppOptions_parses_once st o :
  let st' := fst (loadStoredAppOptions support st) in
  loadStoredAppOptions support (withGiven o st') = (withGiven o st', Ok tt).
Proof.
  intros st'.
  assert (parsed st') as Hparsed.
  { subst st'. unfold loadStoredAppOptions, reading.
    destruct (truthy (get (configOptions st) "optionsParsed")) eqn:E; [exact E|].
    assert (triple (fun _ => True) (setConfigOption "optionsParsed" (Bool true))
              parsed (fun st _ => parsed st)) as Hset.
    { intros s _. unfold parsed. cbn. by rewrite get_insert. }
    pose proof (triple_andThen _ _ _ _ _ _ Hset loadOptions_parsed st I) as H.
    destruct (andThen _ _ st) as [s [[]|e]]; exact H. }
  unfold loadStoredAppOptions, reading. unfold parsed in Hparsed. cbn.
  by rewrite Hparsed.
Qed.

Ltac keeps_plain :=
  idtac; intros ? (? & ? & ? & ?);
  first [ assumption
        | unfold plain, timestampParses, option_, optionsOf in *; cbn;
          try match goal with
              | |- context [given ?st] => destruct (given st); cbn in *
              end;
          rewrite ?get_insert_ne by done; by repeat split ].

Lemma loadCreationTimestamp_parses :
  triple (plain support) (loadCreationTimestamp support) (plain support) never.
Proof.
  intros st (Hdb & Htest & Hlanguage & Htimestamp).
  unfold loadCreationTimestamp, whenTruthy, reading.
  destruct (truthy (option_ st "creationTimestamp")) eqn:Hgiven; [|by repeat split].
  destruct (Htimestamp Hgiven) as [creationTimestamp Hparsed]. rewrite Hparsed.
  destruct (truthy creationTimestamp); [|by repeat split].
  unfold andThen, reading. cbn.
  by destruct (defined _); repeat split.
Qed.

(** X20.  With [--db], [--test-frameworks] and [--language] not given,
    [loadStoredAppOptions] returns, unless [parseCreationTimestamp] throws
    on the [creationTimestamp] given. *)
Theorem loadStoredAppOptions_returns st :
  truthy (option_ st "db") = false ->
  truthy (option_ st "testFrameworks") = false ->
  truthy (option_ st "language") = false ->
  (truthy (option_ st "creationTimestamp") = true ->
   exists creationTimestamp,
     parseCreationTimestamp support (option_ st "creationTimestamp") = Ok creationTimestamp) ->
  snd (loadStoredAppOptions support st) = Ok tt.
Proof.
  intros Hdb Htest Hlanguage Htimestamp. unfold loadStoredAppOptions, reading.
  destruct (truthy (get (configOptions st) "optionsParsed")); [reflexivity|].
  assert (triple (plain support)
            (setConfigOption "optionsParsed" (Bool true) >> loadOptions support)
            (plain support) never) as H.
  { unfold loadOptions. repeat eapply triple_andThen.
    all: first [ apply loadCreationTimestamp_parses
               | apply triple_update; [reflexivity | keeps_plain]
               | solve [statements keeps_plain] ]. }
  specialize (H st (conj Hdb (conj Htest (conj Hlanguage Htimestamp)))).
  destruct (andThen _ _ st) as [st' [[]|e]]; [reflexivity | destruct H].
Qed.

Ltac keeps_unknownDb :=
  idtac; intros ? (? & ? & ? & ? & ? & ?);
  unfold unknownDb, option_, thisOption, optionsOf in *; cbn;
  rewrite ?get_insert_ne by done; by repeat split.

Lemma loadDb_unknown db dev prod :
  triple (unknownDb support db dev prod) (loadDb support) (fun _ => False)
    (fun st e =>
       e = JsError ("Could not detect databaseType for database " +:+ show db)
       /\ get (jhipsterConfig st) "devDatabaseType" = dev
       /\ get (jhipsterConfig st) "prodDatabaseType" = prod).
Proof.
  intros st (Hdb & Hthis & Htype & Hstored & Hdev & Hprod).
  unfold loadDb, whenTruthy, reading. rewrite Hdb. cbv beta.
  unfold andThen. rewrite Hthis, Htype, Hstored. cbn. by repeat split.
Qed.

(** X21.  When [--db] names a database that neither the support module nor
    the stored configuration knows the type of, [loadStoredAppOptions]
    throws and has not stored the database. *)
Theorem loadStoredAppOptions_unknown_db st :
  truthy (get (configOptions st) "optionsParsed") = false ->
  truthy (option_ st "db") = true ->
  truthy (getDBTypeFromDBValue support (thisOption st "db")) = false ->
  truthy (get (jhipsterConfig st) "databaseType") = false ->
  exists st',
    loadStoredAppOptions support st
    = (st', Throw (JsError ("Could not detect databaseType for database "
                            +:+ show (thisOption st "db"))))
    /\ get (jhipsterConfig st') "devDatabaseType" = get (jhipsterConfig st) "devDatabaseType"
    /\ get (jhipsterConfig st') "prodDatabaseType" = get (jhipsterConfig st) "prodDatabaseType".
Proof.
  intros Hparsed Hdb Htype Hstored. unfold loadStoredAppOptions, reading.
  rewrite Hparsed.
  set (db := thisOption st "db") in *.
  set (dev := get (jhipsterConfig st) "devDatabaseType").
  set (prod := get (jhipsterConfig st) "prodDatabaseType").
  assert (triple (unknownDb support db dev prod)
            (setConfigOption "optionsParsed" (Bool true) >> loadOptions support)
            (fun _ => False)
            (fun st e =>
               e = JsError ("Could not detect databaseType for database " +:+ show db)
               /\ get (jhipsterConfig st) "devDatabaseType" = dev
               /\ get (jhipsterConfig st) "prodDatabaseType" = prod)) as H.
  { unfold loadOptions. repeat eapply triple_andThen.
    all: first [ apply triple_nothing
               | apply loadDb_unknown
               | apply triple_update; [reflexivity | keeps_unknownDb]
               | solve [statements keeps_unknownDb] ]. }
  specialize (H st). cbv beta in H.
  destruct (andThen _ _ st) as [st' [[]|e]].
  - destruct H. by repeat split.
  - destruct H as (-> & Hdev & Hprod); [by repeat split|]. by exists st'.
Qed.

Ltac keeps_adding :=
  idtac; intros ? (? & ? & ? & ? & ?);
  first [ assumption
        | unfold adding, option_, optionsOf in *; cbn;
          rewrite ?get_insert_ne by done; by repeat split ].

Ltac keeps_added :=
  idtac; intros ? (? & ? & ? & ?);
  first [ assumption
        | unfold added, option_, optionsOf in *; cbn;
          try match goal with
              | |- context [given ?st] => destruct (given st); cbn in *
              end;
          rewrite ?get_insert_ne by done; by repeat split ].

Lemma loadTestFrameworks_adds stored old new timestamp E :
  orElse stored (Array []) = Array old ->
  triple (adding stored (Array new) timestamp) loadTestFrameworks
    (added (Array (unique (old ++ new))) timestamp) E.
Proof.
  intros Hold st (Hdb & Hlanguage & Htimestamp & Hnew & Hstored).
  unfold loadTestFrameworks, whenTruthy, reading. rewrite Hnew. cbn [truthy].
  rewrite Hstored, Hold. cbn.
  unfold added, option_, optionsOf in *. cbn. by rewrite get_insert.
Qed.

Lemma loadCreationTimestamp_added merged timestamp :
  triple (added merged timestamp) (loadCreationTimestamp support) (added merged timestamp)
    (timestampRefused support merged timestamp).
Proof.
  intros st Hadded. pose proof Hadded as (Hdb & Hlanguage & Htimestamp & Hmerged).
  unfold loadCreationTimestamp, whenTruthy, reading. rewrite Htimestamp.
  destruct (truthy timestamp) eqn:Hgiven; [|exact Hadded].
  destruct (parseCreationTimestamp support timestamp) as [creationTimestamp|e] eqn:Hparsed;
    [|by repeat split].
  destruct (truthy creationTimestamp); [|exact Hadded].
  unfold andThen, reading. cbn.
  destruct (defined _) eqn:Hdefined; unfold added, option_, optionsOf in *; cbn;
    repeat split; try assumption.
  rewrite get_insert_ne by done. exact Hmerged.
Qed.

(** X22.  [--test-frameworks] adds to the stored test frameworks: every
    stored and every given framework is stored afterwards, and none
    twice.  The call then returns, unless [parseCreationTimestamp] throws
    on the [creationTimestamp] given: the frameworks are stored all the
    same. *)
Theorem loadStoredAppOptions_merges_testFrameworks st (stored new : list string) :
  truthy (get (configOptions st) "optionsParsed") = false ->
  truthy (option_ st "db") = false ->
  truthy (option_ st "language") = false ->
  orElse (get (jhipsterConfig st) "testFrameworks") (Array []) = Array (List.map Str stored) ->
  option_ st "testFrameworks" = Array (List.map Str new) ->
  exists st' r merged,
    loadStoredAppOptions support st = (st', r)
    /\ get (jhipsterConfig st') "testFrameworks" = Array (List.map Str merged)
    /\ List.NoDup merged
    /\ (forall name, In name merged <-> In name stored \/ In name new)
    /\ (r = Ok tt
        \/ exists e,
             r = Throw e
             /\ truthy (option_ st "creationTimestamp") = true
             /\ parseCreationTimestamp support (option_ st "creationTimestamp") = Throw e).
Proof.
  intros Hparsed Hdb Hlanguage Hstored Hnew. unfold loadStoredAppOptions, reading.
  rewrite Hparsed.
  set (timestamp := option_ st "creationTimestamp").
  set (merged := Array (unique (List.map Str stored ++ List.map Str new))).
  assert (triple (adding (get (jhipsterConfig st) "testFrameworks") (Array (List.map Str new))
                    timestamp)
            (setConfigOption "optionsParsed" (Bool true) >> loadOptions support)
            (added merged timestamp) (timestampRefused support merged timestamp)) as H.
  { unfold loadOptions. repeat eapply triple_andThen.
    all: first [ apply (loadTestFrameworks_adds _ _ _ _ _ Hstored)
               | apply loadCreationTimestamp_added
               | apply triple_update; [reflexivity | keeps_adding]
               | solve [statements keeps_adding]
               | solve [statements keeps_added] ]. }
  specialize (H st ltac:(by repeat split)).
  destruct (unique_from (stored ++ new) [] (List.NoDup_nil _)) as (names & Heq & Hnodup & Hin).
  assert (Hnames : merged = Array (List.map Str names)).
  { unfold merged, unique. rewrite <- List.map_app. exact (f_equal Array Heq). }
  assert (Hmembers : forall name, In name names <-> In name stored \/ In name new).
  { intros name. rewrite Hin, in_app_iff. cbn. tauto. }
  destruct (andThen _ _ st) as [st' [[]|e]].
  - destruct H as (_ & _ & _ & Hmerged).
    exists st', (Ok tt), names. rewrite Hmerged.
    split; [reflexivity|]. split; [exact Hnames|]. split; [exact Hnodup|].
    split; [exact Hmembers|]. by left.
  - destruct H as ((_ & _ & _ & Hmerged) & Hgiven & Hrefused).
    exists st', (Throw e), names. rewrite Hmerged.
    split; [reflexivity|]. split; [exact Hnames|]. split; [exact Hnodup|].
    split; [exact Hmembers|]. right. by exists e.
Qed.

Ltac keeps_untouched :=
  idtac; intros ? [Hoptions Hconfig];
  first [ by rewrite Hoptions
        | unfold untouched, option_, optionsOf in *; cbn;
          try match goal with
              | |- context [given ?st] => destruct (given st); cbn in *
              end;
          (split; [|exact Hconfig]);
          intros key Hkey; rewrite ?get_insert_ne by congruence; by apply Hoptions ].

(** X23.  Called with no option defined, [loadStoredAppOptions] returns
    and leaves the stored configuration as it is. *)
Theorem loadStoredAppOptions_without_options st :
  (forall key, option_ st key = Undefined) ->
  exists st',
    loadStoredAppOptions support st = (st', Ok tt)
    /\ jhipsterConfig st' = jhipsterConfig st.
Proof.
  intros Hnone. unfold loadStoredAppOptions, reading.
  destruct (truthy (get (configOptions st) "optionsParsed")); [by exists st|].
  assert (triple (untouched (jhipsterConfig st))
            (setConfigOption "optionsParsed" (Bool true) >> loadOptions support)
            (untouched (jhipsterConfig st)) never) as H.
  { eapply triple_andThen; [apply triple_update; [reflexivity | keeps_untouched]|].
    statements keeps_untouched. }
  specialize (H st ltac:(by split)).
  destruct (andThen _ _ st) as [st' [[]|e]]; [|destruct H].
  exists st'. split; [reflexivity | apply H].
Qed.

End Facts.
(** X20 on an example. *)
Lemma loadStoredAppOptions_returns_witness :
  snd (loadStoredAppOptions sampleSupport
         (sampleState {[ "baseName" := Str "shop"; "skipClient" := Bool true;
                         "creationTimestamp" := Number 1600000000000 ]}))
  = Ok tt.
Proof.
  apply (loadStoredAppOptions_returns sampleSupport); try reflexivity.
  intros _. by exists (Number 1600000000000).
Defined.

(** X21 on an example. *)
Lemma loadStoredAppOptions_unknown_db_witness :
  exists st',
    loadStoredAppOptions sampleSupport (sampleState {[ "db" := Str "oracle" ]})
    = (st', Throw (JsError "Could not detect databaseType for database oracle"))
    /\ get (jhipsterConfig st') "devDatabaseType" = Undefined
    /\ get (jhipsterConfig st') "prodDatabaseType" = Undefined.
Proof.
  exact (loadStoredAppOptions_unknown_db sampleSupport
           (sampleState {[ "db" := Str "oracle" ]}) eq_refl eq_refl eq_refl eq_refl).
Defined.

(** X22 on an example. *)
Lemma loadStoredAppOptions_merges_testFrameworks_witness :
  exists st' r merged,
    loadStoredAppOptions sampleSupport
      (sampleState {[ "testFrameworks" := Array [Str "gatling"; Str "cypress"];
                      "creationTimestamp" := Number 4000000000000 ]})
    = (st', r)
    /\ get (jhipsterConfig st') "testFrameworks" = Array (List.map Str merged)
    /\ List.NoDup merged
    /\ (forall name, In name merged <-> In name ["cypress"] \/ In name ["gatling"; "cypress"])
    /\ (r = Ok tt
        \/ exists e,
             r = Throw e
             /\ truthy (Number 4000000000000) = true
             /\ parseCreationTimestamp sampleSupport (Number 4000000000000) = Throw e).
Proof.
  exact (loadStoredAppOptions_merges_testFrameworks sampleSupport
           (sampleState {[ "testFrameworks" := Array [Str "gatling"; Str "cypress"];
                           "creationTimestamp" := Number 4000000000000 ]})
           ["cypress"] ["gatling"; "cypress"] eq_refl eq_refl eq_refl eq_refl eq_refl).
Defined.

(** X23 on an example. *)
Lemma loadStoredAppOptions_without_options_witness :
  exists st',
    loadStoredAppOptions sampleSupport (sampleState ∅) = (st', Ok tt)
    /\ jhipsterConfig st' = jhipsterConfig (sampleState ∅).
Proof.
  apply (loadStoredAppOptions_without_options sampleSupport (sampleState ∅)).
  intros key. reflexivity.
Defined.

End StoredOptionsFacts.
